(** * Model / ModelVersion metadata layer: entity consistency

    Shallow embedding of [model.py], [model_version.py], [model_versions.py]
    and [models.py]: alias resolution, validation, pull, cascading delete and
    the row / wire adapters of [Model].

    The Python code talks to three collaborators that it does not implement:
    the database client (store gateway), the alias helpers and the object
    store.  They are modelled here as a [World] of tables together with the
    list of calls issued so far, and every operation is a computation in the
    monad [M], which threads the world and stops at the first exception. *)

From Stdlib Require Import ZArith Ascii String DecimalString DecimalZ.
From stdpp Require Import base option list gmap strings.

Open Scope string_scope.
Open Scope list_scope.

Set Warnings "-clear-no-such-hyp,-register-all".

(** ** Python values *)

(** Truth value of an [Optional[str]]: [None] and the empty string are
    falsy. *)
Definition truthy (o : option string) : bool :=
  match o with
  | Some s => negb (bool_decide (s = ""))
  | None => false
  end.

(** [x if x else None] on a proto string field. *)
Definition non_empty (s : string) : option string :=
  if bool_decide (s = "") then None else Some s.

(** [str] of an [Optional[int]]. *)
Definition str (o : option Z) : string :=
  match o with
  | Some z => NilZero.string_of_int (Z.to_int z)
  | None => "None"
  end.

(** [int] of a string: an optional minus sign followed by decimal digits;
    [None] stands for [ValueError].  Python also accepts a plus sign,
    surrounding blanks and underscores between digits; [str] produces none
    of them and they are rejected here. *)
Definition int (s : string) : option Z :=
  Z.of_int <$> NilZero.int_of_string s.

(** [os.path.join(a, b)] of [posixpath]. *)
Definition starts_with_sep (s : string) : bool :=
  match s with
  | String c _ => bool_decide (c = "/"%char)
  | EmptyString => false
  end.

Fixpoint ends_with_sep (s : string) : bool :=
  match s with
  | EmptyString => false
  | String c EmptyString => bool_decide (c = "/"%char)
  | String _ s' => ends_with_sep s'
  end.

Definition os_path_join (a b : string) : string :=
  if starts_with_sep b then b
  else if bool_decide (a = "") || ends_with_sep a then a +:+ b
  else a +:+ "/" +:+ b.

(** ** Exceptions *)

Inductive ExceptionClass :=
| InvalidInputException
| NoModelException
| NoDirectoryException
| NoProjectAliasException
| ValidationError
| TypeError
| ValueError
| AttributeError.

Global Instance ExceptionClass_eq_dec : EqDecision ExceptionClass.
Proof. solve_decision. Defined.

Record Exception := Raise { exc_class : ExceptionClass; exc_message : string }.

Inductive Outcome (A : Type) :=
| Returned (a : A)
| Raised (e : Exception).
Arguments Returned {A} a.
Arguments Raised {A} e.

(** ** Store gateway requests *)

(** [ServiceTableType]: the tables of the service database the code names. *)
Inductive ServiceTableType :=
| tbl_model
| tbl_model_version
| tbl_directory
| tbl_annotation
| tbl_project_alias.

Global Instance ServiceTableType_eq_dec : EqDecision ServiceTableType.
Proof. solve_decision. Defined.

(** [COMPONENT_TYPES]: only the member [model] is named by the code; the
    other members are kept by name. *)
Inductive COMPONENT_TYPES :=
| ct_model
| ct_other (tag : string).

Global Instance COMPONENT_TYPES_eq_dec : EqDecision COMPONENT_TYPES.
Proof. solve_decision. Defined.

(** [OBJECT_STORE_BUCKET]: only the member [model] is named by the code. *)
Inductive OBJECT_STORE_BUCKET :=
| bucket_model.

(** A keyword argument or a cell of a row. *)
Inductive Value :=
| VNone
| VStr (s : string)
| VList (l : list string)
| VType (t : COMPONENT_TYPES).

Global Instance Value_eq_dec : EqDecision Value.
Proof. solve_decision. Defined.

Definition of_opt (o : option string) : Value :=
  match o with
  | Some s => VStr s
  | None => VNone
  end.

Definition of_opt_list (o : option (list string)) : Value :=
  match o with
  | Some l => VList l
  | None => VNone
  end.

Abbreviation kwargs := (list (string * Value)).

(** The calls that reach a collaborator, in the order they are issued. *)
Inductive Event :=
| QueryRecords (table : ServiceTableType) (fetchone : bool) (filters : kwargs)
| DeleteRecords (table : ServiceTableType) (filters : kwargs)
| ResolveComponentId (identifier project_id : option string)
| DeleteDirectory (bucket : OBJECT_STORE_BUCKET) (object_store_path : string)
| ValidateFilename (name : string).

(** ** Store rows *)

Module ModelRow.
Record t := Build {
  model_id : option string;
  project_id : option string;
  name : option string;
  latest_version_id : option string;
  model_type : option string;
  sub_model_type : option string;
  description : option string;
  directory_id : option string;
  created_at : option Z;
  modified_at : option Z
}.

Definition column (r : t) (c : string) : Value :=
  if bool_decide (c = "model_id") then of_opt (model_id r)
  else if bool_decide (c = "project_id") then of_opt (project_id r)
  else if bool_decide (c = "name") then of_opt (name r)
  else if bool_decide (c = "directory_id") then of_opt (directory_id r)
  else VNone.
End ModelRow.

(** Nested key/value documents ([hyperparameters], [metrics],
    [fold_metrics]); opaque to this layer. *)
Inductive Document :=
| DScalar (s : string)
| DMap (kv : list (string * Document)).

Module ModelVersionRow.
Record t := Build {
  model_id : option string;
  version : option string;
  version_id : option string;
  hyperparameters : option Document;
  metrics : option Document;
  fold_metrics : option Document;
  created_at : option Z;
  modified_at : option Z
}.

(** The filter [model_ids] is matched against the cell [model_id]. *)
Definition column (r : t) (c : string) : Value :=
  if bool_decide (c = "version_id") then of_opt (version_id r)
  else if bool_decide (c = "model_id") then of_opt (model_id r)
  else if bool_decide (c = "model_ids") then of_opt (model_id r)
  else if bool_decide (c = "version") then of_opt (version r)
  else VNone.
End ModelVersionRow.

Module DirectoryRow.
Record t := Build {
  directory_id : option string;
  project_id : option string;
  type : COMPONENT_TYPES
}.

Definition column (r : t) (c : string) : Value :=
  if bool_decide (c = "directory_id") then of_opt (directory_id r)
  else if bool_decide (c = "project_id") then of_opt (project_id r)
  else if bool_decide (c = "type") then VType (type r)
  else VNone.
End DirectoryRow.

Module AnnotationRow.
Record t := Build {
  component_type : COMPONENT_TYPES;
  component_id : option string
}.

Definition column (r : t) (c : string) : Value :=
  if bool_decide (c = "component_type") then VType (component_type r)
  else if bool_decide (c = "component_id") then of_opt (component_id r)
  else VNone.
End AnnotationRow.

Module ProjectAliasRow.
Record t := Build {
  project_id : option string;
  alias : option string;
  component_id : option string
}.

Definition column (r : t) (c : string) : Value :=
  if bool_decide (c = "project_id") then of_opt (project_id r)
  else if bool_decide (c = "alias") then of_opt (alias r)
  else if bool_decide (c = "component_id") then of_opt (component_id r)
  else VNone.
End ProjectAliasRow.

Global Instance ModelRow_eq_dec : EqDecision ModelRow.t.
Proof. solve_decision. Defined.

Global Instance DirectoryRow_eq_dec : EqDecision DirectoryRow.t.
Proof. solve_decision. Defined.

Global Instance AnnotationRow_eq_dec : EqDecision AnnotationRow.t.
Proof. solve_decision. Defined.

Global Instance ProjectAliasRow_eq_dec : EqDecision ProjectAliasRow.t.
Proof. solve_decision. Defined.

(** ** The world: tables, blob objects and the calls issued so far *)

Record World := Build_World {
  models : list ModelRow.t;
  model_versions : list ModelVersionRow.t;
  directories : list DirectoryRow.t;
  annotations : list AnnotationRow.t;
  project_aliases : list ProjectAliasRow.t;
  objects : list (OBJECT_STORE_BUCKET * string);
  calls : list Event
}.

Definition log (e : Event) (w : World) : World :=
  Build_World (models w) (model_versions w) (directories w) (annotations w)
    (project_aliases w) (objects w) (calls w ++ [e]).

(** ** The monad of operations *)

Definition M (A : Type) : Type := World → Outcome A * World.

Global Instance M_ret : MRet M := λ A a w, (Returned a, w).

Global Instance M_bind : MBind M := λ A B f m w,
  match m w with
  | (Returned a, w') => f a w'
  | (Raised e, w') => (Raised e, w')
  end.

Definition raise {A} (c : ExceptionClass) (msg : string) : M A :=
  λ w, (Raised (Raise c msg), w).

Definition get_world : M World :=
  λ w, (Returned w, w).

Definition modify (f : World → World) : M unit :=
  λ w, (Returned tt, f w).

Definition emit (e : Event) : M unit :=
  modify (log e).

(** [try: body except cls as e: handler e]. *)
Definition try_except {A} (body : M A) (cls : ExceptionClass)
    (handler : Exception → M A) : M A :=
  λ w,
    match body w with
    | (Raised e, w') =>
        if bool_decide (exc_class e = cls) then handler e w' else (Raised e, w')
    | r => r
    end.

(** [for x in l: body x]. *)
Fixpoint for_each {A} (body : A → M unit) (l : list A) : M unit :=
  match l with
  | [] => mret tt
  | x :: l' => body x;; for_each body l'
  end.

Definition when (b : bool) (body : M unit) : M unit :=
  if b then body else mret tt.

(** ** Collaborators

    Functions of other packages that the code calls and whose text is not
    part of this repository's sources. *)
Class Collaborators := {
  (** [alias_utils.is_alias]. *)
  is_alias : option string → bool;
  (** [pathvalidate.validate_filename]: [Some e] when it raises
      [ValidationError], [e] being [str] of the error. *)
  validate_filename : string → option string;
  (** Group 1 of the [re.search] that [validate] runs on the text of a
      [ValidationError] (the bracketed error code); [None] when the pattern
      does not match. *)
  error_code : string → option string;
  (** [format_utils.format_model_type_to_external_model_type] and its
      converse. *)
  format_model_type_to_external_model_type : string → string;
  format_external_model_type_to_model_type : string → string;
  (** Text of the not-found errors the gateway and the alias resolver raise. *)
  not_found_message : ServiceTableType → kwargs → string;
  (** Whether a [fetchone=False] query on the directory table that matches
      no row fails with [NoDirectoryException] ([Model.validate] catches this
      exception around such a query). *)
  directory_query_raises : bool
}.

(** ** Store gateway

    The database client is not part of the sources; its three operations are
    modelled from the gateway contract of the spec. *)

(** Modelled from the spec: how the database client matches a row against
    keyword filters.  A filter whose value is [None] does not constrain (the
    collections pass [directory_id=None] and [model_ids=None] for "no
    filter"); a list-valued filter holds when the cell is one of its
    members. *)
Definition cell_matches (cell filter : Value) : bool :=
  match filter with
  | VNone => true
  | VList l =>
      match cell with
      | VStr s => bool_decide (s ∈ l)
      | _ => false
      end
  | _ => bool_decide (cell = filter)
  end.

Definition row_matches {R} (column : R → string → Value) (filters : kwargs)
    (r : R) : bool :=
  forallb (λ kv, cell_matches (column r kv.1) kv.2) filters.

(** How a table sits in the world. *)
Record TableOps (R : Type) := {
  table_name : ServiceTableType;
  table_rows : World → list R;
  table_set : list R → World → World;
  table_column : R → string → Value;
  (** class of the table's not-found error *)
  table_not_found : ExceptionClass;
  (** whether [fetchone=False] fails not-found on an empty result *)
  table_strict : bool
}.
Arguments table_name {R}.
Arguments table_rows {R}.
Arguments table_set {R}.
Arguments table_column {R}.
Arguments table_not_found {R}.
Arguments table_strict {R}.

Module DatabaseClient.
Section Gateway.
Context `{Collaborators} {R : Type} (T : TableOps R).

(** Modelled from the spec: [DatabaseClient.query(database, table,
    fetchone=True, **filters)], the first row that agrees with every filter;
    fails with the table's not-found error when no row matches. *)
Definition query_one (filters : kwargs) : M R :=
  emit (QueryRecords (table_name T) true filters);;
  w ← get_world;
  match filter (λ r, row_matches (table_column T) filters r = true)
          (table_rows T w) with
  | r :: _ => mret r
  | [] => raise (table_not_found T) (not_found_message (table_name T) filters)
  end.

(** Modelled from the spec: [DatabaseClient.query(database, table,
    fetchone=False, **filters)], the rows that agree with every filter, in
    store order; on a table marked [table_strict] an empty result fails with
    the table's not-found error instead. *)
Definition query_many (filters : kwargs) : M (list R) :=
  emit (QueryRecords (table_name T) false filters);;
  w ← get_world;
  match filter (λ r, row_matches (table_column T) filters r = true)
          (table_rows T w) with
  | [] =>
      if table_strict T
      then raise (table_not_found T) (not_found_message (table_name T) filters)
      else mret []
  | rows => mret rows
  end.

(** Modelled from the spec: [DatabaseClient.delete(database, table,
    **filters)], which removes the rows that agree with every filter. *)
Definition delete (filters : kwargs) : M unit :=
  emit (DeleteRecords (table_name T) filters);;
  modify (λ w,
    table_set T
      (filter (λ r, row_matches (table_column T) filters r ≠ true)
         (table_rows T w)) w).

End Gateway.
End DatabaseClient.

Definition model_table : TableOps ModelRow.t := {|
  table_name := tbl_model;
  table_rows := models;
  table_set := λ l w,
    Build_World l (model_versions w) (directories w) (annotations w)
      (project_aliases w) (objects w) (calls w);
  table_column := ModelRow.column;
  table_not_found := NoModelException;
  table_strict := false
|}.

Definition model_version_table : TableOps ModelVersionRow.t := {|
  table_name := tbl_model_version;
  table_rows := model_versions;
  table_set := λ l w,
    Build_World (models w) l (directories w) (annotations w)
      (project_aliases w) (objects w) (calls w);
  table_column := ModelVersionRow.column;
  table_not_found := NoModelException;
  table_strict := false
|}.

Definition directory_table `{Collaborators} : TableOps DirectoryRow.t := {|
  table_name := tbl_directory;
  table_rows := directories;
  table_set := λ l w,
    Build_World (models w) (model_versions w) l (annotations w)
      (project_aliases w) (objects w) (calls w);
  table_column := DirectoryRow.column;
  table_not_found := NoDirectoryException;
  table_strict := directory_query_raises
|}.

Definition annotation_table : TableOps AnnotationRow.t := {|
  table_name := tbl_annotation;
  table_rows := annotations;
  table_set := λ l w,
    Build_World (models w) (model_versions w) (directories w) l
      (project_aliases w) (objects w) (calls w);
  table_column := AnnotationRow.column;
  table_not_found := NoModelException;
  table_strict := false
|}.

Definition project_alias_table : TableOps ProjectAliasRow.t := {|
  table_name := tbl_project_alias;
  table_rows := project_aliases;
  table_set := λ l w,
    Build_World (models w) (model_versions w) (directories w) (annotations w)
      l (objects w) (calls w);
  table_column := ProjectAliasRow.column;
  table_not_found := NoProjectAliasException;
  table_strict := false
|}.

(** ** Alias helpers and object store

    [alias_utils] and [ObjectStore] are not part of the sources. *)

(** Modelled from the spec: [alias_utils.to_project_component_id], the
    component id the alias maps to within the project; fails not-found when
    the project has no such alias. *)
Definition to_project_component_id `{Collaborators}
    (identifier project_id : option string) : M (option string) :=
  emit (ResolveComponentId identifier project_id);;
  w ← get_world;
  match filter (λ r, ProjectAliasRow.alias r = identifier
                     ∧ ProjectAliasRow.project_id r = project_id)
          (project_aliases w) with
  | r :: _ => mret (ProjectAliasRow.component_id r)
  | [] =>
      raise NoProjectAliasException
        (not_found_message tbl_project_alias
           [("alias", of_opt identifier); ("project_id", of_opt project_id)])
  end.

(** Modelled from the spec: [alias_utils.delete_alias_for_component], a
    gateway delete on the project-alias table keyed by [component_id] (the
    request that [test_delete_0] expects). *)
Definition delete_alias_for_component `{Collaborators}
    (component_id : option string) : M unit :=
  DatabaseClient.delete project_alias_table
    [("component_id", of_opt component_id)].

(** Whether [path] is [prefix] itself or lies under it. *)
Definition under_directory (prefix path : string) : bool :=
  bool_decide (path = prefix)
  || String.prefix (if ends_with_sep prefix then prefix else prefix +:+ "/") path.

Module ObjectStore.
(** Modelled from the spec: [ObjectStore.delete_directory], which removes
    the whole namespace under the path; nothing happens when it is
    missing. *)
Definition delete_directory (bucket : OBJECT_STORE_BUCKET)
    (object_store_path : string) : M unit :=
  emit (DeleteDirectory bucket object_store_path);;
  modify (λ w,
    Build_World (models w) (model_versions w) (directories w) (annotations w)
      (project_aliases w)
      (filter (λ o, under_directory object_store_path o.2 ≠ true) (objects w))
      (calls w)).
End ObjectStore.

(** ** Shared pieces of the entity code *)

(** Text of an [Optional[str]] inside an f-string or passed where a string
    is expected. *)
Definition text (o : option string) : string :=
  match o with
  | Some s => s
  | None => "None"
  end.

(** [{key(r): r for r in rows}]: a later row replaces an earlier one with
    the same key. *)
Definition dict_by {K V} `{Countable K} (key : V → K) (rows : list V)
    : gmap K V :=
  foldl (λ d r, <[key r := r]> d) ∅ rows.

(** [d.values()]. *)
Definition values {K V} `{Countable K} (d : gmap K V) : list V :=
  (map_to_list d).*2.

(** [validate_filename(name)] as a call: it is recorded, and raises
    [ValidationError] when the validator rejects the name. *)
Definition run_validate_filename `{Collaborators} (name : string) : M unit :=
  emit (ValidateFilename name);;
  match validate_filename name with
  | Some e => raise ValidationError e
  | None => mret tt
  end.

(** The handler of [except ValidationError as e] in both [validate]s:
    [re.search(...).group(1)] of [str(e)], wrapped into an invalid-input
    error; [None.group] is an [AttributeError]. *)
Definition invalid_name `{Collaborators} (prefix : string) (e : Exception)
    : M unit :=
  match error_code (exc_message e) with
  | Some error_message => raise InvalidInputException (prefix +:+ error_message)
  | None =>
      raise AttributeError "'NoneType' object has no attribute 'group'"
  end.

(** [os.path.join] on two [Optional[str]]: [None] is a [TypeError]. *)
Definition path_join (a b : option string) : M string :=
  match a, b with
  | Some a, Some b => mret (os_path_join a b)
  | _, _ =>
      raise TypeError "expected str, bytes or os.PathLike object, not NoneType"
  end.

(** ** model_version.py *)

Module ModelVersion.

Record t := Build {
  model_id : option string;
  version : option string;
  version_id : option string;
  hyperparameters : option Document;
  metrics : option Document;
  fold_metrics : option Document;
  created_at : option Z;
  modified_at : option Z
}.

Section Operations.
Context `{Collaborators}.

Definition _query_one (filters : kwargs) : M ModelVersionRow.t :=
  DatabaseClient.query_one model_version_table filters.

Definition _query_many (filters : kwargs) : M (list ModelVersionRow.t) :=
  DatabaseClient.query_many model_version_table filters.

Definition _delete (version_id model_id : option string) : M unit :=
  DatabaseClient.delete model_version_table
    [("version_id", of_opt version_id); ("model_id", of_opt model_id)].

Definition from_namedtuple (obj_namedtuple : ModelVersionRow.t) : t := {|
  model_id := ModelVersionRow.model_id obj_namedtuple;
  version := ModelVersionRow.version obj_namedtuple;
  version_id := ModelVersionRow.version_id obj_namedtuple;
  hyperparameters := ModelVersionRow.hyperparameters obj_namedtuple;
  metrics := ModelVersionRow.metrics obj_namedtuple;
  fold_metrics := ModelVersionRow.fold_metrics obj_namedtuple;
  created_at := ModelVersionRow.created_at obj_namedtuple;
  modified_at := ModelVersionRow.modified_at obj_namedtuple
|}.

(** First block of [validate]: existing component ([version_id] present). *)
Definition validate_existing (self : t) : M unit :=
  when (truthy (version_id self)) (
    row ← _query_one [("version_id", of_opt (version_id self))];
    let model_id' := ModelVersionRow.model_id row in
    when (truthy (model_id self) && bool_decide (model_id self ≠ model_id'))
      (raise InvalidInputException
         "The model version does not belong to the specified model");;
    when (is_alias (version_id self))
      (raise InvalidInputException "Resolve the alias before usage")).

(** Second block of [validate]: uniqueness and syntax of [version]. *)
Definition validate_version (self : t) : M unit :=
  when (truthy (version self)) (
    rows ← _query_many [("model_id", of_opt (model_id self))];
    let model_versions := dict_by ModelVersionRow.version_id rows in
    let existing_versions : gset (option string) :=
      list_to_set
        (ModelVersionRow.version <$>
           filter (λ mv, ModelVersionRow.version_id mv ≠ version_id self
                         ∧ truthy (ModelVersionRow.version mv))
             (values model_versions)) in
    when (bool_decide (version self ∈ existing_versions))
      (raise InvalidInputException
         ("A model version " +:+ text (version self) +:+ " already exists"));;
    try_except
      (when
         match model_versions !! version_id self with
         | None => true
         | Some mv => bool_decide (version self ≠ ModelVersionRow.version mv)
         end
         (run_validate_filename (text (version self))))
      ValidationError
      (invalid_name "Invalid Version: ")).

Definition validate (self : t) : M unit :=
  validate_existing self;;
  validate_version self.

Definition resolve_alias (version_id project_id : option string)
    : M (option string) :=
  if negb (is_alias version_id) then mret version_id
  else if negb (truthy project_id) then
    raise InvalidInputException "Project must be provided with an alias"
  else to_project_component_id version_id project_id.

Definition pull (version_id model_id project_id : option string) : M t :=
  when (negb (truthy version_id))
    (raise NoModelException "Version ID must be provided");;
  version_id ← resolve_alias version_id project_id;
  row ← _query_one
    [("version_id", of_opt version_id); ("model_id", of_opt model_id)];
  mret (from_namedtuple row).

Definition delete (self : t) : M unit :=
  when (is_alias (version_id self))
    (raise InvalidInputException "Resolve the alias before usage");;
  model_version ← pull (version_id self) (model_id self) None;
  _delete (version_id model_version) (model_id model_version);;
  delete_alias_for_component (version_id model_version).

End Operations.
End ModelVersion.

(** ** model_versions.py *)

Module ModelVersions.

Record t := Build { versions : list ModelVersion.t }.

Section Operations.
Context `{Collaborators}.

Definition falsy_list (o : option (list string)) : bool :=
  match o with
  | Some (_ :: _) => false
  | _ => true
  end.

Definition _query (model_id : option string)
    (model_ids : option (list string)) : M (list ModelVersionRow.t) :=
  DatabaseClient.query_many model_version_table
    [("model_id", of_opt model_id); ("model_ids", of_opt_list model_ids)].

Definition pull (model_id : option string) (model_ids : option (list string))
    : M t :=
  when (negb (truthy model_id) && falsy_list model_ids)
    (raise InvalidInputException "Atleast one Model ID must be provided");;
  versions ← _query model_id model_ids;
  mret (Build (ModelVersion.from_namedtuple <$> versions)).

Definition count (model_id : option string)
    (model_ids : option (list string)) : M nat :=
  when (negb (truthy model_id) && falsy_list model_ids)
    (raise InvalidInputException "Atleast one Model ID must be provided");;
  versions ← _query model_id model_ids;
  mret (length versions).

Definition delete (model_id : option string) : M unit :=
  versions ← pull model_id None;
  for_each ModelVersion.delete (ModelVersions.versions versions).

End Operations.
End ModelVersions.

(** ** Wire messages

    The generated proto classes are not part of the sources. *)

(** Modelled from the spec: a scalar field of a message is a string that is
    empty when unset; a constructor argument that is [None] leaves the field
    unset. *)
Definition proto_field (o : option string) : string :=
  match o with
  | Some s => s
  | None => ""
  end.

(** Modelled from the spec: [pypr_pb2.PyprDirectory]. *)
Record PyprDirectory := {
  pd_directory_id : string;
  pd_type : COMPONENT_TYPES
}.

(** Modelled from the spec: [pypr_pb2.PyprModel], with the fields that
    [to_proto] sets and [from_proto] reads. *)
Record PyprModel := {
  pm_model_id : string;
  pm_name : string;
  pm_project_id : string;
  pm_latest_version_id : string;
  pm_model_type : string;
  pm_sub_model_type : string;
  pm_description : string;
  pm_directory : PyprDirectory;
  pm_created_at : string;
  pm_modified_at : string
}.

(** ** model.py *)

Module Model.

Record t := Build {
  model_id : option string;
  project_id : option string;
  name : option string;
  latest_version_id : option string;
  model_type : option string;
  sub_model_type : option string;
  description : option string;
  directory_id : option string;
  created_at : option Z;
  modified_at : option Z
}.

Section Operations.
Context `{Collaborators}.

Definition _query_one (filters : kwargs) : M ModelRow.t :=
  DatabaseClient.query_one model_table filters.

Definition _query_many (filters : kwargs) : M (list ModelRow.t) :=
  DatabaseClient.query_many model_table filters.

Definition _delete (model_id : option string) : M unit :=
  DatabaseClient.delete model_table [("model_id", of_opt model_id)].

Definition from_namedtuple (obj_namedtuple : ModelRow.t) : t := {|
  model_id := ModelRow.model_id obj_namedtuple;
  project_id := ModelRow.project_id obj_namedtuple;
  name := ModelRow.name obj_namedtuple;
  latest_version_id := ModelRow.latest_version_id obj_namedtuple;
  model_type := ModelRow.model_type obj_namedtuple;
  sub_model_type := ModelRow.sub_model_type obj_namedtuple;
  directory_id := ModelRow.directory_id obj_namedtuple;
  description := ModelRow.description obj_namedtuple;
  created_at := ModelRow.created_at obj_namedtuple;
  modified_at := ModelRow.modified_at obj_namedtuple
|}.

(** First block of [validate]: existing component ([model_id] present). *)
Definition validate_existing (self : t) : M unit :=
  when (truthy (model_id self)) (
    row ← _query_one [("model_id", of_opt (model_id self))];
    let project_id' := ModelRow.project_id row in
    when (truthy (project_id self))
      (when (bool_decide (project_id self ≠ project_id'))
         (raise InvalidInputException
            "The model does not belong to the specified project"));;
    when (is_alias (model_id self))
      (raise InvalidInputException "Resolve the alias before usage")).

(** Second block of [validate]: uniqueness and syntax of [name]. *)
Definition validate_name (self : t) : M unit :=
  when (truthy (name self)) (
    rows ← _query_many [("project_id", of_opt (project_id self))];
    let models := dict_by ModelRow.model_id rows in
    let existing_model_names : gset (option string) :=
      list_to_set
        (ModelRow.name <$>
           filter (λ model, ModelRow.model_id model ≠ model_id self
                            ∧ truthy (ModelRow.name model))
             (values models)) in
    when (bool_decide (name self ∈ existing_model_names))
      (raise InvalidInputException
         ("A model with name " +:+ text (name self) +:+ " already exists"));;
    try_except
      (when
         match models !! model_id self with
         | None => true
         | Some model => bool_decide (name self ≠ ModelRow.name model)
         end
         (run_validate_filename (text (name self))))
      ValidationError
      (invalid_name "Invalid name: ")).

(** Third block of [validate]: the directory. *)
Definition validate_directory (self : t) : M unit :=
  when (truthy (directory_id self))
    (try_except
       (DatabaseClient.query_many directory_table
          [("directory_id", of_opt (directory_id self));
           ("project_id", of_opt (project_id self));
           ("type", VType ct_model)];;
        mret tt)
       NoDirectoryException
       (λ _, raise InvalidInputException
               "Model cannot be in different directory type")).

Definition validate (self : t) : M unit :=
  validate_existing self;;
  validate_name self;;
  validate_directory self.

Definition resolve_alias (model_id project_id : option string)
    : M (option string) :=
  if negb (is_alias model_id) then mret model_id
  else if negb (truthy project_id) then
    raise InvalidInputException "Project must be provided with an alias"
  else to_project_component_id model_id project_id.

Definition resolve_directory_alias (directory_id project_id : option string)
    : M (option string) :=
  if negb (is_alias directory_id) then mret directory_id
  else if negb (truthy project_id) then
    raise InvalidInputException "Project must be provided with an alias"
  else to_project_component_id directory_id project_id.

Definition pull (model_id project_id : option string) : M t :=
  when (negb (truthy model_id))
    (raise NoModelException "Model ID must be provided");;
  model_id ← resolve_alias model_id project_id;
  row ← _query_one [("model_id", of_opt model_id)];
  mret (from_namedtuple row).

Definition delete (self : t) : M unit :=
  when (is_alias (model_id self))
    (raise InvalidInputException "Resolve the alias before usage");;
  model ← pull (model_id self) None;
  ModelVersions.delete (model_id self);;
  _delete (model_id model);;
  object_store_model_path ← path_join (project_id model) (model_id model);
  ObjectStore.delete_directory bucket_model object_store_model_path;;
  DatabaseClient.delete annotation_table
    [("component_type", VType ct_model);
     ("component_id", of_opt (model_id model))];;
  delete_alias_for_component (model_id model).

(** [int(x) if x else None] on a timestamp field of the message. *)
Definition timestamp (s : string) : M (option Z) :=
  if bool_decide (s = "") then mret None
  else
    match int s with
    | Some z => mret (Some z)
    | None =>
        raise ValueError ("invalid literal for int() with base 10: " +:+ s)
    end.

Definition from_proto (obj_proto : PyprModel) : M t :=
  let model_id := non_empty (pm_model_id obj_proto) in
  let name := non_empty (pm_name obj_proto) in
  let project_id := non_empty (pm_project_id obj_proto) in
  let directory_id := Some (pd_directory_id (pm_directory obj_proto)) in
  model_id ←
    (if truthy model_id then resolve_alias model_id project_id
     else mret model_id);
  directory_id ←
    (if truthy directory_id
     then resolve_directory_alias directory_id project_id
     else mret directory_id);
  let latest_version_id := Some (pm_latest_version_id obj_proto) in
  let model_type :=
    if bool_decide (pm_model_type obj_proto = "") then None
    else Some (format_external_model_type_to_model_type
                 (pm_model_type obj_proto)) in
  let sub_model_type := non_empty (pm_sub_model_type obj_proto) in
  let description := Some (pm_description obj_proto) in
  created_at ← timestamp (pm_created_at obj_proto);
  modified_at ← timestamp (pm_modified_at obj_proto);
  let model := {|
    model_id := model_id;
    name := name;
    project_id := project_id;
    latest_version_id := latest_version_id;
    directory_id := directory_id;
    model_type := model_type;
    sub_model_type := sub_model_type;
    description := description;
    created_at := created_at;
    modified_at := modified_at
  |} in
  validate model;;
  mret model.

Definition to_proto (self : t) : PyprModel :=
  let model_type :=
    if truthy (model_type self)
    then Some (format_model_type_to_external_model_type
                 (text (model_type self)))
    else None in
  let directory := {|
    pd_directory_id := proto_field (directory_id self);
    pd_type := ct_model
  |} in
  {|
    pm_model_id := proto_field (model_id self);
    pm_name := proto_field (name self);
    pm_project_id := proto_field (project_id self);
    pm_latest_version_id := proto_field (latest_version_id self);
    pm_model_type := proto_field model_type;
    pm_sub_model_type := proto_field (sub_model_type self);
    pm_description := proto_field (description self);
    pm_directory := directory;
    pm_created_at := str (created_at self);
    pm_modified_at := str (modified_at self)
  |}.

End Operations.
End Model.

(** ** models.py *)

Module Models.

Record t := Build { models : list Model.t }.

Section Operations.
Context `{Collaborators}.

Definition resolve_directory_alias (directory_id project_id : option string)
    : M (option string) :=
  if negb (is_alias directory_id) then mret directory_id
  else if negb (truthy project_id) then
    raise InvalidInputException "Project must be provided with an alias"
  else to_project_component_id directory_id project_id.

Definition _query (project_id directory_id : option string)
    : M (list ModelRow.t) :=
  DatabaseClient.query_many model_table
    [("project_id", of_opt project_id); ("directory_id", of_opt directory_id)].

(** [directory_id if directory_id else None], then the alias is resolved
    when there is a directory id. *)
Definition scope_directory (directory_id project_id : option string)
    : M (option string) :=
  let directory_id := if truthy directory_id then directory_id else None in
  if truthy directory_id
  then resolve_directory_alias directory_id project_id
  else mret directory_id.

Definition pull (project_id directory_id : option string) : M t :=
  when (negb (truthy project_id))
    (raise InvalidInputException "Project ID must be provided");;
  directory_id ← scope_directory directory_id project_id;
  rows ← _query project_id directory_id;
  mret (Build (Model.from_namedtuple <$> rows)).

Definition count (project_id directory_id : option string) : M nat :=
  when (negb (truthy project_id))
    (raise InvalidInputException "Project ID must be provided");;
  directory_id ← scope_directory directory_id project_id;
  rows ← _query project_id directory_id;
  mret (length rows).

Definition delete (project_id directory_id : option string) : M unit :=
  models ← pull project_id directory_id;
  for_each Model.delete (Models.models models).

(** The loop of [from_proto]: each message is read in turn and the model
    appended to [models]. *)
Fixpoint from_proto_loop (obj_protos : list PyprModel)
    (models : list Model.t) : M (list Model.t) :=
  match obj_protos with
  | [] => mret models
  | obj_proto :: obj_protos =>
      model ← Model.from_proto obj_proto;
      from_proto_loop obj_protos (models ++ [model])
  end.

Definition from_proto (obj_protos : list PyprModel) : M t :=
  models ← from_proto_loop obj_protos [];
  mret (Build models).

End Operations.
End Models.

(** ** Observations used by the statements *)

(** The calls an operation adds to the world's record. *)
Definition issued {A} (m : M A) (w : World) : list Event :=
  drop (length (calls w)) (calls (m w).2).

(** The record the store holds for a model id / version id (the first one,
    as [fetchone=True] returns it). *)
Definition model_record (w : World) (model_id : option string)
    : option ModelRow.t :=
  head (filter (λ r, ModelRow.model_id r = model_id) (models w)).

Definition version_record (w : World) (version_id : option string)
    : option ModelVersionRow.t :=
  head (filter (λ r, ModelVersionRow.version_id r = version_id)
          (model_versions w)).

(** A row whose parent is [parent] is returned under the scope filter
    [scope]: an absent filter does not constrain. *)
Definition in_scope (scope parent : option string) : Prop :=
  scope = None ∨ parent = scope.

Global Instance in_scope_dec scope parent : Decision (in_scope scope parent).
Proof. unfold in_scope. apply _. Defined.

(** The models a [project_id] filter returns, other than the identity
    [model_id]; likewise the versions under a [model_id] filter. *)
Definition sibling_models (w : World) (project_id model_id : option string)
    : list ModelRow.t :=
  filter (λ r, in_scope project_id (ModelRow.project_id r)
               ∧ ModelRow.model_id r ≠ model_id) (models w).

Definition sibling_versions (w : World) (model_id version_id : option string)
    : list ModelVersionRow.t :=
  filter (λ r, in_scope model_id (ModelVersionRow.model_id r)
               ∧ ModelVersionRow.version_id r ≠ version_id)
    (model_versions w).

(** The versions a model owns, in store order. *)
Definition versions_of (w : World) (model_id : option string)
    : list ModelVersionRow.t :=
  filter (λ r, ModelVersionRow.model_id r = model_id) (model_versions w).

(** Identities are store-assigned keys: present, non-empty and unique. *)
Definition model_keys_ok (w : World) : Prop :=
  NoDup (ModelRow.model_id <$> models w)
  ∧ Forall (λ r, truthy (ModelRow.model_id r) = true) (models w).

Definition version_keys_ok (w : World) : Prop :=
  NoDup (ModelVersionRow.version_id <$> model_versions w)
  ∧ Forall (λ r, truthy (ModelVersionRow.version_id r) = true)
      (model_versions w).

(** The component id the alias table maps an alias to within a project
    (the first matching row). *)
Definition alias_mapping (w : World) (identifier project_id : option string)
    : option (option string) :=
  ProjectAliasRow.component_id <$>
    head (filter (λ r, ProjectAliasRow.alias r = identifier
                       ∧ ProjectAliasRow.project_id r = project_id)
            (project_aliases w)).

(** What the [try] around [validate_filename] does once it is reached. *)
Definition syntax_check `{Collaborators} (prefix name : string) (w : World)
    : Outcome unit * World :=
  let w' := log (ValidateFilename name) w in
  match validate_filename name with
  | None => (Returned tt, w')
  | Some e =>
      match error_code e with
      | Some code =>
          (Raised (Raise InvalidInputException (prefix +:+ code)), w')
      | None =>
          (Raised (Raise AttributeError
                     "'NoneType' object has no attribute 'group'"), w')
      end
  end.

(** The calls that fetch the siblings of a model: [fetchone=False] on the
    model table. *)
Definition is_sibling_query (e : Event) : bool :=
  match e with
  | QueryRecords tbl_model false _ => true
  | _ => false
  end.

(** [ModelVersion.delete] once the record [r] has been fetched. *)
Definition version_deleted (r : ModelVersionRow.t) (w : World) : World :=
  let version_id := ModelVersionRow.version_id r in
  let model_id := ModelVersionRow.model_id r in
  Build_World (models w)
    (filter (λ x, ¬ (in_scope version_id (ModelVersionRow.version_id x)
                     ∧ in_scope model_id (ModelVersionRow.model_id x)))
       (model_versions w))
    (directories w) (annotations w)
    (filter (λ a, ¬ in_scope version_id (ProjectAliasRow.component_id a))
       (project_aliases w))
    (objects w)
    (calls w).

(** The calls [ModelVersion.delete] issues for the record [v]. *)
Definition version_cascade (v : ModelVersionRow.t) : list Event :=
  let keys :=
    [("version_id", of_opt (ModelVersionRow.version_id v));
     ("model_id", of_opt (ModelVersionRow.model_id v))] in
  [QueryRecords tbl_model_version true keys;
   DeleteRecords tbl_model_version keys;
   DeleteRecords tbl_project_alias
     [("component_id", of_opt (ModelVersionRow.version_id v))]].

(** The calls [Model.delete] issues for the model's own record, after its
    versions. *)
Definition model_cleanup (model_id project_id : string) : list Event :=
  [DeleteRecords tbl_model [("model_id", VStr model_id)];
   DeleteDirectory bucket_model (os_path_join project_id model_id);
   DeleteRecords tbl_annotation
     [("component_type", VType ct_model); ("component_id", VStr model_id)];
   DeleteRecords tbl_project_alias [("component_id", VStr model_id)]].

(** The world after that cleanup. *)
Definition model_deleted (model_id project_id : string) (w : World) : World :=
  Build_World
    (filter (λ r, ModelRow.model_id r ≠ Some model_id) (models w))
    (model_versions w)
    (directories w)
    (filter (λ a, ¬ (AnnotationRow.component_type a = ct_model
                     ∧ AnnotationRow.component_id a = Some model_id))
       (annotations w))
    (filter (λ a, ProjectAliasRow.component_id a ≠ Some model_id)
       (project_aliases w))
    (filter (λ o, under_directory (os_path_join project_id model_id) o.2
                  ≠ true) (objects w))
    (calls w ++ model_cleanup model_id project_id).

(** What a round trip through the wire makes of an optional string: a
    field read back with [x if x else None] loses the empty string, a field
    read back as it is loses [None]. *)
Definition none_if_empty (o : option string) : option string :=
  if truthy o then o else None.

Definition empty_if_none (o : option string) : option string :=
  Some (proto_field o).

(** The model type after [to_proto] then [from_proto]. *)
Definition wire_model_type `{Collaborators} (o : option string)
    : option string :=
  if truthy o then
    let external := format_model_type_to_external_model_type (text o) in
    if bool_decide (external = "") then None
    else Some (format_external_model_type_to_model_type external)
  else None.

(** The model that [from_proto] builds from the wire form of [model],
    before it validates it. *)
Definition read_back `{Collaborators} (model : Model.t)
    (created_at modified_at : Z) : Model.t := {|
  Model.model_id := none_if_empty (Model.model_id model);
  Model.name := none_if_empty (Model.name model);
  Model.project_id := none_if_empty (Model.project_id model);
  Model.latest_version_id := empty_if_none (Model.latest_version_id model);
  Model.directory_id := empty_if_none (Model.directory_id model);
  Model.model_type := wire_model_type (Model.model_type model);
  Model.sub_model_type := none_if_empty (Model.sub_model_type model);
  Model.description := empty_if_none (Model.description model);
  Model.created_at := Some created_at;
  Model.modified_at := Some modified_at
|}.

(** ** A concrete deployment, for the worked instances

    Aliases start with an at sign; the file-name validator rejects names
    that contain a slash; model types are prefixed on the wire. *)

Definition ex_is_alias (o : option string) : bool :=
  match o with
  | Some (String "@"%char _) => true
  | _ => false
  end.

Fixpoint has_slash (s : string) : bool :=
  match s with
  | EmptyString => false
  | String c s' => bool_decide (c = "/"%char) || has_slash s'
  end.

Definition ex_validate_filename (s : string) : option string :=
  if has_slash s then Some "[PV1100] invalid characters found" else None.

Definition ex_collaborators : Collaborators := {|
  is_alias := ex_is_alias;
  validate_filename := ex_validate_filename;
  error_code := λ s, Some (substring 0 8 s);
  format_model_type_to_external_model_type := λ s, "ext_" +:+ s;
  format_external_model_type_to_model_type :=
    λ s, substring 4 (String.length s - 4) s;
  not_found_message := λ _ _, "not found";
  directory_query_raises := true
|}.

Definition ex_model (model_id project_id name : string)
    (directory_id : option string) : ModelRow.t :=
  ModelRow.Build (Some model_id) (Some project_id) (Some name) None
    (Some "forecast") None None directory_id (Some 1672549140%Z)
    (Some 1672549140%Z).

Definition ex_version (version_id model_id version : string)
    : ModelVersionRow.t :=
  ModelVersionRow.Build (Some model_id) (Some version) (Some version_id)
    None None None (Some 1672549140%Z) (Some 1672549140%Z).

Definition ex_world : World := {|
  models :=
    [ex_model "m1" "p1" "a" (Some "d1"); ex_model "@legacy" "p1" "z" None;
     ex_model "m2" "p1" "b" None; ex_model "m3" "p2" "c" None];
  model_versions :=
    [ex_version "v1" "m1" "1"; ex_version "v2" "m2" "1";
     ex_version "v3" "m1" "2"; ex_version "@rc" "m2" "2";
     ex_version "v4" "m2" "3"];
  directories :=
    [DirectoryRow.Build (Some "d1") (Some "p1") ct_model;
     DirectoryRow.Build (Some "d2") (Some "p1") (ct_other "dataset")];
  annotations :=
    [AnnotationRow.Build ct_model (Some "m1");
     AnnotationRow.Build (ct_other "model_version") (Some "v1")];
  project_aliases :=
    [ProjectAliasRow.Build (Some "p1") (Some "@best") (Some "m1");
     ProjectAliasRow.Build (Some "p1") (Some "@first") (Some "v1")];
  objects := [(bucket_model, "p1/m1/v1/weights"); (bucket_model, "p1/m2/x")];
  calls := []
|}.

Definition ex_entity (model_id : string)
    (project_id name directory_id : option string) : Model.t :=
  Model.Build (Some model_id) project_id name None None None None directory_id
    None None.

(** ** Further observations *)

(** Two worlds hold the same tables and blob objects (their records of calls
    may differ). *)
Definition same_store (w w' : World) : Prop :=
  models w' = models w
  ∧ model_versions w' = model_versions w
  ∧ directories w' = directories w
  ∧ annotations w' = annotations w
  ∧ project_aliases w' = project_aliases w
  ∧ objects w' = objects w.

(** An operation that, whatever its outcome, leaves the store as it found
    it and only adds to the record of calls. *)
Definition read_only {A} (m : M A) : Prop :=
  ∀ w, same_store w (m w).2 ∧ ∃ issued, calls (m w).2 = calls w ++ issued.

(** A row whose parent is [model_id] passes the list filter [model_ids]:
    an absent list does not constrain, a list holds its members. *)
Definition among (model_ids : option (list string))
    (model_id : option string) : Prop :=
  match model_ids, model_id with
  | None, _ => True
  | Some l, Some s => s ∈ l
  | Some _, None => False
  end.

Global Instance among_dec model_ids model_id :
  Decision (among model_ids model_id).
Proof. destruct model_ids, model_id; cbn; apply _. Defined.


(** A store whose one model has no project. *)
Definition ex_orphan_world : World := {|
  models :=
    [ModelRow.Build (Some "m9") None (Some "a") None None None None None None
       None];
  model_versions := [ex_version "v9" "m9" "1"];
  directories := [];
  annotations := [AnnotationRow.Build ct_model (Some "m9")];
  project_aliases :=
    [ProjectAliasRow.Build (Some "p1") (Some "@x") (Some "m9");
     ProjectAliasRow.Build (Some "p1") (Some "@y") (Some "v9")];
  objects := [(bucket_model, "p1/m9/weights")];
  calls := []
|}.
(** * Proofs *)

(** ** Running computations *)

Section Running.
Context {A B : Type}.

Lemma bind_returned (m : M A) (f : A → M B) w a w' :
  m w = (Returned a, w') → (m ≫= f) w = f a w'.
Proof. intros E. unfold mbind, M_bind. by rewrite E. Qed.

Lemma bind_raised (m : M A) (f : A → M B) w e w' :
  m w = (Raised e, w') → (m ≫= f) w = (Raised e, w').
Proof. intros E. unfold mbind, M_bind. by rewrite E. Qed.

Lemma bind_run (m : M A) (f : A → M B) w :
  (m ≫= f) w =
  match m w with
  | (Returned a, w') => f a w'
  | (Raised e, w') => (Raised e, w')
  end.
Proof. reflexivity. Qed.

End Running.

Lemma calls_log e w : calls (log e w) = calls w ++ [e].
Proof. reflexivity. Qed.

Lemma emit_run e w : emit e w = (Returned tt, log e w).
Proof. reflexivity. Qed.

Lemma issued_spec {A} (m : M A) w l :
  calls (m w).2 = calls w ++ l → issued m w = l.
Proof. intros E. unfold issued. rewrite E. apply drop_app_length. Qed.

(** ** The gateway on optional-string filters *)

Lemma cell_matches_of_opt cell filter :
  cell_matches (of_opt cell) (of_opt filter) = true ↔ in_scope filter cell.
Proof.
  unfold in_scope. destruct filter as [f|]; simpl.
  - rewrite bool_decide_eq_true. destruct cell as [c|]; simpl; split.
    + intros [= ->]. by right.
    + intros [|[= ->]]; done.
    + done.
    + intros [|]; done.
  - split; [by left | done].
Qed.

Lemma cell_matches_key cell key :
  truthy key = true →
  cell_matches (of_opt cell) (of_opt key) = true ↔ cell = key.
Proof.
  intros Hk. rewrite cell_matches_of_opt. unfold in_scope.
  destruct key; [| done]. split; [by intros [|] | by right].
Qed.

(** ** The gateway on the entity tables *)

Lemma row_matches_cons {R} (column : R → string → Value) k v fs r :
  row_matches column ((k, v) :: fs) r
  = cell_matches (column r k) v && row_matches column fs r.
Proof. reflexivity. Qed.

Section Gateway_facts.
Context `{Collaborators} {R : Type} (T : TableOps R).
Hypothesis rows_log : ∀ e w, table_rows T (log e w) = table_rows T w.

Lemma query_one_run filters w :
  DatabaseClient.query_one T filters w =
  let q := QueryRecords (table_name T) true filters in
  match filter (λ r, row_matches (table_column T) filters r = true)
          (table_rows T w) with
  | r :: _ => (Returned r, log q w)
  | [] =>
      (Raised (Raise (table_not_found T)
                 (not_found_message (table_name T) filters)), log q w)
  end.
Proof.
  unfold DatabaseClient.query_one.
  rewrite bind_run, emit_run, bind_run. unfold get_world.
  rewrite rows_log. by destruct (filter _ _).
Qed.

Lemma query_many_run filters w :
  DatabaseClient.query_many T filters w =
  let q := QueryRecords (table_name T) false filters in
  match filter (λ r, row_matches (table_column T) filters r = true)
          (table_rows T w) with
  | [] =>
      if table_strict T
      then (Raised (Raise (table_not_found T)
                      (not_found_message (table_name T) filters)), log q w)
      else (Returned [], log q w)
  | rows => (Returned rows, log q w)
  end.
Proof.
  unfold DatabaseClient.query_many.
  rewrite bind_run, emit_run, bind_run. unfold get_world.
  rewrite rows_log. destruct (filter _ _); [by destruct (table_strict T) | done].
Qed.

Lemma delete_run filters w :
  DatabaseClient.delete T filters w =
  let q := DeleteRecords (table_name T) filters in
  (Returned tt,
   table_set T
     (filter (λ r, row_matches (table_column T) filters r ≠ true)
        (table_rows T w)) (log q w)).
Proof.
  unfold DatabaseClient.delete.
  rewrite bind_run, emit_run. unfold modify. by rewrite rows_log.
Qed.

End Gateway_facts.

(** Filters of the shapes the entity code passes. *)

Lemma model_by_id_matches id r :
  truthy id = true →
  row_matches ModelRow.column [("model_id", of_opt id)] r = true
  ↔ ModelRow.model_id r = id.
Proof.
  intros Hid. rewrite row_matches_cons, andb_true_r.
  change (ModelRow.column r "model_id") with (of_opt (ModelRow.model_id r)).
  by apply cell_matches_key.
Qed.

Lemma model_by_project_matches project_id r :
  row_matches ModelRow.column [("project_id", of_opt project_id)] r = true
  ↔ in_scope project_id (ModelRow.project_id r).
Proof.
  rewrite row_matches_cons, andb_true_r.
  change (ModelRow.column r "project_id")
    with (of_opt (ModelRow.project_id r)).
  apply cell_matches_of_opt.
Qed.

Lemma version_by_id_matches id r :
  truthy id = true →
  row_matches ModelVersionRow.column [("version_id", of_opt id)] r = true
  ↔ ModelVersionRow.version_id r = id.
Proof.
  intros Hid. rewrite row_matches_cons, andb_true_r.
  change (ModelVersionRow.column r "version_id")
    with (of_opt (ModelVersionRow.version_id r)).
  by apply cell_matches_key.
Qed.

Lemma version_by_model_matches model_id r :
  row_matches ModelVersionRow.column [("model_id", of_opt model_id)] r = true
  ↔ in_scope model_id (ModelVersionRow.model_id r).
Proof.
  rewrite row_matches_cons, andb_true_r.
  change (ModelVersionRow.column r "model_id")
    with (of_opt (ModelVersionRow.model_id r)).
  apply cell_matches_of_opt.
Qed.

Lemma version_by_keys_matches version_id model_id r :
  row_matches ModelVersionRow.column
    [("version_id", of_opt version_id); ("model_id", of_opt model_id)] r = true
  ↔ in_scope version_id (ModelVersionRow.version_id r)
    ∧ in_scope model_id (ModelVersionRow.model_id r).
Proof.
  rewrite row_matches_cons, andb_true_iff.
  change (ModelVersionRow.column r "version_id")
    with (of_opt (ModelVersionRow.version_id r)).
  by rewrite cell_matches_of_opt, version_by_model_matches.
Qed.

Lemma version_by_models_matches model_id r :
  row_matches ModelVersionRow.column
    [("model_id", of_opt model_id); ("model_ids", of_opt_list None)] r = true
  ↔ in_scope model_id (ModelVersionRow.model_id r).
Proof.
  rewrite row_matches_cons, andb_true_iff.
  change (ModelVersionRow.column r "model_id")
    with (of_opt (ModelVersionRow.model_id r)).
  rewrite cell_matches_of_opt. split; [by intros [] | done].
Qed.

Section Entity_queries.
Context `{Collaborators}.

Lemma model_query_one_run id w :
  truthy id = true →
  Model._query_one [("model_id", of_opt id)] w =
  let q := QueryRecords tbl_model true [("model_id", of_opt id)] in
  match model_record w id with
  | Some r => (Returned r, log q w)
  | None =>
      (Raised (Raise NoModelException
                 (not_found_message tbl_model [("model_id", of_opt id)])),
       log q w)
  end.
Proof.
  intros Hid. unfold Model._query_one, model_record.
  rewrite query_one_run by done. cbn [table_rows table_column model_table].
  rewrite (list_filter_iff _ (λ r, ModelRow.model_id r = id));
    [| intros r; by apply model_by_id_matches].
  by destruct (filter _ (models w)).
Qed.

Lemma version_query_one_run id w :
  truthy id = true →
  ModelVersion._query_one [("version_id", of_opt id)] w =
  let q := QueryRecords tbl_model_version true [("version_id", of_opt id)] in
  match version_record w id with
  | Some r => (Returned r, log q w)
  | None =>
      (Raised (Raise NoModelException
                 (not_found_message tbl_model_version
                    [("version_id", of_opt id)])),
       log q w)
  end.
Proof.
  intros Hid. unfold ModelVersion._query_one, version_record.
  rewrite query_one_run by done.
  cbn [table_rows table_column model_version_table].
  rewrite (list_filter_iff _ (λ r, ModelVersionRow.version_id r = id));
    [| intros r; by apply version_by_id_matches].
  by destruct (filter _ (model_versions w)).
Qed.

End Entity_queries.

(** ** Alias resolution and the identity guards of [pull] *)


Section Alias.
Context `{Collaborators}.

Lemma to_project_component_id_run id project w :
  to_project_component_id id project w =
  let q := ResolveComponentId id project in
  match alias_mapping w id project with
  | Some target => (Returned target, log q w)
  | None =>
      (Raised (Raise NoProjectAliasException
                 (not_found_message tbl_project_alias
                    [("alias", of_opt id); ("project_id", of_opt project)])),
       log q w)
  end.
Proof.
  unfold to_project_component_id, alias_mapping.
  rewrite bind_run, emit_run, bind_run. unfold get_world.
  change (project_aliases (log _ w)) with (project_aliases w).
  by destruct (filter _ (project_aliases w)).
Qed.

(** C3. [resolve_alias] of [Model] and of [ModelVersion]: an id that is not
    an alias comes back unchanged and the world is untouched (no call to any
    collaborator); an alias without a project fails with
    InvalidInputException "Project must be provided with an alias", again
    without any call; an alias with a project yields the id the project's
    alias table maps it to, after the one resolver call, and fails with the
    resolver's NoProjectAliasException when the project has no such alias. *)
Theorem resolve_alias_cases (id project : option string) (w : World) :
  let both (P : (option string → option string → M (option string)) → Prop) :=
    P Model.resolve_alias ∧ P ModelVersion.resolve_alias in
  (is_alias id = false →
     both (λ resolve_alias, resolve_alias id project w = (Returned id, w)))
  ∧ (is_alias id = true → truthy project = false →
     both (λ resolve_alias,
       resolve_alias id project w =
       (Raised (Raise InvalidInputException
                  "Project must be provided with an alias"), w)))
  ∧ (is_alias id = true → truthy project = true →
     ∀ target, alias_mapping w id project = Some target →
     both (λ resolve_alias,
       resolve_alias id project w =
       (Returned target, log (ResolveComponentId id project) w)))
  ∧ (is_alias id = true → truthy project = true →
     alias_mapping w id project = None →
     both (λ resolve_alias,
       ∃ message,
         resolve_alias id project w =
         (Raised (Raise NoProjectAliasException message),
          log (ResolveComponentId id project) w))).
Proof.
  cbv zeta beta. unfold Model.resolve_alias, ModelVersion.resolve_alias.
  split; [| split; [| split]].
  - by intros ->.
  - by intros -> ->.
  - intros -> -> target Ht. cbn [negb].
    by rewrite to_project_component_id_run, Ht.
  - intros -> -> Hn. cbn [negb].
    rewrite to_project_component_id_run, Hn. split; eauto.
Qed.

(** C9. [pull] with the identifying argument missing fails at once, the
    world untouched (no store call and no alias-resolver call): [Model.pull]
    and [ModelVersion.pull] with NoModelException "... ID must be provided",
    [Models.pull] without a project and [ModelVersions.pull] with neither
    [model_id] nor [model_ids] with InvalidInputException. *)
Theorem pull_requires_id (w : World) :
  (∀ model_id project_id, truthy model_id = false →
     Model.pull model_id project_id w =
     (Raised (Raise NoModelException "Model ID must be provided"), w))
  ∧ (∀ version_id model_id project_id, truthy version_id = false →
     ModelVersion.pull version_id model_id project_id w =
     (Raised (Raise NoModelException "Version ID must be provided"), w))
  ∧ (∀ project_id directory_id, truthy project_id = false →
     Models.pull project_id directory_id w =
     (Raised (Raise InvalidInputException "Project ID must be provided"), w))
  ∧ (∀ model_id model_ids, truthy model_id = false →
     model_ids = None ∨ model_ids = Some [] →
     ModelVersions.pull model_id model_ids w =
     (Raised (Raise InvalidInputException
                "Atleast one Model ID must be provided"), w)).
Proof.
  split; [| split; [| split]].
  - intros model_id project_id Hid. unfold Model.pull. by rewrite Hid.
  - intros version_id model_id project_id Hid. unfold ModelVersion.pull.
    by rewrite Hid.
  - intros project_id directory_id Hp. unfold Models.pull. by rewrite Hp.
  - intros model_id model_ids Hid Hids. unfold ModelVersions.pull.
    rewrite Hid. by destruct Hids as [-> | ->].
Qed.

End Alias.

Section Alias_instances.
#[local] Existing Instance ex_collaborators.

Lemma resolve_alias_cases_witness :
  Model.resolve_alias (Some "m1") None ex_world = (Returned (Some "m1"), ex_world)
  ∧ Model.resolve_alias (Some "@best") None ex_world
    = (Raised (Raise InvalidInputException
                 "Project must be provided with an alias"), ex_world)
  ∧ ModelVersion.resolve_alias (Some "@first") (Some "p1") ex_world
    = (Returned (Some "v1"),
       log (ResolveComponentId (Some "@first") (Some "p1")) ex_world)
  ∧ ∃ message,
      ModelVersion.resolve_alias (Some "@none") (Some "p1") ex_world
      = (Raised (Raise NoProjectAliasException message),
         log (ResolveComponentId (Some "@none") (Some "p1")) ex_world).
Proof.
  split; [| split; [| split]].
  - apply (resolve_alias_cases (Some "m1") None ex_world).
    reflexivity.
  - apply (resolve_alias_cases (Some "@best") None
             ex_world); reflexivity.
  - apply (resolve_alias_cases (Some "@first")
             (Some "p1") ex_world); reflexivity.
  - apply (resolve_alias_cases (Some "@none")
             (Some "p1") ex_world); reflexivity.
Defined.

Lemma pull_requires_id_witness :
  Model.pull (Some "") (Some "p1") ex_world
  = (Raised (Raise NoModelException "Model ID must be provided"), ex_world)
  ∧ ModelVersions.pull None (Some []) ex_world
    = (Raised (Raise InvalidInputException
                 "Atleast one Model ID must be provided"), ex_world).
Proof.
  split.
  - apply (pull_requires_id ex_world). reflexivity.
  - apply (pull_requires_id ex_world).
    + reflexivity.
    + by right.
Defined.

End Alias_instances.

(** ** [validate]: the identity block *)

Section Validate_existing.
Context `{Collaborators}.

Lemma model_validate_existing_run self w :
  Model.validate_existing self w =
  if truthy (Model.model_id self) then
    let filters := [("model_id", of_opt (Model.model_id self))] in
    let w' := log (QueryRecords tbl_model true filters) w in
    match model_record w (Model.model_id self) with
    | None =>
        (Raised (Raise NoModelException (not_found_message tbl_model filters)),
         w')
    | Some r =>
        if truthy (Model.project_id self)
           && bool_decide (Model.project_id self ≠ ModelRow.project_id r)
        then (Raised (Raise InvalidInputException
                        "The model does not belong to the specified project"),
              w')
        else if is_alias (Model.model_id self)
        then (Raised (Raise InvalidInputException
                        "Resolve the alias before usage"), w')
        else (Returned tt, w')
    end
  else (Returned tt, w).
Proof.
  unfold Model.validate_existing, when.
  destruct (truthy (Model.model_id self)) eqn:Hid; [| done].
  rewrite bind_run, model_query_one_run by done. cbn zeta.
  destruct (model_record w (Model.model_id self)) as [r|]; [| done].
  rewrite bind_run.
  destruct (truthy (Model.project_id self)); cbn [andb].
  - destruct (bool_decide _); [done |].
    by destruct (is_alias (Model.model_id self)).
  - by destruct (is_alias (Model.model_id self)).
Qed.

Lemma version_validate_existing_run self w :
  ModelVersion.validate_existing self w =
  if truthy (ModelVersion.version_id self) then
    let filters := [("version_id", of_opt (ModelVersion.version_id self))] in
    let w' := log (QueryRecords tbl_model_version true filters) w in
    match version_record w (ModelVersion.version_id self) with
    | None =>
        (Raised (Raise NoModelException
                   (not_found_message tbl_model_version filters)), w')
    | Some r =>
        if truthy (ModelVersion.model_id self)
           && bool_decide
                (ModelVersion.model_id self ≠ ModelVersionRow.model_id r)
        then (Raised (Raise InvalidInputException
                "The model version does not belong to the specified model"),
              w')
        else if is_alias (ModelVersion.version_id self)
        then (Raised (Raise InvalidInputException
                        "Resolve the alias before usage"), w')
        else (Returned tt, w')
    end
  else (Returned tt, w).
Proof.
  unfold ModelVersion.validate_existing, when.
  destruct (truthy (ModelVersion.version_id self)) eqn:Hid; [| done].
  rewrite bind_run, version_query_one_run by done. cbn zeta.
  destruct (version_record w (ModelVersion.version_id self)) as [r|]; [| done].
  rewrite bind_run.
  destruct (truthy (ModelVersion.model_id self) && bool_decide _); [done |].
  by destruct (is_alias (ModelVersion.version_id self)).
Qed.

Lemma model_validate_stops self w e w' :
  Model.validate_existing self w = (Raised e, w') →
  Model.validate self w = (Raised e, w').
Proof. intros E. unfold Model.validate. by rewrite (bind_raised _ _ _ _ _ E). Qed.

Lemma version_validate_stops self w e w' :
  ModelVersion.validate_existing self w = (Raised e, w') →
  ModelVersion.validate self w = (Raised e, w').
Proof.
  intros E. unfold ModelVersion.validate. by rewrite (bind_raised _ _ _ _ _ E).
Qed.

(** C7. [validate] of an entity whose identity field is set first fetches
    the record with that id (one [fetchone] query) and fails with the
    gateway's NoModelException when there is none; with a record, a set
    parent reference that differs from the record's parent fails with
    InvalidInputException "... does not belong to the specified ..."; and
    once the parent reference is consistent (unset or equal), an identity
    that is still an alias fails with InvalidInputException "Resolve the
    alias before usage".  Stated for [Model] (identity [model_id], parent
    [project_id]) and for [ModelVersion] (identity [version_id], parent
    [model_id]). *)
Theorem validate_identity_checks (w : World) :
  (∀ self : Model.t,
     truthy (Model.model_id self) = true →
     let fetch :=
       QueryRecords tbl_model true
         [("model_id", of_opt (Model.model_id self))] in
     (model_record w (Model.model_id self) = None →
        ∃ message,
          Model.validate self w
          = (Raised (Raise NoModelException message), log fetch w))
     ∧ (∀ record, model_record w (Model.model_id self) = Some record →
        (truthy (Model.project_id self) = true →
         Model.project_id self ≠ ModelRow.project_id record →
           Model.validate self w
           = (Raised (Raise InvalidInputException
                "The model does not belong to the specified project"),
              log fetch w))
        ∧ (truthy (Model.project_id self) = false
           ∨ Model.project_id self = ModelRow.project_id record →
           is_alias (Model.model_id self) = true →
           Model.validate self w
           = (Raised (Raise InvalidInputException
                "Resolve the alias before usage"), log fetch w))))
  ∧ (∀ self : ModelVersion.t,
     truthy (ModelVersion.version_id self) = true →
     let fetch :=
       QueryRecords tbl_model_version true
         [("version_id", of_opt (ModelVersion.version_id self))] in
     (version_record w (ModelVersion.version_id self) = None →
        ∃ message,
          ModelVersion.validate self w
          = (Raised (Raise NoModelException message), log fetch w))
     ∧ (∀ record,
        version_record w (ModelVersion.version_id self) = Some record →
        (truthy (ModelVersion.model_id self) = true →
         ModelVersion.model_id self ≠ ModelVersionRow.model_id record →
           ModelVersion.validate self w
           = (Raised (Raise InvalidInputException
                "The model version does not belong to the specified model"),
              log fetch w))
        ∧ (truthy (ModelVersion.model_id self) = false
           ∨ ModelVersion.model_id self = ModelVersionRow.model_id record →
           is_alias (ModelVersion.version_id self) = true →
           ModelVersion.validate self w
           = (Raised (Raise InvalidInputException
                "Resolve the alias before usage"), log fetch w)))).
Proof.
  split; intros self Hid; cbn zeta.
  - split; [| intros record Hrec; split].
    + intros Hrec. eexists. apply model_validate_stops.
      by rewrite model_validate_existing_run, Hid, Hrec.
    + intros Hp Hne. apply model_validate_stops.
      rewrite model_validate_existing_run, Hid, Hrec, Hp. cbn zeta.
      by rewrite bool_decide_eq_true_2.
    + intros Hp Ha. apply model_validate_stops.
      rewrite model_validate_existing_run, Hid, Hrec, Ha. cbn zeta.
      destruct Hp as [-> | Hp]; [done |].
      by rewrite bool_decide_eq_false_2, andb_false_r by (by intros []).
  - split; [| intros record Hrec; split].
    + intros Hrec. eexists. apply version_validate_stops.
      by rewrite version_validate_existing_run, Hid, Hrec.
    + intros Hp Hne. apply version_validate_stops.
      rewrite version_validate_existing_run, Hid, Hrec, Hp. cbn zeta.
      by rewrite bool_decide_eq_true_2.
    + intros Hp Ha. apply version_validate_stops.
      rewrite version_validate_existing_run, Hid, Hrec, Ha. cbn zeta.
      destruct Hp as [-> | Hp]; [done |].
      by rewrite bool_decide_eq_false_2, andb_false_r by (by intros []).
Qed.

End Validate_existing.

(** ** Dictionaries built from rows *)

Section Dict.
Context {K V : Type} `{Countable K} (key : V → K).

Lemma dict_by_snoc rows r :
  dict_by key (rows ++ [r]) = <[key r := r]> (dict_by key rows).
Proof. unfold dict_by. by rewrite foldl_app. Qed.

Lemma dict_by_lookup_Some rows k r :
  dict_by key rows !! k = Some r → r ∈ rows ∧ key r = k.
Proof.
  revert k r. induction rows as [| r0 rows IH] using rev_ind; intros k r.
  - unfold dict_by. cbn. by rewrite lookup_empty.
  - rewrite dict_by_snoc, lookup_insert. case_decide as Hk.
    + intros [= ->]. split; [set_solver | done].
    + intros Hr. apply IH in Hr as [? ?]. split; [set_solver | done].
Qed.

Lemma dict_by_lookup_None rows k :
  dict_by key rows !! k = None ↔ k ∉ key <$> rows.
Proof.
  induction rows as [| r0 rows IH] using rev_ind.
  - unfold dict_by. cbn. rewrite lookup_empty. set_solver.
  - rewrite dict_by_snoc, lookup_insert, fmap_app. case_decide as Hk.
    + split; [done |]. intros Hn. exfalso. apply Hn. subst k. set_solver.
    + rewrite IH. set_solver.
Qed.

Lemma dict_by_lookup_unique rows r :
  NoDup (key <$> rows) → r ∈ rows → dict_by key rows !! key r = Some r.
Proof.
  induction rows as [| r0 rows IH] using rev_ind; [set_solver |].
  rewrite fmap_app, dict_by_snoc, lookup_insert. intros Hnd Hin.
  apply NoDup_app in Hnd as (Hnd & Hfresh & _).
  case_decide as Hk.
  - apply elem_of_app in Hin as [Hin | Hin]; [| set_solver].
    exfalso. apply (Hfresh (key r)); [| set_solver].
    apply list_elem_of_fmap. eauto.
  - apply elem_of_app in Hin as [Hin | Hin]; [by apply IH |].
    apply list_elem_of_singleton in Hin. by subst.
Qed.

Lemma values_dict_by rows r :
  NoDup (key <$> rows) → r ∈ values (dict_by key rows) ↔ r ∈ rows.
Proof.
  intros Hnd. unfold values. rewrite list_elem_of_fmap. split.
  - intros ([k v] & -> & Hkv). apply elem_of_map_to_list in Hkv.
    by apply dict_by_lookup_Some in Hkv as [? _].
  - intros Hin. exists (key r, r). split; [done |].
    apply elem_of_map_to_list. by apply dict_by_lookup_unique.
Qed.

End Dict.

(** ** Rows keyed by a store-assigned id *)

Section Keyed.
Context {R : Type} (key : R → option string).

Lemma keys_filter_NoDup (P : R → Prop) `{∀ x, Decision (P x)} l :
  NoDup (key <$> l) → NoDup (key <$> filter P l).
Proof.
  intros Hnd. eapply sublist_NoDup; [done |].
  apply fmap_sublist, sublist_filter.
Qed.

Lemma record_elem_of l id r :
  head (filter (λ r, key r = id) l) = Some r → r ∈ l ∧ key r = id.
Proof.
  intros Hr%head_Some_elem_of. apply list_elem_of_filter in Hr. tauto.
Qed.

Lemma record_unique l id r :
  NoDup (key <$> l) → r ∈ l → key r = id →
  head (filter (λ r, key r = id) l) = Some r.
Proof.
  induction l as [| x l IH]; [set_solver |].
  rewrite fmap_cons, NoDup_cons, elem_of_cons. intros [Hx Hnd] Hin Hk.
  destruct (decide (key x = id)) as [Hkx | Hkx].
  - rewrite filter_cons_True by done. cbn. f_equal.
    destruct Hin as [-> | Hin]; [done |].
    exfalso. apply Hx. rewrite Hkx, <- Hk. apply list_elem_of_fmap. eauto.
  - rewrite filter_cons_False by done.
    destruct Hin as [-> | Hin]; [done |]. by apply IH.
Qed.

Lemma record_None l id :
  head (filter (λ r, key r = id) l) = None ↔ id ∉ key <$> l.
Proof.
  rewrite list_elem_of_fmap. split.
  - intros Hn (r & -> & Hin).
    assert (r ∈ filter (λ r', key r' = key r) l) as Hf
      by by apply list_elem_of_filter.
    destruct (filter _ l); [set_solver | done].
  - intros Hn. destruct (filter _ l) as [| r l'] eqn:Hf; [done |].
    exfalso. apply Hn. exists r.
    assert (r ∈ filter (λ r', key r' = id) l) as Hr by (rewrite Hf; set_solver).
    apply list_elem_of_filter in Hr. naive_solver.
Qed.

(** The dictionary of the rows in scope holds the record of an identity
    exactly when that record is in scope. *)
Lemma dict_by_scope_lookup (P : R → Prop) `{∀ x, Decision (P x)} l id :
  NoDup (key <$> l) →
  dict_by key (filter P l) !! id =
  match head (filter (λ r, key r = id) l) with
  | Some r => if decide (P r) then Some r else None
  | None => None
  end.
Proof.
  intros Hnd. destruct (head _) as [r|] eqn:Hr.
  - apply record_elem_of in Hr as [Hin <-]. case_decide as HP.
    + apply dict_by_lookup_unique; [by apply keys_filter_NoDup |].
      by apply list_elem_of_filter.
    + apply dict_by_lookup_None. rewrite list_elem_of_fmap.
      intros (r' & Hk & Hin'). apply list_elem_of_filter in Hin' as [HP' Hin'].
      assert (Some r' = Some r) as [= ->]; [| done].
      rewrite <- (record_unique l (key r) r' Hnd Hin' (eq_sym Hk)).
      by apply record_unique.
  - apply dict_by_lookup_None. apply record_None in Hr.
    rewrite list_elem_of_fmap in *. intros (r' & Hk & Hin').
    apply list_elem_of_filter in Hin' as [_ Hin']. naive_solver.
Qed.

(** Names held by the other identities of the dictionary. *)
Lemma existing_names_spec (name : R → option string) rows id candidate :
  NoDup (key <$> rows) → truthy candidate = true →
  candidate ∈
    (list_to_set
       (name <$> filter (λ r, key r ≠ id ∧ truthy (name r))
                   (values (dict_by key rows))) : gset (option string))
  ↔ candidate ∈ name <$> filter (λ r, key r ≠ id) rows.
Proof.
  intros Hnd Hc. rewrite elem_of_list_to_set, !list_elem_of_fmap.
  split; intros (r & -> & Hr); exists r; split; try done;
    apply list_elem_of_filter; apply list_elem_of_filter in Hr.
  - destruct Hr as [[Hk _] Hin]. by apply values_dict_by in Hin.
  - destruct Hr as [Hk Hin]. rewrite Hc. by rewrite values_dict_by.
Qed.

End Keyed.

(** ** [validate]: the name block and the directory block *)

Section Validate_name.
Context `{Collaborators}.

Lemma query_many_lenient {R} (T : TableOps R) filters w :
  (∀ e w, table_rows T (log e w) = table_rows T w) →
  table_strict T = false →
  DatabaseClient.query_many T filters w =
  (Returned (filter (λ r, row_matches (table_column T) filters r = true)
               (table_rows T w)),
   log (QueryRecords (table_name T) false filters) w).
Proof.
  intros Hlog Hs. rewrite query_many_run by done. cbn zeta. rewrite Hs.
  by destruct (filter _ _).
Qed.

Lemma syntax_check_run prefix name w :
  try_except (run_validate_filename name) ValidationError
    (invalid_name prefix) w
  = syntax_check prefix name w.
Proof.
  unfold try_except, run_validate_filename, syntax_check, invalid_name.
  rewrite bind_run, emit_run.
  destruct (validate_filename name) as [e|]; [| done]. cbn.
  by destruct (error_code e).
Qed.

Lemma syntax_check_calls prefix name w :
  calls (syntax_check prefix name w).2 = calls w ++ [ValidateFilename name].
Proof.
  unfold syntax_check. destruct (validate_filename name) as [e|]; [| done].
  by destruct (error_code e).
Qed.

Lemma model_validate_name_run self w :
  truthy (Model.name self) = true →
  Model.validate_name self w =
  let rows :=
    filter (λ r, in_scope (Model.project_id self) (ModelRow.project_id r))
      (models w) in
  let w' :=
    log (QueryRecords tbl_model false
           [("project_id", of_opt (Model.project_id self))]) w in
  if bool_decide
       (Model.name self ∈
          (list_to_set
             (ModelRow.name <$>
                filter (λ r, ModelRow.model_id r ≠ Model.model_id self
                             ∧ truthy (ModelRow.name r))
                  (values (dict_by ModelRow.model_id rows)))
           : gset (option string)))
  then
    (Raised (Raise InvalidInputException
               ("A model with name " +:+ text (Model.name self)
                +:+ " already exists")), w')
  else
    match dict_by ModelRow.model_id rows !! Model.model_id self with
    | Some r =>
        if bool_decide (Model.name self ≠ ModelRow.name r)
        then syntax_check "Invalid name: " (text (Model.name self)) w'
        else (Returned tt, w')
    | None => syntax_check "Invalid name: " (text (Model.name self)) w'
    end.
Proof.
  intros Hn. unfold Model.validate_name, Model._query_many.
  rewrite Hn. cbn [when]. rewrite bind_run, query_many_lenient by done.
  cbn [table_rows table_column model_table].
  rewrite (list_filter_iff _
    (λ r, in_scope (Model.project_id self) (ModelRow.project_id r)));
    [| intros r; apply model_by_project_matches].
  cbn zeta. rewrite bind_run.
  destruct (bool_decide (Model.name self ∈ _)); [done |]. cbn [when].
  unfold mret, M_ret.
  destruct (dict_by _ _ !! _) as [r|].
  - destruct (bool_decide _); [apply syntax_check_run | done].
  - apply syntax_check_run.
Qed.

Lemma version_validate_version_run self w :
  truthy (ModelVersion.version self) = true →
  ModelVersion.validate_version self w =
  let rows :=
    filter (λ r, in_scope (ModelVersion.model_id self)
                   (ModelVersionRow.model_id r)) (model_versions w) in
  let w' :=
    log (QueryRecords tbl_model_version false
           [("model_id", of_opt (ModelVersion.model_id self))]) w in
  if bool_decide
       (ModelVersion.version self ∈
          (list_to_set
             (ModelVersionRow.version <$>
                filter (λ r, ModelVersionRow.version_id r
                               ≠ ModelVersion.version_id self
                             ∧ truthy (ModelVersionRow.version r))
                  (values (dict_by ModelVersionRow.version_id rows)))
           : gset (option string)))
  then
    (Raised (Raise InvalidInputException
               ("A model version " +:+ text (ModelVersion.version self)
                +:+ " already exists")), w')
  else
    match dict_by ModelVersionRow.version_id rows
            !! ModelVersion.version_id self with
    | Some r =>
        if bool_decide (ModelVersion.version self ≠ ModelVersionRow.version r)
        then syntax_check "Invalid Version: "
               (text (ModelVersion.version self)) w'
        else (Returned tt, w')
    | None =>
        syntax_check "Invalid Version: " (text (ModelVersion.version self)) w'
    end.
Proof.
  intros Hn. unfold ModelVersion.validate_version, ModelVersion._query_many.
  rewrite Hn. cbn [when]. rewrite bind_run, query_many_lenient by done.
  cbn [table_rows table_column model_version_table].
  rewrite (list_filter_iff _
    (λ r, in_scope (ModelVersion.model_id self) (ModelVersionRow.model_id r)));
    [| intros r; apply version_by_model_matches].
  cbn zeta. rewrite bind_run.
  destruct (bool_decide (ModelVersion.version self ∈ _)); [done |].
  cbn [when]. unfold mret, M_ret.
  destruct (dict_by _ _ !! _) as [r|].
  - destruct (bool_decide _); [apply syntax_check_run | done].
  - apply syntax_check_run.
Qed.

Lemma directory_matches directory_id project_id r :
  row_matches DirectoryRow.column
    [("directory_id", of_opt directory_id); ("project_id", of_opt project_id);
     ("type", VType ct_model)] r = true
  ↔ in_scope directory_id (DirectoryRow.directory_id r)
    ∧ in_scope project_id (DirectoryRow.project_id r)
    ∧ DirectoryRow.type r = ct_model.
Proof.
  rewrite !row_matches_cons, !andb_true_iff.
  change (DirectoryRow.column r "directory_id")
    with (of_opt (DirectoryRow.directory_id r)).
  change (DirectoryRow.column r "project_id")
    with (of_opt (DirectoryRow.project_id r)).
  change (DirectoryRow.column r "type") with (VType (DirectoryRow.type r)).
  rewrite !cell_matches_of_opt. cbn [cell_matches].
  rewrite bool_decide_eq_true. cbn. split.
  - intros (? & ? & [= ?] & _). done.
  - intros (? & ? & ->). done.
Qed.

Lemma model_validate_directory_run self w :
  Model.validate_directory self w =
  if truthy (Model.directory_id self) then
    let w' :=
      log (QueryRecords tbl_directory false
             [("directory_id", of_opt (Model.directory_id self));
              ("project_id", of_opt (Model.project_id self));
              ("type", VType ct_model)]) w in
    match filter (λ r, in_scope (Model.directory_id self)
                         (DirectoryRow.directory_id r)
                       ∧ in_scope (Model.project_id self)
                           (DirectoryRow.project_id r)
                       ∧ DirectoryRow.type r = ct_model) (directories w) with
    | [] =>
        if directory_query_raises
        then (Raised (Raise InvalidInputException
                        "Model cannot be in different directory type"), w')
        else (Returned tt, w')
    | _ => (Returned tt, w')
    end
  else (Returned tt, w).
Proof.
  unfold Model.validate_directory, when.
  destruct (truthy (Model.directory_id self)); [| done].
  unfold try_except. rewrite bind_run, query_many_run by done.
  cbn [table_rows table_column table_strict table_name table_not_found
       directory_table].
  rewrite (list_filter_iff _ _ _ (directory_matches _ _)).
  cbn zeta. destruct (filter _ (directories w)); [| done].
  by destruct directory_query_raises.
Qed.

End Validate_name.

(** ** [validate]: uniqueness and syntax of the name *)

Section Name_rule.
Context `{Collaborators}.

Lemma model_validate_existing_returned self w w1 :
  Model.validate_existing self w = (Returned tt, w1) →
  w1 = (if truthy (Model.model_id self)
        then log (QueryRecords tbl_model true
                    [("model_id", of_opt (Model.model_id self))]) w
        else w)
  ∧ (truthy (Model.model_id self) = true →
     ∃ r, model_record w (Model.model_id self) = Some r
          ∧ (truthy (Model.project_id self) = true →
             Model.project_id self = ModelRow.project_id r)
          ∧ is_alias (Model.model_id self) = false).
Proof.
  rewrite model_validate_existing_run.
  destruct (truthy (Model.model_id self)); [| by intros [= <-]].
  cbn zeta. destruct (model_record w _) as [r|]; [| done].
  destruct (truthy (Model.project_id self)) eqn:Hp; cbn [andb].
  - case_bool_decide as Hne; [done |].
    destruct (is_alias _); [done |]. intros [= <-]. split; [done |].
    intros _. exists r. repeat split. intros _.
    by destruct (decide (Model.project_id self = ModelRow.project_id r)).
  - destruct (is_alias _); [done |]. intros [= <-]. split; [done |].
    intros _. exists r. by repeat split.
Qed.

Lemma version_validate_existing_returned self w w1 :
  ModelVersion.validate_existing self w = (Returned tt, w1) →
  w1 = (if truthy (ModelVersion.version_id self)
        then log (QueryRecords tbl_model_version true
                    [("version_id", of_opt (ModelVersion.version_id self))]) w
        else w)
  ∧ (truthy (ModelVersion.version_id self) = true →
     ∃ r, version_record w (ModelVersion.version_id self) = Some r
          ∧ (truthy (ModelVersion.model_id self) = true →
             ModelVersion.model_id self = ModelVersionRow.model_id r)
          ∧ is_alias (ModelVersion.version_id self) = false).
Proof.
  rewrite version_validate_existing_run.
  destruct (truthy (ModelVersion.version_id self)); [| by intros [= <-]].
  cbn zeta. destruct (version_record w _) as [r|]; [| done].
  destruct (truthy (ModelVersion.model_id self)) eqn:Hp; cbn [andb].
  - case_bool_decide as Hne; [done |].
    destruct (is_alias _); [done |]. intros [= <-]. split; [done |].
    intros _. exists r. repeat split. intros _.
    by destruct (decide (ModelVersion.model_id self
                         = ModelVersionRow.model_id r)).
  - destruct (is_alias _); [done |]. intros [= <-]. split; [done |].
    intros _. exists r. by repeat split.
Qed.

(** A parent reference that is absent or non-empty puts the identity's own
    record in scope once the identity block has passed. *)
Lemma scope_of_parent (parent recorded : option string) :
  parent ≠ Some "" →
  (truthy parent = true → parent = recorded) →
  in_scope parent recorded.
Proof.
  intros Hne Hp. destruct parent as [s|]; [| by left]. right. symmetry.
  apply Hp. cbn. by rewrite bool_decide_eq_false_2 by congruence.
Qed.

Lemma falsy_key_no_record {R} (key : R → option string) l id :
  Forall (λ r, truthy (key r) = true) l → truthy id = false →
  head (filter (λ r, key r = id) l) = None.
Proof.
  intros Hall Hid. apply record_None. rewrite list_elem_of_fmap.
  intros (r & -> & Hin). rewrite Forall_forall in Hall.
  apply Hall in Hin. congruence.
Qed.

Lemma model_lookup_on_record self w w1 :
  model_keys_ok w → Model.project_id self ≠ Some "" →
  Model.validate_existing self w = (Returned tt, w1) →
  dict_by ModelRow.model_id
    (filter (λ r, in_scope (Model.project_id self) (ModelRow.project_id r))
       (models w)) !! Model.model_id self
  = model_record w (Model.model_id self).
Proof.
  intros [Hnd Hall] Hp [_ Hrec]%model_validate_existing_returned.
  rewrite dict_by_scope_lookup by done. fold (model_record w (Model.model_id self)).
  destruct (truthy (Model.model_id self)) eqn:Hid.
  - destruct Hrec as (r & -> & Hpr & _); [done |].
    rewrite decide_True; [done |]. by apply scope_of_parent.
  - unfold model_record. by rewrite falsy_key_no_record.
Qed.

Lemma version_lookup_on_record self w w1 :
  version_keys_ok w → ModelVersion.model_id self ≠ Some "" →
  ModelVersion.validate_existing self w = (Returned tt, w1) →
  dict_by ModelVersionRow.version_id
    (filter (λ r, in_scope (ModelVersion.model_id self)
                    (ModelVersionRow.model_id r)) (model_versions w))
    !! ModelVersion.version_id self
  = version_record w (ModelVersion.version_id self).
Proof.
  intros [Hnd Hall] Hp [_ Hrec]%version_validate_existing_returned.
  rewrite dict_by_scope_lookup by done.
  fold (version_record w (ModelVersion.version_id self)).
  destruct (truthy (ModelVersion.version_id self)) eqn:Hid.
  - destruct Hrec as (r & -> & Hpr & _); [done |].
    rewrite decide_True; [done |]. by apply scope_of_parent.
  - unfold version_record. by rewrite falsy_key_no_record.
Qed.

Lemma model_collision_iff w project_id model_id candidate :
  NoDup (ModelRow.model_id <$> models w) → truthy candidate = true →
  candidate ∈
    (list_to_set
       (ModelRow.name <$>
          filter (λ r, ModelRow.model_id r ≠ model_id
                       ∧ truthy (ModelRow.name r))
            (values (dict_by ModelRow.model_id
               (filter (λ r, in_scope project_id (ModelRow.project_id r))
                  (models w))))) : gset (option string))
  ↔ candidate ∈ ModelRow.name <$> sibling_models w project_id model_id.
Proof.
  intros Hnd Hc.
  rewrite existing_names_spec by (by try apply keys_filter_NoDup).
  rewrite list_filter_filter. unfold sibling_models.
  by rewrite (list_filter_iff _
    (λ r, in_scope project_id (ModelRow.project_id r)
          ∧ ModelRow.model_id r ≠ model_id)) by (intros r; tauto).
Qed.

Lemma version_collision_iff w model_id version_id candidate :
  NoDup (ModelVersionRow.version_id <$> model_versions w) →
  truthy candidate = true →
  candidate ∈
    (list_to_set
       (ModelVersionRow.version <$>
          filter (λ r, ModelVersionRow.version_id r ≠ version_id
                       ∧ truthy (ModelVersionRow.version r))
            (values (dict_by ModelVersionRow.version_id
               (filter (λ r, in_scope model_id (ModelVersionRow.model_id r))
                  (model_versions w))))) : gset (option string))
  ↔ candidate ∈ ModelVersionRow.version
                  <$> sibling_versions w model_id version_id.
Proof.
  intros Hnd Hc.
  rewrite existing_names_spec by (by try apply keys_filter_NoDup).
  rewrite list_filter_filter. unfold sibling_versions.
  by rewrite (list_filter_iff _
    (λ r, in_scope model_id (ModelVersionRow.model_id r)
          ∧ ModelVersionRow.version_id r ≠ version_id)) by (intros r; tauto).
Qed.

End Name_rule.

Section Name_theorems.
Context `{Collaborators}.

Lemma model_validate_name_cases self w w1 :
  model_keys_ok w → truthy (Model.name self) = true →
  Model.validate_existing self w = (Returned tt, w1) →
  let w' :=
    log (QueryRecords tbl_model false
           [("project_id", of_opt (Model.project_id self))]) w1 in
  let collides :=
    Model.name self
    ∈ ModelRow.name
        <$> sibling_models w (Model.project_id self) (Model.model_id self) in
  (collides →
     Model.validate_name self w1 =
     (Raised (Raise InvalidInputException
                ("A model with name " +:+ text (Model.name self)
                 +:+ " already exists")), w'))
  ∧ (¬ collides →
     ∃ on_record,
       Model.validate_name self w1 =
       match on_record with
       | Some r =>
           if bool_decide (Model.name self ≠ ModelRow.name r)
           then syntax_check "Invalid name: " (text (Model.name self)) w'
           else (Returned tt, w')
       | None => syntax_check "Invalid name: " (text (Model.name self)) w'
       end
       ∧ (Model.project_id self ≠ Some "" →
          on_record = model_record w (Model.model_id self))).
Proof.
  intros Hok Hn Hex. cbn zeta.
  assert (models w1 = models w) as Hm.
  { apply model_validate_existing_returned in Hex as [-> _].
    by destruct (truthy (Model.model_id self)). }
  rewrite model_validate_name_run by done. cbn zeta. rewrite Hm.
  destruct Hok as [Hnd Hall]. split; intros Hc.
  - by rewrite bool_decide_eq_true_2 by (by apply model_collision_iff).
  - rewrite bool_decide_eq_false_2 by (by rewrite model_collision_iff).
    eexists. split; [done |]. intros Hp.
    by eapply model_lookup_on_record.
Qed.

Lemma version_validate_version_cases self w w1 :
  version_keys_ok w → truthy (ModelVersion.version self) = true →
  ModelVersion.validate_existing self w = (Returned tt, w1) →
  let w' :=
    log (QueryRecords tbl_model_version false
           [("model_id", of_opt (ModelVersion.model_id self))]) w1 in
  let collides :=
    ModelVersion.version self
    ∈ ModelVersionRow.version
        <$> sibling_versions w (ModelVersion.model_id self)
              (ModelVersion.version_id self) in
  (collides →
     ModelVersion.validate_version self w1 =
     (Raised (Raise InvalidInputException
                ("A model version " +:+ text (ModelVersion.version self)
                 +:+ " already exists")), w'))
  ∧ (¬ collides →
     ∃ on_record,
       ModelVersion.validate_version self w1 =
       match on_record with
       | Some r =>
           if bool_decide
                (ModelVersion.version self ≠ ModelVersionRow.version r)
           then syntax_check "Invalid Version: "
                  (text (ModelVersion.version self)) w'
           else (Returned tt, w')
       | None =>
           syntax_check "Invalid Version: "
             (text (ModelVersion.version self)) w'
       end
       ∧ (ModelVersion.model_id self ≠ Some "" →
          on_record = version_record w (ModelVersion.version_id self))).
Proof.
  intros Hok Hn Hex. cbn zeta.
  assert (model_versions w1 = model_versions w) as Hm.
  { apply version_validate_existing_returned in Hex as [-> _].
    by destruct (truthy (ModelVersion.version_id self)). }
  rewrite version_validate_version_run by done. cbn zeta. rewrite Hm.
  destruct Hok as [Hnd Hall]. split; intros Hc.
  - by rewrite bool_decide_eq_true_2 by (by apply version_collision_iff).
  - rewrite bool_decide_eq_false_2 by (by rewrite version_collision_iff).
    eexists. split; [done |]. intros Hp.
    by eapply version_lookup_on_record.
Qed.

Lemma model_validate_directory_calls self w :
  calls (Model.validate_directory self w).2 =
  calls w ++
    (if truthy (Model.directory_id self)
     then [QueryRecords tbl_directory false
             [("directory_id", of_opt (Model.directory_id self));
              ("project_id", of_opt (Model.project_id self));
              ("type", VType ct_model)]]
     else []).
Proof.
  rewrite model_validate_directory_run.
  destruct (truthy (Model.directory_id self)); [| by rewrite app_nil_r].
  cbn zeta. destruct (filter _ _); [| done].
  by destruct directory_query_raises.
Qed.

(** The calls of a whole [validate], given those of its name block. *)
Lemma model_validate_issued self w w1 o w2 l2 :
  Model.validate_existing self w = (Returned tt, w1) →
  Model.validate_name self w1 = (o, w2) →
  calls w2 = calls w1 ++ l2 →
  issued (Model.validate self) w =
  (if truthy (Model.model_id self)
   then [QueryRecords tbl_model true
           [("model_id", of_opt (Model.model_id self))]]
   else [])
  ++ l2
  ++ match o with
     | Returned _ =>
         if truthy (Model.directory_id self)
         then [QueryRecords tbl_directory false
                 [("directory_id", of_opt (Model.directory_id self));
                  ("project_id", of_opt (Model.project_id self));
                  ("type", VType ct_model)]]
         else []
     | Raised _ => []
     end.
Proof.
  intros Hex Hname Hcalls. apply issued_spec.
  unfold Model.validate. rewrite (bind_returned _ _ _ _ _ Hex), bind_run, Hname.
  assert (calls w1 = calls w ++
            (if truthy (Model.model_id self)
             then [QueryRecords tbl_model true
                     [("model_id", of_opt (Model.model_id self))]]
             else [])) as Hw1.
  { apply model_validate_existing_returned in Hex as [-> _].
    destruct (truthy _); [done | by rewrite app_nil_r]. }
  destruct o as [[] | e].
  - rewrite model_validate_directory_calls, Hcalls, Hw1.
    by rewrite <- !app_assoc.
  - cbn [snd]. by rewrite Hcalls, Hw1, app_nil_r, <- !app_assoc.
Qed.

Lemma version_validate_issued self w w1 o w2 l2 :
  ModelVersion.validate_existing self w = (Returned tt, w1) →
  ModelVersion.validate_version self w1 = (o, w2) →
  calls w2 = calls w1 ++ l2 →
  issued (ModelVersion.validate self) w =
  (if truthy (ModelVersion.version_id self)
   then [QueryRecords tbl_model_version true
           [("version_id", of_opt (ModelVersion.version_id self))]]
   else [])
  ++ l2.
Proof.
  intros Hex Hname Hcalls. apply issued_spec.
  unfold ModelVersion.validate. rewrite (bind_returned _ _ _ _ _ Hex), Hname.
  apply version_validate_existing_returned in Hex as [-> _].
  cbn [snd]. rewrite Hcalls.
  destruct (truthy _); [by rewrite calls_log, <- app_assoc | done].
Qed.

End Name_theorems.

Section Name_claims.
Context `{Collaborators}.

Lemma syntax_check_calls_log prefix name q w :
  calls (syntax_check prefix name (log q w)).2
  = calls w ++ [q; ValidateFilename name].
Proof. by rewrite syntax_check_calls, calls_log, <- app_assoc. Qed.

Lemma syntax_check_eta prefix name w :
  syntax_check prefix name w
  = ((syntax_check prefix name w).1, (syntax_check prefix name w).2).
Proof. by destruct (syntax_check prefix name w). Qed.

(** C2. Once the identity block of [validate] has passed, a non-empty
    candidate name (resp. version label) that equals the name of a sibling
    record (a record in the scope of the entity's [project_id], resp.
    [model_id], other than the entity's own identity) makes [validate] fail
    with InvalidInputException "... already exists"; and when there is no
    such collision, [validate_filename] is called exactly when the candidate
    differs from the name on record for the identity: always for an
    identity with no record, never for an unchanged name (which has
    nevertheless gone through the collision check above).  Keys of the
    table are unique and non-empty; for the second part the parent
    reference is absent or non-empty. *)
Theorem validate_name_rule (w : World) :
  (∀ (self : Model.t) (w1 : World),
     model_keys_ok w →
     truthy (Model.name self) = true →
     Model.validate_existing self w = (Returned tt, w1) →
     let siblings :=
       sibling_models w (Model.project_id self) (Model.model_id self) in
     (Model.name self ∈ ModelRow.name <$> siblings →
        (Model.validate self w).1 =
        Raised (Raise InvalidInputException
                  ("A model with name " +:+ text (Model.name self)
                   +:+ " already exists")))
     ∧ (Model.name self ∉ ModelRow.name <$> siblings →
        Model.project_id self ≠ Some "" →
        (ValidateFilename (text (Model.name self))
           ∈ issued (Model.validate self) w
         ↔ match model_record w (Model.model_id self) with
           | Some record => Model.name self ≠ ModelRow.name record
           | None => True
           end)))
  ∧ (∀ (self : ModelVersion.t) (w1 : World),
     version_keys_ok w →
     truthy (ModelVersion.version self) = true →
     ModelVersion.validate_existing self w = (Returned tt, w1) →
     let siblings :=
       sibling_versions w (ModelVersion.model_id self)
         (ModelVersion.version_id self) in
     (ModelVersion.version self ∈ ModelVersionRow.version <$> siblings →
        (ModelVersion.validate self w).1 =
        Raised (Raise InvalidInputException
                  ("A model version " +:+ text (ModelVersion.version self)
                   +:+ " already exists")))
     ∧ (ModelVersion.version self ∉ ModelVersionRow.version <$> siblings →
        ModelVersion.model_id self ≠ Some "" →
        (ValidateFilename (text (ModelVersion.version self))
           ∈ issued (ModelVersion.validate self) w
         ↔ match version_record w (ModelVersion.version_id self) with
           | Some record =>
               ModelVersion.version self ≠ ModelVersionRow.version record
           | None => True
           end))).
Proof.
  split; intros self w1 Hok Hn Hex; cbn zeta.
  - destruct (model_validate_name_cases self w w1 Hok Hn Hex) as [Hyes Hno].
    split.
    + intros Hc. unfold Model.validate.
      rewrite (bind_returned _ _ _ _ _ Hex).
      by rewrite (bind_raised _ _ _ _ _ (Hyes Hc)).
    + intros Hc Hp. destruct (Hno Hc) as (on_record & Hrun & Hrec).
      rewrite <- (Hrec Hp). clear Hrec Hyes Hno.
      destruct on_record as [r|]; [case_bool_decide as Hne |].
      * rewrite syntax_check_eta in Hrun.
        rewrite (model_validate_issued _ _ _ _ _ _ Hex Hrun
                   (syntax_check_calls_log _ _ _ _)).
        split; [done | intros _]. set_solver.
      * rewrite (model_validate_issued _ _ _ _ _ _ Hex Hrun (calls_log _ _)).
        split; [| done]. intros Hin'. exfalso.
        destruct (truthy (Model.model_id self)),
          (truthy (Model.directory_id self)); set_solver.
      * rewrite syntax_check_eta in Hrun.
        rewrite (model_validate_issued _ _ _ _ _ _ Hex Hrun
                   (syntax_check_calls_log _ _ _ _)).
        split; [done | intros _]. set_solver.
  - destruct (version_validate_version_cases self w w1 Hok Hn Hex)
      as [Hyes Hno].
    split.
    + intros Hc. unfold ModelVersion.validate.
      rewrite (bind_returned _ _ _ _ _ Hex). by rewrite (Hyes Hc).
    + intros Hc Hp. destruct (Hno Hc) as (on_record & Hrun & Hrec).
      rewrite <- (Hrec Hp). clear Hrec Hyes Hno.
      destruct on_record as [r|]; [case_bool_decide as Hne |].
      * rewrite syntax_check_eta in Hrun.
        rewrite (version_validate_issued _ _ _ _ _ _ Hex Hrun
                   (syntax_check_calls_log _ _ _ _)).
        split; [done | intros _]. set_solver.
      * rewrite (version_validate_issued _ _ _ _ _ _ Hex Hrun
                   (calls_log _ _)).
        split; [| done]. intros Hin'. exfalso.
        destruct (truthy (ModelVersion.version_id self)); set_solver.
      * rewrite syntax_check_eta in Hrun.
        rewrite (version_validate_issued _ _ _ _ _ _ Hex Hrun
                   (syntax_check_calls_log _ _ _ _)).
        split; [done | intros _]. set_solver.
Qed.

End Name_claims.

Section Scope_and_directory.
Context `{Collaborators}.

Lemma message_head_ne c1 c2 s1 s2 t1 t2 :
  c1 ≠ c2 → String c1 s1 +:+ t1 ≠ String c2 s2 +:+ t2.
Proof.
  intros Hc Heq.
  change (String c1 (s1 +:+ t1) = String c2 (s2 +:+ t2)) in Heq. congruence.
Qed.

Lemma literal_head_ne c1 c2 s1 s2 t2 :
  c1 ≠ c2 → String c1 s1 ≠ String c2 s2 +:+ t2.
Proof.
  intros Hc Heq. change (String c1 s1 = String c2 (s2 +:+ t2)) in Heq.
  congruence.
Qed.

(** Closes a goal that two outcomes differ, by the class of the exception
    or by the first character of its message. *)
Ltac other_outcome :=
  simpl;
  first
    [ discriminate
    | by intros [=]
    | intros [= Hm]; revert Hm;
      first [ apply message_head_ne | apply literal_head_ne ]; discriminate ].

Lemma syntax_check_directories prefix name w :
  directories (syntax_check prefix name w).2 = directories w.
Proof.
  unfold syntax_check. destruct (validate_filename name) as [e|]; [| done].
  by destruct (error_code e).
Qed.

Lemma model_validate_name_directories self w :
  directories (Model.validate_name self w).2 = directories w.
Proof.
  destruct (truthy (Model.name self)) eqn:Hn.
  - rewrite model_validate_name_run by done. cbn zeta.
    destruct (bool_decide _); [done |].
    destruct (_ !! _) as [r|]; [destruct (bool_decide _) |];
      by rewrite ?syntax_check_directories.
  - unfold Model.validate_name. by rewrite Hn.
Qed.

Lemma model_validate_existing_directories self w :
  directories (Model.validate_existing self w).2 = directories w.
Proof.
  rewrite model_validate_existing_run.
  destruct (truthy (Model.model_id self)); [| done]. cbn zeta.
  destruct (model_record _ _); [| done].
  destruct (_ && _); [done |]. by destruct (is_alias _).
Qed.

(** C10. The one [fetchone=False] query on the model table that [validate]
    issues for a model with a name carries exactly the in-memory
    [project_id] as its filter ([None] included, which then constrains
    nothing); the "already exists" verdict is the collision with the rows of
    that in-memory scope, whatever project the record fetched for the
    identity belongs to. *)
Theorem sibling_scope_is_in_memory (self : Model.t) (w w1 : World) :
  truthy (Model.name self) = true →
  Model.validate_existing self w = (Returned tt, w1) →
  filter (λ e, is_sibling_query e = true) (issued (Model.validate self) w)
  = [QueryRecords tbl_model false
       [("project_id", of_opt (Model.project_id self))]]
  ∧ (model_keys_ok w →
     ((Model.validate self w).1 =
        Raised (Raise InvalidInputException
                  ("A model with name " +:+ text (Model.name self)
                   +:+ " already exists"))
      ↔ Model.name self
        ∈ ModelRow.name
            <$> sibling_models w (Model.project_id self)
                  (Model.model_id self)))
  ∧ (Model.project_id self = None →
     sibling_models w (Model.project_id self) (Model.model_id self)
     = filter (λ r, ModelRow.model_id r ≠ Model.model_id self) (models w)).
Proof.
  intros Hn Hex. split; [| split].
  - assert (∃ o w2 (ran : bool),
              Model.validate_name self w1 = (o, w2)
              ∧ calls w2 = calls w1 ++
                  QueryRecords tbl_model false
                    [("project_id", of_opt (Model.project_id self))]
                  :: (if ran then [ValidateFilename (text (Model.name self))]
                      else [])) as (o & w2 & ran & Hrun & Hcalls).
    { rewrite model_validate_name_run by done. cbn zeta.
      destruct (bool_decide _); [by eexists _, _, false |].
      destruct (_ !! _) as [r|]; [destruct (bool_decide _) |].
      - rewrite syntax_check_eta. eexists _, _, true. split; [done |].
        apply syntax_check_calls_log.
      - by eexists _, _, false.
      - rewrite syntax_check_eta. eexists _, _, true. split; [done |].
        apply syntax_check_calls_log. }
    rewrite (model_validate_issued _ _ _ _ _ _ Hex Hrun Hcalls).
    rewrite !filter_app.
    by destruct (truthy (Model.model_id self)), ran, o,
      (truthy (Model.directory_id self)).
  - intros Hok.
    destruct (model_validate_name_cases self w w1 Hok Hn Hex) as [Hyes Hno].
    split.
    + intros Hout.
      destruct (decide (Model.name self
                        ∈ ModelRow.name
                            <$> sibling_models w (Model.project_id self)
                                  (Model.model_id self))) as [| Hc]; [done |].
      exfalso. destruct (Hno Hc) as (on_record & Hrun & _).
      revert Hout. unfold Model.validate.
      rewrite (bind_returned _ _ _ _ _ Hex), bind_run, Hrun.
      assert (∀ w',
        (match syntax_check "Invalid name: " (text (Model.name self)) w' with
         | (Returned _, w'') => Model.validate_directory self w''
         | (Raised e, w'') => (Raised e, w'')
         end).1
        ≠ Raised (Raise InvalidInputException
                    ("A model with name " +:+ text (Model.name self)
                     +:+ " already exists"))) as Hsyn.
      { intros w'. unfold syntax_check.
        destruct (validate_filename _) as [e|].
        - destruct (error_code e); other_outcome.
        - rewrite model_validate_directory_run.
          destruct (truthy (Model.directory_id self)); [| other_outcome]. cbn zeta.
          destruct (filter _ (directories _)); [| other_outcome].
          destruct directory_query_raises; other_outcome. }
      destruct on_record as [r|]; [destruct (bool_decide _) |];
        try apply Hsyn.
      rewrite model_validate_directory_run.
      destruct (truthy (Model.directory_id self)); [| other_outcome]. cbn zeta.
      destruct (filter _ (directories _)); [| other_outcome].
      destruct directory_query_raises; other_outcome.
    + intros Hc. unfold Model.validate.
      rewrite (bind_returned _ _ _ _ _ Hex).
      by rewrite (bind_raised _ _ _ _ _ (Hyes Hc)).
  - intros ->. unfold sibling_models. apply list_filter_iff.
    intros r. unfold in_scope. tauto.
Qed.

(** C6. [validate] of a model with a [directory_id], once the identity and
    name blocks have passed, issues one query on the directory table for
    that id, scoped to the model's [project_id] and to the model component
    type; and when the gateway answers it with its not-found error because
    no directory with that id in that scope has the model type (the
    directory exists under another type, or not at all), [validate] fails
    with InvalidInputException "Model cannot be in different directory
    type" and not with the not-found error. *)
Theorem directory_type_check (self : Model.t) (w w2 : World) :
  truthy (Model.directory_id self) = true →
  (Model.validate_existing self;; Model.validate_name self) w
  = (Returned tt, w2) →
  let lookup :=
    QueryRecords tbl_directory false
      [("directory_id", of_opt (Model.directory_id self));
       ("project_id", of_opt (Model.project_id self));
       ("type", VType ct_model)] in
  calls (Model.validate self w).2 = calls w2 ++ [lookup]
  ∧ (directory_query_raises = true →
     (∀ d, d ∈ directories w →
        DirectoryRow.directory_id d = Model.directory_id self →
        in_scope (Model.project_id self) (DirectoryRow.project_id d) →
        DirectoryRow.type d ≠ ct_model) →
     Model.validate self w =
     (Raised (Raise InvalidInputException
                "Model cannot be in different directory type"),
      log lookup w2)).
Proof.
  intros Hd Hrun. cbn zeta.
  assert (Model.validate self w = Model.validate_directory self w2) as ->.
  { unfold Model.validate. revert Hrun. rewrite !bind_run.
    destruct (Model.validate_existing self w) as [[[] | e] w1]; [| done].
    rewrite bind_run.
    by destruct (Model.validate_name self w1) as [[[] | e] w2'];
      intros [= ->]. }
  assert (directories w2 = directories w) as Hdirs.
  { revert Hrun. rewrite bind_run.
    pose proof (model_validate_existing_directories self w) as H1.
    destruct (Model.validate_existing self w) as [[[] | e] w1]; [| done].
    pose proof (model_validate_name_directories self w1) as H2.
    destruct (Model.validate_name self w1) as [[[] | e] w2']; [| done].
    intros [= <-]. cbn in *. congruence. }
  split.
  - by rewrite model_validate_directory_calls, Hd.
  - intros Hraises Hnone. rewrite model_validate_directory_run, Hd.
    cbn zeta. rewrite Hdirs, Hraises.
    destruct (filter _ (directories w)) as [| d l] eqn:Hf; [done |].
    exfalso.
    assert (d ∈ filter
              (λ r, in_scope (Model.directory_id self)
                      (DirectoryRow.directory_id r)
                    ∧ in_scope (Model.project_id self)
                        (DirectoryRow.project_id r)
                    ∧ DirectoryRow.type r = ct_model) (directories w))
      as Hin by (rewrite Hf; set_solver).
    apply list_elem_of_filter in Hin as [(Hid & Hp & Hty) Hin].
    apply (Hnone d); try done.
    destruct Hid as [Hid | Hid]; [| done]. by rewrite Hid in Hd.
Qed.

End Scope_and_directory.

(** ** Deleting a version *)

Section Version_delete.
Context `{Collaborators}.

Lemma alias_by_component_matches component_id r :
  row_matches ProjectAliasRow.column
    [("component_id", of_opt component_id)] r = true
  ↔ in_scope component_id (ProjectAliasRow.component_id r).
Proof.
  rewrite row_matches_cons, andb_true_r.
  change (ProjectAliasRow.column r "component_id")
    with (of_opt (ProjectAliasRow.component_id r)).
  apply cell_matches_of_opt.
Qed.

Lemma annotation_matches component_id r :
  row_matches AnnotationRow.column
    [("component_type", VType ct_model);
     ("component_id", of_opt component_id)] r = true
  ↔ AnnotationRow.component_type r = ct_model
    ∧ in_scope component_id (AnnotationRow.component_id r).
Proof.
  rewrite !row_matches_cons, andb_true_r, andb_true_iff.
  change (AnnotationRow.column r "component_type")
    with (VType (AnnotationRow.component_type r)).
  change (AnnotationRow.column r "component_id")
    with (of_opt (AnnotationRow.component_id r)).
  rewrite cell_matches_of_opt. cbn [cell_matches].
  rewrite bool_decide_eq_true. split.
  - by intros [[= ->] ?].
  - by intros [-> ?].
Qed.

Lemma delete_alias_run component_id w :
  delete_alias_for_component component_id w =
  (Returned tt,
   Build_World (models w) (model_versions w) (directories w) (annotations w)
     (filter (λ r, ¬ in_scope component_id (ProjectAliasRow.component_id r))
        (project_aliases w))
     (objects w)
     (calls w ++ [DeleteRecords tbl_project_alias
                    [("component_id", of_opt component_id)]])).
Proof.
  unfold delete_alias_for_component. rewrite delete_run by done.
  cbn [table_set table_rows table_column table_name project_alias_table].
  cbn zeta. do 2 f_equal. apply list_filter_iff. intros r.
  by rewrite alias_by_component_matches.
Qed.

Lemma version_delete_row_run version_id model_id w :
  ModelVersion._delete version_id model_id w =
  (Returned tt,
   Build_World (models w)
     (filter (λ r, ¬ (in_scope version_id (ModelVersionRow.version_id r)
                      ∧ in_scope model_id (ModelVersionRow.model_id r)))
        (model_versions w))
     (directories w) (annotations w) (project_aliases w) (objects w)
     (calls w ++ [DeleteRecords tbl_model_version
                    [("version_id", of_opt version_id);
                     ("model_id", of_opt model_id)]])).
Proof.
  unfold ModelVersion._delete. rewrite delete_run by done.
  cbn [table_set table_rows table_column table_name model_version_table].
  cbn zeta. do 2 f_equal. apply list_filter_iff. intros r.
  by rewrite version_by_keys_matches.
Qed.

Lemma version_pull_run version_id model_id w :
  truthy version_id = true → is_alias version_id = false →
  ModelVersion.pull version_id model_id None w =
  let fetch :=
    QueryRecords tbl_model_version true
      [("version_id", of_opt version_id); ("model_id", of_opt model_id)] in
  match filter (λ r, ModelVersionRow.version_id r = version_id
                     ∧ in_scope model_id (ModelVersionRow.model_id r))
          (model_versions w) with
  | r :: _ => (Returned (ModelVersion.from_namedtuple r), log fetch w)
  | [] =>
      (Raised (Raise NoModelException
                 (not_found_message tbl_model_version
                    [("version_id", of_opt version_id);
                     ("model_id", of_opt model_id)])), log fetch w)
  end.
Proof.
  intros Hid Ha. unfold ModelVersion.pull, ModelVersion.resolve_alias.
  rewrite Hid, Ha. cbn [negb when].
  rewrite bind_run. unfold mret at 1, M_ret. rewrite bind_run.
  unfold mret at 1, M_ret. rewrite bind_run.
  unfold ModelVersion._query_one. rewrite query_one_run by done.
  cbn [table_rows table_column table_name table_not_found model_version_table].
  rewrite (list_filter_iff _
    (λ r, ModelVersionRow.version_id r = version_id
          ∧ in_scope model_id (ModelVersionRow.model_id r))).
  - cbn zeta. by destruct (filter _ _).
  - intros r. rewrite version_by_keys_matches. unfold in_scope at 1.
    destruct version_id; [naive_solver | done].
Qed.

Lemma version_delete_run self w :
  ModelVersion.delete self w =
  let version_id := ModelVersion.version_id self in
  let model_id := ModelVersion.model_id self in
  if is_alias version_id then
    (Raised (Raise InvalidInputException "Resolve the alias before usage"), w)
  else if negb (truthy version_id) then
    (Raised (Raise NoModelException "Version ID must be provided"), w)
  else
    let fetch :=
      QueryRecords tbl_model_version true
        [("version_id", of_opt version_id); ("model_id", of_opt model_id)] in
    match filter (λ r, ModelVersionRow.version_id r = version_id
                       ∧ in_scope model_id (ModelVersionRow.model_id r))
            (model_versions w) with
    | r :: _ =>
        (Returned tt,
         log (DeleteRecords tbl_project_alias
                [("component_id", of_opt (ModelVersionRow.version_id r))])
           (log (DeleteRecords tbl_model_version
                   [("version_id", of_opt (ModelVersionRow.version_id r));
                    ("model_id", of_opt (ModelVersionRow.model_id r))])
              (log fetch (version_deleted r w))))
    | [] =>
        (Raised (Raise NoModelException
                   (not_found_message tbl_model_version
                      [("version_id", of_opt version_id);
                       ("model_id", of_opt model_id)])), log fetch w)
    end.
Proof.
  unfold ModelVersion.delete. cbn zeta.
  destruct (is_alias (ModelVersion.version_id self)) eqn:Ha; [done |].
  cbn [when]. rewrite bind_run. unfold mret at 1, M_ret.
  destruct (truthy (ModelVersion.version_id self)) eqn:Hid; cbn [negb].
  - rewrite bind_run, version_pull_run by done. cbn zeta.
    destruct (filter _ (model_versions w)) as [| r l]; [done |].
    rewrite bind_run, version_delete_row_run, delete_alias_run. done.
  - rewrite bind_run. unfold ModelVersion.pull. by rewrite Hid.
Qed.

End Version_delete.

(** ** Deleting a model *)

Section Model_delete.
Context `{Collaborators}.

Lemma in_scope_Some (s : string) (parent : option string) :
  in_scope (Some s) parent ↔ parent = Some s.
Proof. unfold in_scope. naive_solver. Qed.

Lemma filter_all {A} (P : A → Prop) `{∀ x, Decision (P x)} (l : list A) :
  Forall P l → filter P l = l.
Proof.
  induction 1 as [| x l Hx _ IH]; [done |].
  by rewrite filter_cons_True, IH.
Qed.

Lemma for_each_cons {A} (body : A → M unit) x l w :
  for_each body (x :: l) w =
  match body x w with
  | (Returned _, w') => for_each body l w'
  | (Raised e, w') => (Raised e, w')
  end.
Proof. reflexivity. Qed.

Lemma for_each_app {A} (body : A → M unit) l1 l2 w :
  for_each body (l1 ++ l2) w =
  match for_each body l1 w with
  | (Returned _, w') => for_each body l2 w'
  | (Raised e, w') => (Raised e, w')
  end.
Proof.
  revert w. induction l1 as [| x l1 IH]; intros w; [done |].
  rewrite <- app_comm_cons, !for_each_cons.
  destruct (body x w) as [[[] | e] w']; [apply IH | done].
Qed.

(** The versions of one model are deleted one after the other, each found
    again by its own fetch. *)
Lemma versions_cascade_run id vs :
  ∀ w,
    versions_of w (Some id) = vs →
    NoDup (ModelVersionRow.version_id <$> vs) →
    Forall (λ v, truthy (ModelVersionRow.version_id v) = true
                 ∧ is_alias (ModelVersionRow.version_id v) = false) vs →
    ∃ w',
      for_each ModelVersion.delete (ModelVersion.from_namedtuple <$> vs) w
      = (Returned tt, w')
      ∧ calls w' = calls w ++ (vs ≫= version_cascade)
      ∧ versions_of w' (Some id) = [].
Proof.
  induction vs as [| v vs IH]; intros w Hvs Hnd Hok.
  - exists w. by rewrite app_nil_r.
  - rewrite fmap_cons, for_each_cons, version_delete_run. cbn zeta.
    apply Forall_cons in Hok as [[Hid Ha] Hok].
    apply NoDup_cons in Hnd as [Hfresh Hnd].
    change (ModelVersion.version_id (ModelVersion.from_namedtuple v))
      with (ModelVersionRow.version_id v).
    change (ModelVersion.model_id (ModelVersion.from_namedtuple v))
      with (ModelVersionRow.model_id v).
    rewrite Ha, Hid. cbn [negb].
    assert (ModelVersionRow.model_id v = Some id) as Hmid.
    { assert (v ∈ versions_of w (Some id)) as Hin by (rewrite Hvs; set_solver).
      apply list_elem_of_filter in Hin. tauto. }
    assert (Forall (λ x, ModelVersionRow.version_id x
                         ≠ ModelVersionRow.version_id v) vs) as Hothers.
    { apply Forall_forall. intros x Hx Heq. apply Hfresh. rewrite <- Heq.
      apply list_elem_of_fmap. eauto. }
    rewrite Hmid.
    rewrite (list_filter_iff _
      (λ r, ModelVersionRow.version_id r = ModelVersionRow.version_id v
            ∧ ModelVersionRow.model_id r = Some id))
      by (intros r; by rewrite in_scope_Some).
    rewrite <- list_filter_filter. fold (versions_of w (Some id)).
    rewrite Hvs, filter_cons_True by done.
    set (w1 := log _ (log _ (log _ (version_deleted v w)))).
    destruct (IH w1) as (w' & Hrun & Hcalls & Hnone); try done.
    { unfold versions_of, w1. cbn [model_versions log version_deleted].
      rewrite list_filter_filter.
      rewrite (list_filter_iff _
        (λ r, ModelVersionRow.version_id r ≠ ModelVersionRow.version_id v
              ∧ ModelVersionRow.model_id r = Some id)).
      - rewrite <- list_filter_filter. fold (versions_of w (Some id)).
        rewrite Hvs, filter_cons_False by (by intros []).
        by apply filter_all.
      - intros r. rewrite Hmid, !in_scope_Some.
        destruct (ModelVersionRow.version_id v) as [s|] eqn:Hv; [| done].
        rewrite in_scope_Some. naive_solver. }
    exists w'. split; [done |]. split; [| done].
    rewrite Hcalls, bind_cons. unfold w1, version_cascade.
    rewrite !calls_log, Hmid. cbn [calls version_deleted].
    by rewrite <- !app_assoc.
Qed.

Lemma model_pull_run model_id w :
  truthy model_id = true → is_alias model_id = false →
  Model.pull model_id None w =
  let fetch := QueryRecords tbl_model true [("model_id", of_opt model_id)] in
  match model_record w model_id with
  | Some r => (Returned (Model.from_namedtuple r), log fetch w)
  | None =>
      (Raised (Raise NoModelException
                 (not_found_message tbl_model
                    [("model_id", of_opt model_id)])), log fetch w)
  end.
Proof.
  intros Hid Ha. unfold Model.pull, Model.resolve_alias.
  rewrite Hid, Ha. cbn [negb when].
  rewrite bind_run. unfold mret at 1, M_ret. rewrite bind_run.
  unfold mret at 1, M_ret. rewrite bind_run, model_query_one_run by done.
  cbn zeta. by destruct (model_record w model_id).
Qed.

Lemma versions_delete_run id w :
  id ≠ "" →
  ModelVersions.delete (Some id) w =
  for_each ModelVersion.delete
    (ModelVersion.from_namedtuple <$> versions_of w (Some id))
    (log (QueryRecords tbl_model_version false
            [("model_id", VStr id); ("model_ids", VNone)]) w).
Proof.
  intros Hid. unfold ModelVersions.delete, ModelVersions.pull.
  assert (truthy (Some id) = true) as ->
    by (cbn; by rewrite bool_decide_eq_false_2).
  cbn [negb andb when]. rewrite !bind_run. unfold mret at 1, M_ret.
  unfold ModelVersions._query. rewrite bind_run.
  rewrite query_many_lenient by done.
  cbn [table_rows table_column table_name model_version_table].
  rewrite (list_filter_iff _
    (λ r, ModelVersionRow.model_id r = Some id)); [done |].
  intros r. by rewrite version_by_models_matches, in_scope_Some.
Qed.

Lemma model_by_id_scope id r :
  row_matches ModelRow.column [("model_id", of_opt id)] r = true
  ↔ in_scope id (ModelRow.model_id r).
Proof.
  rewrite row_matches_cons, andb_true_r.
  change (ModelRow.column r "model_id") with (of_opt (ModelRow.model_id r)).
  apply cell_matches_of_opt.
Qed.

(** The cleanup after the versions always goes through. *)
Lemma model_cleanup_run id project w :
  (Model._delete (Some id);;
   object_store_model_path ← path_join (Some project) (Some id);
   ObjectStore.delete_directory bucket_model object_store_model_path;;
   DatabaseClient.delete annotation_table
     [("component_type", VType ct_model); ("component_id", of_opt (Some id))];;
   delete_alias_for_component (Some id)) w
  = (Returned tt, model_deleted id project w).
Proof.
  unfold Model._delete. rewrite bind_run, delete_run by done.
  cbn [table_set table_rows table_column table_name model_table]. cbn zeta.
  rewrite bind_run. cbn [path_join]. unfold mret at 1, M_ret.
  rewrite bind_run. unfold ObjectStore.delete_directory.
  rewrite bind_run, emit_run. unfold modify at 1.
  rewrite bind_run, delete_run by done.
  cbn [table_set table_rows table_column table_name annotation_table].
  cbn zeta. rewrite delete_alias_run.
  unfold model_deleted, model_cleanup. cbn [models model_versions directories
    annotations project_aliases objects calls log].
  f_equal. f_equal.
  - apply list_filter_iff. intros r.
    by rewrite model_by_id_scope, in_scope_Some.
  - apply list_filter_iff. intros r.
    by rewrite (annotation_matches (Some id)), in_scope_Some.
  - apply list_filter_iff. intros r. by rewrite in_scope_Some.
  - by rewrite <- !app_assoc.
Qed.

End Model_delete.

Section Cascade.
Context `{Collaborators}.

Lemma truthy_Some id : id ≠ "" → truthy (Some id) = true.
Proof. intros Hid. cbn. by rewrite bool_decide_eq_false_2. Qed.

(** [Model.delete] up to the end of the version loop. *)
Lemma model_delete_run self w id record :
  Model.model_id self = Some id → id ≠ "" → is_alias (Some id) = false →
  model_record w (Some id) = Some record →
  Model.delete self w =
  match
    for_each ModelVersion.delete
      (ModelVersion.from_namedtuple <$> versions_of w (Some id))
      (log (QueryRecords tbl_model_version false
              [("model_id", VStr id); ("model_ids", VNone)])
         (log (QueryRecords tbl_model true [("model_id", VStr id)]) w))
  with
  | (Returned _, w') =>
      (Model._delete (Some id);;
       object_store_model_path ←
         path_join (ModelRow.project_id record) (Some id);
       ObjectStore.delete_directory bucket_model object_store_model_path;;
       DatabaseClient.delete annotation_table
         [("component_type", VType ct_model);
          ("component_id", of_opt (Some id))];;
       delete_alias_for_component (Some id)) w'
  | (Raised e, w') => (Raised e, w')
  end.
Proof.
  intros Hid Hne Ha Hrec. unfold Model.delete. rewrite Hid, Ha. cbn [when].
  rewrite bind_run. unfold mret at 1, M_ret.
  rewrite bind_run, model_pull_run by (by try apply truthy_Some).
  cbn zeta. rewrite Hrec. rewrite bind_run, versions_delete_run by done.
  assert (ModelRow.model_id record = Some id) as Hkey
    by by apply record_elem_of in Hrec as [_ ?].
  change (Model.model_id (Model.from_namedtuple record))
    with (ModelRow.model_id record).
  change (Model.project_id (Model.from_namedtuple record))
    with (ModelRow.project_id record).
  by rewrite Hkey.
Qed.

(** C1. [Model.delete] of a model whose id is resolved (not an alias), has
    a record in the store with a project, and owns [n] versions (each with
    its own non-empty, non-alias version id) succeeds and issues, in this
    order: the fetch of the model, the fetch of its versions, then for each
    version in store order its fetch, its row delete and its alias delete,
    then the model's row delete, the recursive delete of the blob namespace
    at the path joining project id and model id, the annotation delete keyed
    by the model component type and the model id, and the alias delete for
    the model id. *)
Theorem model_delete_cascade (self : Model.t) (w : World) (id project : string)
    (record : ModelRow.t) :
  Model.model_id self = Some id → id ≠ "" → is_alias (Some id) = false →
  model_record w (Some id) = Some record →
  ModelRow.project_id record = Some project →
  let versions := versions_of w (Some id) in
  NoDup (ModelVersionRow.version_id <$> versions) →
  Forall (λ v, truthy (ModelVersionRow.version_id v) = true
               ∧ is_alias (ModelVersionRow.version_id v) = false) versions →
  (Model.delete self w).1 = Returned tt
  ∧ issued (Model.delete self) w =
    [QueryRecords tbl_model true [("model_id", VStr id)];
     QueryRecords tbl_model_version false
       [("model_id", VStr id); ("model_ids", VNone)]]
    ++ (versions ≫= λ v,
          let keys :=
            [("version_id", of_opt (ModelVersionRow.version_id v));
             ("model_id", VStr id)] in
          [QueryRecords tbl_model_version true keys;
           DeleteRecords tbl_model_version keys;
           DeleteRecords tbl_project_alias
             [("component_id", of_opt (ModelVersionRow.version_id v))]])
    ++ [DeleteRecords tbl_model [("model_id", VStr id)];
        DeleteDirectory bucket_model (os_path_join project id);
        DeleteRecords tbl_annotation
          [("component_type", VType ct_model); ("component_id", VStr id)];
        DeleteRecords tbl_project_alias [("component_id", VStr id)]].
Proof.
  intros Hid Hne Ha Hrec Hproject versions Hnd Hok.
  pose proof (model_delete_run self w id record Hid Hne Ha Hrec) as Hfull.
  set (w0 := log _ (log _ w)) in Hfull.
  destruct (versions_cascade_run id versions w0) as (w' & Hrun & Hcalls & _);
    try done.
  fold versions in Hfull.
  rewrite Hrun, Hproject, model_cleanup_run in Hfull.
  split; [by rewrite Hfull |]. apply issued_spec. rewrite Hfull.
  unfold model_deleted. cbn [snd calls].
  assert (∀ l, Forall (λ v, ModelVersionRow.model_id v = Some id) l →
               l ≫= version_cascade
               = l ≫= λ v,
                   let keys :=
                     [("version_id", of_opt (ModelVersionRow.version_id v));
                      ("model_id", VStr id)] in
                   [QueryRecords tbl_model_version true keys;
                    DeleteRecords tbl_model_version keys;
                    DeleteRecords tbl_project_alias
                      [("component_id",
                        of_opt (ModelVersionRow.version_id v))]]) as Hsame.
  { induction 1 as [| v l Hv _ IH]; [done |].
    rewrite !bind_cons, IH. unfold version_cascade. by rewrite Hv. }
  rewrite Hcalls, (Hsame versions).
  - unfold w0. by rewrite !calls_log, <- !app_assoc.
  - apply Forall_forall. intros v Hv.
    apply list_elem_of_filter in Hv. tauto.
Qed.

(** A path whose parts are plain is the two ids with a slash between. *)
Lemma os_path_join_plain project id :
  project ≠ "" → ends_with_sep project = false → starts_with_sep id = false →
  os_path_join project id = project +:+ "/" +:+ id.
Proof.
  intros Hp He Hs. unfold os_path_join. rewrite Hs, He.
  by rewrite bool_decide_eq_false_2.
Qed.

End Cascade.

(** Settles a decidable statement about concrete data by evaluation. *)
Ltac by_evaluation :=
  match goal with
  | |- ?P => apply (@bool_decide_unpack P _); vm_compute; exact I
  end.

Section Cascade_instance.
#[local] Existing Instance ex_collaborators.

Lemma model_delete_cascade_witness :
  (Model.delete (Model.Build (Some "m1") None None None None None None None
                   None None) ex_world).1 = Returned tt
  ∧ issued (Model.delete (Model.Build (Some "m1") None None None None None
                            None None None None)) ex_world
    = [QueryRecords tbl_model true [("model_id", VStr "m1")];
       QueryRecords tbl_model_version false
         [("model_id", VStr "m1"); ("model_ids", VNone)];
       QueryRecords tbl_model_version true
         [("version_id", VStr "v1"); ("model_id", VStr "m1")];
       DeleteRecords tbl_model_version
         [("version_id", VStr "v1"); ("model_id", VStr "m1")];
       DeleteRecords tbl_project_alias [("component_id", VStr "v1")];
       QueryRecords tbl_model_version true
         [("version_id", VStr "v3"); ("model_id", VStr "m1")];
       DeleteRecords tbl_model_version
         [("version_id", VStr "v3"); ("model_id", VStr "m1")];
       DeleteRecords tbl_project_alias [("component_id", VStr "v3")];
       DeleteRecords tbl_model [("model_id", VStr "m1")];
       DeleteDirectory bucket_model "p1/m1";
       DeleteRecords tbl_annotation
         [("component_type", VType ct_model); ("component_id", VStr "m1")];
       DeleteRecords tbl_project_alias [("component_id", VStr "m1")]].
Proof.
  apply (model_delete_cascade _ ex_world "m1" "p1"
           (ex_model "m1" "p1" "a" (Some "d1"))).
  - reflexivity.
  - discriminate.
  - reflexivity.
  - reflexivity.
  - reflexivity.
  - by_evaluation.
  - by_evaluation.
Defined.

End Cascade_instance.

(** ** What a delete leaves behind *)

Section References.
Context `{Collaborators}.

Lemma truthy_inv (o : option string) :
  truthy o = true → ∃ s, o = Some s ∧ s ≠ "".
Proof.
  destruct o as [s|]; [| done]. cbn. intros Hs%negb_true_iff.
  apply bool_decide_eq_false in Hs. eauto.
Qed.

(** A successful [Model.delete] ended with the cleanup for the model's own
    id. *)
Lemma model_delete_returned self w w' :
  Model.delete self w = (Returned tt, w') →
  ∃ id project w3,
    Model.model_id self = Some id ∧ w' = model_deleted id project w3.
Proof.
  intros Hrun.
  destruct (is_alias (Model.model_id self)) eqn:Ha.
  { revert Hrun. unfold Model.delete. by rewrite Ha. }
  destruct (truthy (Model.model_id self)) eqn:Hid.
  2: { revert Hrun. unfold Model.delete, Model.pull. rewrite Ha, Hid.
       by rewrite !bind_run. }
  apply truthy_inv in Hid as (id & Hid & Hne). rewrite Hid in Ha.
  destruct (model_record w (Some id)) as [record|] eqn:Hrec.
  2: { revert Hrun. unfold Model.delete. rewrite Hid, Ha. cbn [when].
       rewrite bind_run. unfold mret at 1, M_ret.
       rewrite bind_run, model_pull_run by (by try apply truthy_Some).
       cbn zeta. by rewrite Hrec. }
  rewrite (model_delete_run self w id record) in Hrun by done.
  destruct (for_each _ _ _) as [[[] | e] w3]; [| done].
  destruct (ModelRow.project_id record) as [project|].
  - rewrite model_cleanup_run in Hrun. exists id, project, w3.
    split; [done | congruence].
  - revert Hrun. unfold Model._delete. rewrite bind_run, delete_run by done.
    by cbn zeta.
Qed.

(** C5, as the code has it.  A successful [Model.delete] leaves no
    annotation record tagged with the model component type and the model's
    id, and no alias record pointing at the model's id.  A successful
    [ModelVersion.delete] leaves no alias record pointing at the version's
    id; it issues no delete on the annotation table and leaves that table
    as it was. *)
Theorem delete_cleans_references (w w' : World) :
  (∀ self : Model.t,
     Model.delete self w = (Returned tt, w') →
     (∀ a, a ∈ annotations w' →
        ¬ (AnnotationRow.component_type a = ct_model
           ∧ AnnotationRow.component_id a = Model.model_id self))
     ∧ (∀ a, a ∈ project_aliases w' →
        ProjectAliasRow.component_id a ≠ Model.model_id self))
  ∧ (∀ self : ModelVersion.t,
     ModelVersion.delete self w = (Returned tt, w') →
     (∀ a, a ∈ project_aliases w' →
        ProjectAliasRow.component_id a ≠ ModelVersion.version_id self)
     ∧ annotations w' = annotations w
     ∧ (∀ filters,
        DeleteRecords tbl_annotation filters
          ∉ issued (ModelVersion.delete self) w)).
Proof.
  split; intros self Hrun.
  - apply model_delete_returned in Hrun as (id & project & w3 & Hid & ->).
    rewrite Hid. unfold model_deleted. cbn [annotations project_aliases].
    split; intros a Ha; apply list_elem_of_filter in Ha; tauto.
  - pose proof Hrun as Hrun'. revert Hrun'.
    rewrite version_delete_run. cbn zeta.
    destruct (is_alias _); [done |].
    destruct (truthy (ModelVersion.version_id self)) eqn:Hid; [| done].
    cbn [negb].
    destruct (filter _ (model_versions w)) as [| r l] eqn:Hf; [done |].
    assert (ModelVersionRow.version_id r = ModelVersion.version_id self)
      as Hkey.
    { assert (r ∈ filter
                (λ r, ModelVersionRow.version_id r
                      = ModelVersion.version_id self
                      ∧ in_scope (ModelVersion.model_id self)
                          (ModelVersionRow.model_id r)) (model_versions w))
        as Hin by (rewrite Hf; set_solver).
      apply list_elem_of_filter in Hin. tauto. }
    intros [= <-]. split; [| split].
    + intros a Ha. cbn [project_aliases log version_deleted] in Ha.
      apply list_elem_of_filter in Ha as [Ha _]. rewrite Hkey in Ha.
      apply truthy_inv in Hid as (s & Hs & _). rewrite Hs in *.
      by rewrite in_scope_Some in Ha.
    + done.
    + intros filters.
      erewrite issued_spec;
        [| rewrite Hrun; cbn [snd]; rewrite !calls_log;
           cbn [calls version_deleted]; by rewrite <- !app_assoc].
      set_solver.
Qed.
End References.

Section References_instance.
#[local] Existing Instance ex_collaborators.

(** The claim as first stated also promised the annotation cleanup for a
    version: here a version is deleted and the annotation tagged with its
    id is still in the table. *)
Lemma version_delete_keeps_annotations :
  let self := ModelVersion.from_namedtuple (ex_version "v1" "m1" "1") in
  (ModelVersion.delete self ex_world).1 = Returned tt
  ∧ AnnotationRow.Build (ct_other "model_version") (Some "v1")
    ∈ annotations (ModelVersion.delete self ex_world).2
  ∧ ¬ (∀ a, a ∈ annotations (ModelVersion.delete self ex_world).2 →
         AnnotationRow.component_id a
         ≠ ModelVersion.version_id self).
Proof.
  cbn zeta. split; [reflexivity |]. split; [by_evaluation |].
  intros Hall.
  apply (Hall (AnnotationRow.Build (ct_other "model_version") (Some "v1")));
    [by_evaluation | reflexivity].
Defined.

Lemma delete_cleans_references_witness :
  (∀ a, a ∈ annotations
              (Model.delete
                 (Model.from_namedtuple (ex_model "m1" "p1" "a" (Some "d1")))
                 ex_world).2 →
     ¬ (AnnotationRow.component_type a = ct_model
        ∧ AnnotationRow.component_id a = Some "m1"))
  ∧ (∀ a, a ∈ project_aliases
                (ModelVersion.delete
                   (ModelVersion.from_namedtuple (ex_version "v1" "m1" "1"))
                   ex_world).2 →
     ProjectAliasRow.component_id a ≠ Some "v1").
Proof.
  split.
  - refine (proj1 (proj1 (delete_cleans_references ex_world
             (Model.delete
                (Model.from_namedtuple (ex_model "m1" "p1" "a" (Some "d1")))
                ex_world).2)
             (Model.from_namedtuple (ex_model "m1" "p1" "a" (Some "d1"))) _)).
    vm_compute. reflexivity.
  - refine (proj1 (proj2 (delete_cleans_references ex_world
             (ModelVersion.delete
                (ModelVersion.from_namedtuple (ex_version "v1" "m1" "1"))
                ex_world).2)
             (ModelVersion.from_namedtuple (ex_version "v1" "m1" "1")) _)).
    vm_compute. reflexivity.
Defined.

End References_instance.

(** ** Collection deletes *)

Section Collections.
Context `{Collaborators}.

Lemma for_each_aborts {A} (body : A → M unit) before failing after w w1 e w2 :
  for_each body before w = (Returned tt, w1) →
  body failing w1 = (Raised e, w2) →
  for_each body (before ++ failing :: after) w = (Raised e, w2).
Proof.
  intros Hbefore Hfail. by rewrite for_each_app, Hbefore, for_each_cons, Hfail.
Qed.

Lemma bind_ret_run {A B} (a : A) (f : A → M B) w : (mret a ≫= f) w = f a w.
Proof. reflexivity. Qed.

Lemma models_pull_run project_id w :
  truthy project_id = true →
  Models.pull project_id None w =
  (Returned
     (Models.Build
        (Model.from_namedtuple
           <$> filter (λ r, ModelRow.project_id r = project_id) (models w))),
   log (QueryRecords tbl_model false
          [("project_id", of_opt project_id); ("directory_id", VNone)]) w).
Proof.
  intros Hp. unfold Models.pull, Models.scope_directory, Models._query.
  rewrite Hp. cbn [negb when truthy].
  rewrite !bind_ret_run, bind_run, query_many_lenient by done.
  cbn [table_rows table_column table_name model_table].
  rewrite (list_filter_iff _ (λ r, ModelRow.project_id r = project_id));
    [done |].
  intros r. rewrite !row_matches_cons, andb_true_iff.
  change (ModelRow.column r "project_id")
    with (of_opt (ModelRow.project_id r)).
  rewrite cell_matches_key by done. cbn. tauto.
Qed.

Lemma versions_pull_run model_id w :
  truthy model_id = true →
  ModelVersions.pull model_id None w =
  (Returned
     (ModelVersions.Build
        (ModelVersion.from_namedtuple <$> versions_of w model_id)),
   log (QueryRecords tbl_model_version false
          [("model_id", of_opt model_id); ("model_ids", VNone)]) w).
Proof.
  intros Hid. apply truthy_inv in Hid as (id & -> & Hne).
  unfold ModelVersions.pull. rewrite truthy_Some by done.
  cbn [negb andb when]. rewrite bind_ret_run, bind_run.
  unfold ModelVersions._query. rewrite query_many_lenient by done.
  cbn [table_rows table_column table_name model_version_table].
  rewrite (list_filter_iff _
    (λ r, ModelVersionRow.model_id r = Some id)); [done |].
  intros r. by rewrite version_by_models_matches, in_scope_Some.
Qed.

(** C8. A collection delete pulls the whole collection of the scope (the
    rows of the project, resp. of the model, in store order) and then runs
    the member delete on each member in that order; when the delete of a
    member raises, the collection delete stops there, in the world that
    member's delete left, with that member's exception unchanged: the
    members after it are not touched. *)
Theorem collection_delete_aborts (w : World) :
  (∀ project_id directory_id pulled w0,
     Models.pull project_id directory_id w = (Returned pulled, w0) →
     Models.delete project_id directory_id w
     = for_each Model.delete (Models.models pulled) w0
     ∧ (truthy project_id = true → directory_id = None →
        Models.models pulled
        = Model.from_namedtuple
            <$> filter (λ r, ModelRow.project_id r = project_id) (models w))
     ∧ (∀ before failing after w1 e w2,
        Models.models pulled = before ++ failing :: after →
        for_each Model.delete before w0 = (Returned tt, w1) →
        Model.delete failing w1 = (Raised e, w2) →
        Models.delete project_id directory_id w = (Raised e, w2)))
  ∧ (∀ model_id pulled w0,
     ModelVersions.pull model_id None w = (Returned pulled, w0) →
     ModelVersions.delete model_id w
     = for_each ModelVersion.delete (ModelVersions.versions pulled) w0
     ∧ ModelVersions.versions pulled
       = ModelVersion.from_namedtuple <$> versions_of w model_id
     ∧ (∀ before failing after w1 e w2,
        ModelVersions.versions pulled = before ++ failing :: after →
        for_each ModelVersion.delete before w0 = (Returned tt, w1) →
        ModelVersion.delete failing w1 = (Raised e, w2) →
        ModelVersions.delete model_id w = (Raised e, w2))).
Proof.
  split.
  - intros project_id directory_id pulled w0 Hpull.
    assert (Models.delete project_id directory_id w
            = for_each Model.delete (Models.models pulled) w0) as Hdel.
    { unfold Models.delete. by rewrite (bind_returned _ _ _ _ _ Hpull). }
    split; [done |]. split.
    + intros Hp ->. rewrite models_pull_run in Hpull by done.
      by injection Hpull as <- _.
    + intros before failing after w1 e w2 Hsplit Hbefore Hfail.
      rewrite Hdel, Hsplit. by eapply for_each_aborts.
  - intros model_id pulled w0 Hpull.
    assert (ModelVersions.delete model_id w
            = for_each ModelVersion.delete (ModelVersions.versions pulled) w0)
      as Hdel.
    { unfold ModelVersions.delete. by rewrite (bind_returned _ _ _ _ _ Hpull). }
    split; [done |]. split.
    + destruct (truthy model_id) eqn:Hid.
      * rewrite versions_pull_run in Hpull by done.
        by injection Hpull as <- _.
      * revert Hpull. unfold ModelVersions.pull. by rewrite Hid.
    + intros before failing after w1 e w2 Hsplit Hbefore Hfail.
      rewrite Hdel, Hsplit. by eapply for_each_aborts.
Qed.

End Collections.

(** ** Row to wire and back *)

Section Round_trip.
Context `{Collaborators}.

Lemma int_str z : int (str (Some z)) = Some z.
Proof.
  unfold int, str. rewrite NilZero.isi.
  - cbn. by rewrite DecimalZ.of_to.
  - destruct z; cbn; [done | | done].
    intros [= Hp]. by apply DecimalPos.Unsigned.to_uint_nonnil in Hp.
  - destruct z; cbn; [done | done |].
    intros [= Hp]. by apply DecimalPos.Unsigned.to_uint_nonnil in Hp.
Qed.

Lemma timestamp_run o w :
  Model.timestamp (str o) w =
  match o with
  | Some z => (Returned (Some z), w)
  | None =>
      (Raised (Raise ValueError
                 "invalid literal for int() with base 10: None"), w)
  end.
Proof.
  unfold Model.timestamp. destruct o as [z|]; [| done].
  case_bool_decide as He.
  - pose proof (int_str z) as Hz. by rewrite He in Hz.
  - by rewrite int_str.
Qed.

Lemma non_empty_proto_field o : non_empty (proto_field o) = none_if_empty o.
Proof.
  unfold non_empty, none_if_empty. destruct o as [s|]; cbn; [| done].
  by case_bool_decide.
Qed.

Lemma truthy_proto_field o : truthy (Some (proto_field o)) = truthy o.
Proof. by destruct o. Qed.

Lemma truthy_none_if_empty o : truthy (none_if_empty o) = truthy o.
Proof. unfold none_if_empty. by destruct (truthy o) eqn:Ho. Qed.

Lemma from_proto_to_proto_run model w :
  (truthy (Model.model_id model) = true →
   is_alias (Model.model_id model) = false) →
  (truthy (Model.directory_id model) = true →
   is_alias (Model.directory_id model) = false) →
  Model.from_proto (Model.to_proto model) w =
  match Model.created_at model, Model.modified_at model with
  | Some created_at, Some modified_at =>
      let back := read_back model created_at modified_at in
      match Model.validate back w with
      | (Returned _, w') => (Returned back, w')
      | (Raised e, w') => (Raised e, w')
      end
  | _, _ =>
      (Raised (Raise ValueError
                 "invalid literal for int() with base 10: None"), w)
  end.
Proof.
  intros Hid Hdir. unfold Model.from_proto, Model.to_proto.
  cbn [pm_model_id pm_name pm_project_id pm_latest_version_id pm_model_type
       pm_sub_model_type pm_description pm_directory pm_created_at
       pm_modified_at pd_directory_id].
  rewrite !non_empty_proto_field, truthy_none_if_empty, truthy_proto_field.
  assert ((if truthy (Model.model_id model)
           then Model.resolve_alias (none_if_empty (Model.model_id model))
                  (none_if_empty (Model.project_id model))
           else mret (none_if_empty (Model.model_id model)))
          = mret (none_if_empty (Model.model_id model))) as ->.
  { destruct (truthy (Model.model_id model)) eqn:Ht; [| done].
    unfold Model.resolve_alias, none_if_empty at 1. rewrite Ht.
    by rewrite (Hid eq_refl). }
  assert ((if truthy (Model.directory_id model)
           then Model.resolve_directory_alias
                  (Some (proto_field (Model.directory_id model)))
                  (none_if_empty (Model.project_id model))
           else mret (Some (proto_field (Model.directory_id model))))
          = mret (empty_if_none (Model.directory_id model))) as ->.
  { destruct (truthy (Model.directory_id model)) eqn:Ht; [| done].
    unfold Model.resolve_directory_alias.
    destruct (Model.directory_id model) as [d|] eqn:Hd; [| done].
    cbn [proto_field]. by rewrite (Hdir eq_refl). }
  rewrite !bind_ret_run, bind_run, timestamp_run.
  destruct (Model.created_at model) as [created_at|]; [| done].
  rewrite bind_run, timestamp_run.
  destruct (Model.modified_at model) as [modified_at|]; [| done].
  rewrite bind_run. cbn zeta.
  assert ((if bool_decide
                (proto_field
                   (if truthy (Model.model_type model)
                    then Some (format_model_type_to_external_model_type
                                 (text (Model.model_type model)))
                    else None) = "")
           then None
           else Some (format_external_model_type_to_model_type
                        (proto_field
                           (if truthy (Model.model_type model)
                            then Some
                                   (format_model_type_to_external_model_type
                                      (text (Model.model_type model)))
                            else None))))
          = wire_model_type (Model.model_type model)) as ->.
  { unfold wire_model_type. by destruct (truthy (Model.model_type model)). }
  fold (empty_if_none (Model.latest_version_id model)).
  fold (empty_if_none (Model.description model)).
  fold (read_back model created_at modified_at).
  by destruct (Model.validate _ w) as [[[] | e] w'].
Qed.

End Round_trip.

Section Round_trip_claim.
Context `{Collaborators}.

Lemma read_back_same model created_at modified_at :
  truthy (Model.model_id model) = true →
  truthy (Model.project_id model) = true →
  truthy (Model.name model) = true →
  truthy (Model.sub_model_type model) = true →
  truthy (Model.latest_version_id model) = true →
  truthy (Model.description model) = true →
  truthy (Model.directory_id model) = true →
  wire_model_type (Model.model_type model) = Model.model_type model →
  Model.created_at model = Some created_at →
  Model.modified_at model = Some modified_at →
  read_back model created_at modified_at = model.
Proof.
  assert (∀ o, truthy o = true → none_if_empty o = o ∧ empty_if_none o = o)
    as Hsame.
  { intros o Ho. unfold none_if_empty, empty_if_none. rewrite Ho.
    by destruct o. }
  intros [H1 _]%Hsame [H2 _]%Hsame [H3 _]%Hsame [H4 _]%Hsame [_ H5]%Hsame
    [_ H6]%Hsame [_ H7]%Hsame Htype Hc Hm.
  unfold read_back. rewrite H1, H2, H3, H4, H5, H6, H7, Htype, <- Hc, <- Hm.
  by destruct model.
Qed.

(** C4, as the code has it.  When [from_proto] accepts the wire form of a
    model built from a store row (its ids not being aliases), the model it
    returns has: [model_id], [project_id], [name] and [sub_model_type] as in
    the original, an empty string having become [None]; [latest_version_id],
    [description] and [directory_id] as in the original, [None] having
    become the empty string; [model_type] passed through the two format
    functions; and [created_at] and [modified_at] equal to the original
    integers, which were set.  In particular the model comes back identical
    when those seven string fields are non-empty and the model type
    survives the two format functions. *)
Theorem round_trip_fields (row : ModelRow.t) (w w' : World) (back : Model.t) :
  let model := Model.from_namedtuple row in
  (truthy (Model.model_id model) = true →
   is_alias (Model.model_id model) = false) →
  (truthy (Model.directory_id model) = true →
   is_alias (Model.directory_id model) = false) →
  Model.from_proto (Model.to_proto model) w = (Returned back, w') →
  Model.model_id back = none_if_empty (Model.model_id model)
  ∧ Model.project_id back = none_if_empty (Model.project_id model)
  ∧ Model.name back = none_if_empty (Model.name model)
  ∧ Model.sub_model_type back = none_if_empty (Model.sub_model_type model)
  ∧ Model.latest_version_id back
    = empty_if_none (Model.latest_version_id model)
  ∧ Model.description back = empty_if_none (Model.description model)
  ∧ Model.directory_id back = empty_if_none (Model.directory_id model)
  ∧ Model.model_type back = wire_model_type (Model.model_type model)
  ∧ (Model.created_at back = Model.created_at model
     ∧ is_Some (Model.created_at model))
  ∧ (Model.modified_at back = Model.modified_at model
     ∧ is_Some (Model.modified_at model))
  ∧ (Forall (λ field, truthy field = true)
       [Model.model_id model; Model.project_id model; Model.name model;
        Model.sub_model_type model; Model.latest_version_id model;
        Model.description model; Model.directory_id model] →
     wire_model_type (Model.model_type model) = Model.model_type model →
     back = model).
Proof.
  intros model. clearbody model. intros Hid Hdir.
  rewrite from_proto_to_proto_run by done.
  destruct (Model.created_at model) as [created_at|] eqn:Hc; [| done].
  destruct (Model.modified_at model) as [modified_at|] eqn:Hm; [| done].
  cbn zeta. destruct (Model.validate _ w) as [[[] | e] w1]; [| done].
  intros [= <- _]. cbn [read_back Model.model_id Model.project_id Model.name
    Model.sub_model_type Model.latest_version_id Model.description
    Model.directory_id Model.model_type Model.created_at Model.modified_at].
  repeat split; eauto.
  intros Hset Htype.
  repeat match goal with
         | Hl : Forall _ (_ :: _) |- _ => apply Forall_cons in Hl as [? Hl]
         end.
  by apply read_back_same.
Qed.

End Round_trip_claim.

Section Round_trip_instance.
#[local] Existing Instance ex_collaborators.

(** The claim as first stated had every contract field come back
    identical: a model outside any directory has [directory_id] [None] in
    its row and the empty string after the round trip. *)
Lemma round_trip_loses_none :
  let model := Model.from_namedtuple (ex_model "m2" "p1" "b" None) in
  ∃ back w',
    Model.from_proto (Model.to_proto model) ex_world = (Returned back, w')
    ∧ Model.directory_id model = None
    ∧ Model.directory_id back = Some ""
    ∧ Model.directory_id back ≠ Model.directory_id model.
Proof.
  cbn zeta. eexists _, _. split; [vm_compute; reflexivity |].
  split; [reflexivity |]. split; [reflexivity | discriminate].
Defined.

End Round_trip_instance.

(** ** Worked instances *)

Section Directory_remark.
Context `{Collaborators}.

(** Under a gateway whose [fetchone=False] directory query returns an empty
    list instead of failing, the directory block accepts any directory
    id. *)
Lemma directory_check_silent (self : Model.t) (w : World) :
  directory_query_raises = false →
  (Model.validate_directory self w).1 = Returned tt.
Proof.
  intros Hquiet. rewrite model_validate_directory_run, Hquiet.
  destruct (truthy (Model.directory_id self)); [| done]. cbn zeta.
  by destruct (filter _ (directories w)).
Qed.

End Directory_remark.

Section Instances.
#[local] Existing Instance ex_collaborators.

Lemma ex_world_model_keys : model_keys_ok ex_world.
Proof. split; by_evaluation. Qed.

Lemma validate_identity_checks_witness :
  (∃ message,
     Model.validate (ex_entity "m9" None None None) ex_world
     = (Raised (Raise NoModelException message),
        log (QueryRecords tbl_model true [("model_id", VStr "m9")]) ex_world))
  ∧ Model.validate (ex_entity "m1" (Some "p2") None None) ex_world
    = (Raised (Raise InvalidInputException
                 "The model does not belong to the specified project"),
       log (QueryRecords tbl_model true [("model_id", VStr "m1")]) ex_world)
  ∧ Model.validate (ex_entity "@legacy" (Some "p1") None None) ex_world
    = (Raised (Raise InvalidInputException "Resolve the alias before usage"),
       log (QueryRecords tbl_model true [("model_id", VStr "@legacy")])
         ex_world).
Proof.
  split; [| split].
  - apply (proj1 (@validate_identity_checks ex_collaborators ex_world)
             (ex_entity "m9" None None None)); reflexivity.
  - apply (proj1 (@validate_identity_checks ex_collaborators ex_world)
             (ex_entity "m1" (Some "p2") None None) eq_refl)
      with (record := ex_model "m1" "p1" "a" (Some "d1"));
      [reflexivity | reflexivity | discriminate].
  - apply (proj1 (@validate_identity_checks ex_collaborators ex_world)
             (ex_entity "@legacy" (Some "p1") None None) eq_refl)
      with (record := ex_model "@legacy" "p1" "z" None);
      [reflexivity | by right | reflexivity].
Defined.

Lemma validate_name_rule_witness :
  (Model.validate (ex_entity "m1" (Some "p1") (Some "b") None) ex_world).1
  = Raised (Raise InvalidInputException "A model with name b already exists")
  ∧ (ValidateFilename "renamed"
       ∈ issued (Model.validate
                   (ex_entity "m1" (Some "p1") (Some "renamed") None))
           ex_world)
  ∧ ¬ (ValidateFilename "a"
         ∈ issued (Model.validate (ex_entity "m1" (Some "p1") (Some "a") None))
             ex_world).
Proof.
  split; [| split].
  - apply (proj1 (@validate_name_rule ex_collaborators ex_world)
             (ex_entity "m1" (Some "p1") (Some "b") None)
             (log (QueryRecords tbl_model true [("model_id", VStr "m1")])
                ex_world) ex_world_model_keys eq_refl eq_refl).
    by_evaluation.
  - apply (proj1 (@validate_name_rule ex_collaborators ex_world)
             (ex_entity "m1" (Some "p1") (Some "renamed") None)
             (log (QueryRecords tbl_model true [("model_id", VStr "m1")])
                ex_world) ex_world_model_keys eq_refl eq_refl).
    + by_evaluation.
    + discriminate.
    + vm_compute. discriminate.
  - intros Hin.
    apply (proj1 (@validate_name_rule ex_collaborators ex_world)
             (ex_entity "m1" (Some "p1") (Some "a") None)
             (log (QueryRecords tbl_model true [("model_id", VStr "m1")])
                ex_world) ex_world_model_keys eq_refl eq_refl) in Hin.
    + vm_compute in Hin. by apply Hin.
    + by_evaluation.
    + discriminate.
Defined.

Lemma sibling_scope_is_in_memory_witness :
  (Model.validate (ex_entity "m3" None (Some "a") None) ex_world).1
  = Raised (Raise InvalidInputException "A model with name a already exists")
  ∧ model_record ex_world (Some "m3") = Some (ex_model "m3" "p2" "c" None)
  ∧ ¬ (Some "a"
         ∈ ModelRow.name <$> sibling_models ex_world (Some "p2") (Some "m3")).
Proof.
  split; [| split; [reflexivity | by_evaluation]].
  apply (proj1 (proj2 (@sibling_scope_is_in_memory ex_collaborators
                         (ex_entity "m3" None (Some "a") None) ex_world
                         (log (QueryRecords tbl_model true
                                 [("model_id", VStr "m3")]) ex_world)
                         eq_refl eq_refl))).
  - exact ex_world_model_keys.
  - by_evaluation.
Defined.

Lemma directory_type_check_witness :
  Model.validate (ex_entity "m1" (Some "p1") (Some "a") (Some "d2")) ex_world
  = (Raised (Raise InvalidInputException
               "Model cannot be in different directory type"),
     log (QueryRecords tbl_directory false
            [("directory_id", VStr "d2"); ("project_id", VStr "p1");
             ("type", VType ct_model)])
       (log (QueryRecords tbl_model false [("project_id", VStr "p1")])
          (log (QueryRecords tbl_model true [("model_id", VStr "m1")])
             ex_world)))
  ∧ DirectoryRow.Build (Some "d2") (Some "p1") (ct_other "dataset")
    ∈ directories ex_world.
Proof.
  split; [| by_evaluation].
  apply (@directory_type_check ex_collaborators
           (ex_entity "m1" (Some "p1") (Some "a") (Some "d2")) ex_world
           (log (QueryRecords tbl_model false [("project_id", VStr "p1")])
              (log (QueryRecords tbl_model true [("model_id", VStr "m1")])
                 ex_world))).
  - reflexivity.
  - vm_compute. reflexivity.
  - reflexivity.
  - apply (proj1 (Forall_forall
             (λ d, DirectoryRow.directory_id d = Some "d2" →
                   in_scope (Some "p1") (DirectoryRow.project_id d) →
                   DirectoryRow.type d ≠ ct_model) (directories ex_world))).
    by_evaluation.
Defined.

Lemma collection_delete_aborts_witness :
  (Models.delete (Some "p1") None ex_world).1
  = Raised (Raise InvalidInputException "Resolve the alias before usage")
  ∧ ex_model "m2" "p1" "b" None
    ∈ models (Models.delete (Some "p1") None ex_world).2.
Proof.
  pose (members :=
          Model.from_namedtuple
            <$> [ex_model "m1" "p1" "a" (Some "d1");
                 ex_model "@legacy" "p1" "z" None;
                 ex_model "m2" "p1" "b" None]).
  pose (w0 := (Models.pull (Some "p1") None ex_world).2).
  pose (w1 := (Model.delete
                 (Model.from_namedtuple (ex_model "m1" "p1" "a" (Some "d1")))
                 w0).2).
  assert (Models.pull (Some "p1") None ex_world
          = (Returned (Models.Build members), w0)) as Hpull
    by (vm_compute; reflexivity).
  destruct (proj1 (@collection_delete_aborts ex_collaborators ex_world)
              (Some "p1") None (Models.Build members) w0 Hpull)
    as (_ & _ & Habort).
  rewrite (Habort
             [Model.from_namedtuple (ex_model "m1" "p1" "a" (Some "d1"))]
             (Model.from_namedtuple (ex_model "@legacy" "p1" "z" None))
             [Model.from_namedtuple (ex_model "m2" "p1" "b" None)]
             w1
             (Raise InvalidInputException "Resolve the alias before usage")
             w1).
  - split; [reflexivity | by_evaluation].
  - reflexivity.
  - vm_compute. reflexivity.
  - vm_compute. reflexivity.
Defined.

Lemma round_trip_fields_witness :
  let row := ex_model "m1" "p1" "a" (Some "d1") in
  let back :=
    Model.Build (Some "m1") (Some "p1") (Some "a") (Some "") (Some "forecast")
      None (Some "") (Some "d1") (Some 1672549140%Z) (Some 1672549140%Z) in
  (Model.from_proto (Model.to_proto (Model.from_namedtuple row)) ex_world).1
  = Returned back
  ∧ Model.directory_id back
    = empty_if_none (Model.directory_id (Model.from_namedtuple row))
  ∧ Model.created_at back = Model.created_at (Model.from_namedtuple row).
Proof.
  intros row back.
  assert (Model.from_proto (Model.to_proto (Model.from_namedtuple row))
            ex_world
          = (Returned back,
             (Model.from_proto (Model.to_proto (Model.from_namedtuple row))
                ex_world).2)) as Hrun
    by (vm_compute; reflexivity).
  split; [by rewrite Hrun |].
  destruct (@round_trip_fields ex_collaborators row ex_world _ back
              ltac:(intros _; vm_compute; reflexivity)
              ltac:(intros _; vm_compute; reflexivity) Hrun)
    as (_ & _ & _ & _ & _ & _ & Hdirectory & _ & [Hcreated _] & _).
  by split.
Defined.

End Instances.

(** * Further properties of the code *)

(** ** Operations that only read *)

Section Read_only.
Context `{Collaborators}.

Lemma same_store_refl w : same_store w w.
Proof. by repeat split. Qed.

Lemma same_store_trans w1 w2 w3 :
  same_store w1 w2 → same_store w2 w3 → same_store w1 w3.
Proof.
  unfold same_store. intros (-> & -> & -> & -> & -> & ->).
  by intros (-> & -> & -> & -> & -> & ->).
Qed.

Lemma read_only_ret {A} (a : A) : read_only (mret a).
Proof. intros w. split; [apply same_store_refl |]. exists []. by rewrite app_nil_r. Qed.

Lemma read_only_raise {A} c msg : read_only (@raise A c msg).
Proof. intros w. split; [apply same_store_refl |]. exists []. by rewrite app_nil_r. Qed.

Lemma read_only_get_world : read_only get_world.
Proof. intros w. split; [apply same_store_refl |]. exists []. by rewrite app_nil_r. Qed.

Lemma read_only_emit e : read_only (emit e).
Proof. intros w. split; [by repeat split |]. by exists [e]. Qed.

Lemma read_only_bind {A B} (m : M A) (f : A → M B) :
  read_only m → (∀ a, read_only (f a)) → read_only (m ≫= f).
Proof.
  intros Hm Hf w. rewrite bind_run. destruct (Hm w) as [Hs [l Hl]].
  destruct (m w) as [[a | e] w1]; [| eauto].
  destruct (Hf a w1) as [Hs' [l' Hl']]. cbn [snd] in *. split.
  - by eapply same_store_trans.
  - exists (l ++ l'). by rewrite Hl', Hl, app_assoc.
Qed.

Lemma read_only_when b (m : M unit) : read_only m → read_only (when b m).
Proof. destruct b; [done |]. intros _. apply read_only_ret. Qed.

Lemma read_only_try_except {A} (m : M A) cls handler :
  read_only m → (∀ e, read_only (handler e)) →
  read_only (try_except m cls handler).
Proof.
  intros Hm Hh w. unfold try_except. destruct (Hm w) as [Hs [l Hl]].
  destruct (m w) as [[a | e] w1]; [eauto |].
  case_bool_decide; [| eauto].
  destruct (Hh e w1) as [Hs' [l' Hl']]. cbn [snd] in *. split.
  - by eapply same_store_trans.
  - exists (l ++ l'). by rewrite Hl', Hl, app_assoc.
Qed.

Lemma read_only_query_one {R} (T : TableOps R) filters :
  read_only (DatabaseClient.query_one T filters).
Proof.
  unfold DatabaseClient.query_one.
  apply read_only_bind; [apply read_only_emit | intros _].
  apply read_only_bind; [apply read_only_get_world | intros w].
  destruct (filter _ _); [apply read_only_raise | apply read_only_ret].
Qed.

Lemma read_only_query_many {R} (T : TableOps R) filters :
  read_only (DatabaseClient.query_many T filters).
Proof.
  unfold DatabaseClient.query_many.
  apply read_only_bind; [apply read_only_emit | intros _].
  apply read_only_bind; [apply read_only_get_world | intros w].
  destruct (filter _ _); [| apply read_only_ret].
  destruct (table_strict T); [apply read_only_raise | apply read_only_ret].
Qed.

Lemma read_only_to_project_component_id id project :
  read_only (to_project_component_id id project).
Proof.
  unfold to_project_component_id.
  apply read_only_bind; [apply read_only_emit | intros _].
  apply read_only_bind; [apply read_only_get_world | intros w].
  destruct (filter _ _); [apply read_only_raise | apply read_only_ret].
Qed.

Lemma read_only_run_validate_filename name :
  read_only (run_validate_filename name).
Proof.
  unfold run_validate_filename.
  apply read_only_bind; [apply read_only_emit | intros _].
  destruct (validate_filename name); [apply read_only_raise | apply read_only_ret].
Qed.

Lemma read_only_invalid_name prefix e : read_only (invalid_name prefix e).
Proof. unfold invalid_name. destruct (error_code _); apply read_only_raise. Qed.

End Read_only.

(** Solves [read_only] goals by following the shape of the operation. *)
Ltac read_only_step :=
  first
    [ apply read_only_ret
    | apply read_only_raise
    | apply read_only_emit
    | apply read_only_get_world
    | apply read_only_query_one
    | apply read_only_query_many
    | apply read_only_to_project_component_id
    | apply read_only_run_validate_filename
    | apply read_only_invalid_name
    | apply read_only_when
    | apply read_only_try_except; [| intros ?]
    | apply read_only_bind; [| intros ?]
    | match goal with
      | |- read_only (if ?b then _ else _) => destruct b
      | |- read_only (match ?x with _ => _ end) => destruct x
      end ].

Ltac read_only_auto := repeat read_only_step.

Section Read_only_entities.
Context `{Collaborators}.

Lemma read_only_model_resolve_alias id project :
  read_only (Model.resolve_alias id project).
Proof. unfold Model.resolve_alias. read_only_auto. Qed.

Lemma read_only_model_resolve_directory_alias id project :
  read_only (Model.resolve_directory_alias id project).
Proof. unfold Model.resolve_directory_alias. read_only_auto. Qed.

Lemma read_only_version_resolve_alias id project :
  read_only (ModelVersion.resolve_alias id project).
Proof. unfold ModelVersion.resolve_alias. read_only_auto. Qed.

Lemma read_only_model_validate self : read_only (Model.validate self).
Proof.
  unfold Model.validate, Model.validate_existing, Model.validate_name,
    Model.validate_directory, Model._query_one, Model._query_many.
  read_only_auto.
Qed.

Lemma read_only_version_validate self :
  read_only (ModelVersion.validate self).
Proof.
  unfold ModelVersion.validate, ModelVersion.validate_existing,
    ModelVersion.validate_version, ModelVersion._query_one,
    ModelVersion._query_many.
  read_only_auto.
Qed.

Lemma read_only_model_pull model_id project_id :
  read_only (Model.pull model_id project_id).
Proof.
  unfold Model.pull, Model._query_one.
  repeat first [apply read_only_model_resolve_alias | read_only_step].
Qed.

Lemma read_only_version_pull version_id model_id project_id :
  read_only (ModelVersion.pull version_id model_id project_id).
Proof.
  unfold ModelVersion.pull, ModelVersion._query_one.
  repeat first [apply read_only_version_resolve_alias | read_only_step].
Qed.

Lemma read_only_model_from_proto obj_proto :
  read_only (Model.from_proto obj_proto).
Proof.
  unfold Model.from_proto, Model.timestamp.
  repeat first
    [ apply read_only_model_resolve_alias
    | apply read_only_model_resolve_directory_alias
    | apply read_only_model_validate
    | read_only_step ].
Qed.

End Read_only_entities.

Section Read_only_collections.
Context `{Collaborators}.

Lemma read_only_models_resolve_directory_alias id project :
  read_only (Models.resolve_directory_alias id project).
Proof.
  unfold Models.resolve_directory_alias.
  repeat first [apply read_only_to_project_component_id | read_only_step].
Qed.

Lemma read_only_models_pull project_id directory_id :
  read_only (Models.pull project_id directory_id).
Proof.
  unfold Models.pull, Models.scope_directory, Models._query.
  repeat first [apply read_only_models_resolve_directory_alias
               | read_only_step].
Qed.

Lemma read_only_models_count project_id directory_id :
  read_only (Models.count project_id directory_id).
Proof.
  unfold Models.count, Models.scope_directory, Models._query.
  repeat first [apply read_only_models_resolve_directory_alias
               | read_only_step].
Qed.

Lemma read_only_versions_pull model_id model_ids :
  read_only (ModelVersions.pull model_id model_ids).
Proof. unfold ModelVersions.pull, ModelVersions._query. read_only_auto. Qed.

Lemma read_only_versions_count model_id model_ids :
  read_only (ModelVersions.count model_id model_ids).
Proof. unfold ModelVersions.count, ModelVersions._query. read_only_auto. Qed.

(** X1. Validation, the pulls, the counts and the reading of a wire message
    never change a table or a blob object, whether they return or raise:
    they only add to the record of calls. *)
Theorem reads_leave_the_store :
  (∀ self, read_only (Model.validate self))
  ∧ (∀ self, read_only (ModelVersion.validate self))
  ∧ (∀ model_id project_id, read_only (Model.pull model_id project_id))
  ∧ (∀ version_id model_id project_id,
       read_only (ModelVersion.pull version_id model_id project_id))
  ∧ (∀ project_id directory_id,
       read_only (Models.pull project_id directory_id))
  ∧ (∀ project_id directory_id,
       read_only (Models.count project_id directory_id))
  ∧ (∀ model_id model_ids, read_only (ModelVersions.pull model_id model_ids))
  ∧ (∀ model_id model_ids,
       read_only (ModelVersions.count model_id model_ids))
  ∧ (∀ obj_proto, read_only (Model.from_proto obj_proto)).
Proof.
  split; [exact read_only_model_validate |].
  split; [exact read_only_version_validate |].
  split; [exact read_only_model_pull |].
  split; [exact read_only_version_pull |].
  split; [exact read_only_models_pull |].
  split; [exact read_only_models_count |].
  split; [exact read_only_versions_pull |].
  split; [exact read_only_versions_count |].
  exact read_only_model_from_proto.
Qed.

(** X2. [count] is the length of what [pull] returns: on the same
    arguments both issue the same calls, fail with the same exception, and
    when [pull] returns a collection [count] returns its size. *)
Theorem count_is_length_of_pull (w : World) :
  (∀ project_id directory_id,
     Models.count project_id directory_id w =
     match Models.pull project_id directory_id w with
     | (Returned pulled, w') => (Returned (length (Models.models pulled)), w')
     | (Raised e, w') => (Raised e, w')
     end)
  ∧ (∀ model_id model_ids,
     ModelVersions.count model_id model_ids w =
     match ModelVersions.pull model_id model_ids w with
     | (Returned pulled, w') =>
         (Returned (length (ModelVersions.versions pulled)), w')
     | (Raised e, w') => (Raised e, w')
     end).
Proof.
  split.
  - intros project_id directory_id. unfold Models.count, Models.pull.
    rewrite !bind_run.
    destruct (when _ _ w) as [[[] | e] w1]; [| done]. rewrite !bind_run.
    destruct (Models.scope_directory _ _ w1) as [[d | e] w2]; [| done].
    rewrite !bind_run.
    destruct (Models._query _ _ w2) as [[rows | e] w3]; [| done].
    cbn. by rewrite length_fmap.
  - intros model_id model_ids. unfold ModelVersions.count, ModelVersions.pull.
    rewrite !bind_run.
    destruct (when _ _ w) as [[[] | e] w1]; [| done]. rewrite !bind_run.
    destruct (ModelVersions._query _ _ w1) as [[rows | e] w2]; [| done].
    cbn. by rewrite length_fmap.
Qed.

End Read_only_collections.

(** ** What the collection pulls return *)

Section Pulls.
Context `{Collaborators}.

Lemma models_by_scope_matches project_id directory_id r :
  row_matches ModelRow.column
    [("project_id", of_opt project_id); ("directory_id", of_opt directory_id)]
    r = true
  ↔ in_scope project_id (ModelRow.project_id r)
    ∧ in_scope directory_id (ModelRow.directory_id r).
Proof.
  rewrite !row_matches_cons, andb_true_r, andb_true_iff.
  change (ModelRow.column r "project_id")
    with (of_opt (ModelRow.project_id r)).
  change (ModelRow.column r "directory_id")
    with (of_opt (ModelRow.directory_id r)).
  by rewrite !cell_matches_of_opt.
Qed.

Lemma models_query_run project_id directory_id w :
  Models._query project_id directory_id w =
  (Returned
     (filter (λ r, in_scope project_id (ModelRow.project_id r)
                   ∧ in_scope directory_id (ModelRow.directory_id r))
        (models w)),
   log (QueryRecords tbl_model false
          [("project_id", of_opt project_id);
           ("directory_id", of_opt directory_id)]) w).
Proof.
  unfold Models._query. rewrite query_many_lenient by done.
  cbn [table_rows table_column table_name model_table].
  by rewrite (list_filter_iff _ _ _ (models_by_scope_matches _ _)).
Qed.

(** X3. [Models.pull] of a project returns, in store order, the models of
    that project, narrowed to a directory when one is given.  A directory id
    that is an alias is first resolved within the project; when the project
    has no such alias the pull fails with the resolver's
    NoProjectAliasException and the model table is not queried. *)
Theorem models_pull_scope (project_id directory_id : option string)
    (w : World) :
  truthy project_id = true →
  let rows_in directory w' :=
    (Returned
       (Models.Build
          (Model.from_namedtuple
             <$> filter (λ r, ModelRow.project_id r = project_id
                              ∧ in_scope directory (ModelRow.directory_id r))
                   (models w))),
     log (QueryRecords tbl_model false
            [("project_id", of_opt project_id);
             ("directory_id", of_opt directory)]) w') in
  let resolve := ResolveComponentId directory_id project_id in
  (truthy directory_id = false →
     Models.pull project_id directory_id w = rows_in None w)
  ∧ (truthy directory_id = true → is_alias directory_id = false →
     Models.pull project_id directory_id w = rows_in directory_id w)
  ∧ (truthy directory_id = true → is_alias directory_id = true →
     ∀ target, alias_mapping w directory_id project_id = Some target →
     Models.pull project_id directory_id w = rows_in target (log resolve w))
  ∧ (truthy directory_id = true → is_alias directory_id = true →
     alias_mapping w directory_id project_id = None →
     ∃ message,
       Models.pull project_id directory_id w
       = (Raised (Raise NoProjectAliasException message), log resolve w)).
Proof.
  intros Hp. cbn zeta.
  assert (∀ d w',
            models w' = models w →
            (Models._query project_id d ≫= λ rows,
               mret (Models.Build (Model.from_namedtuple <$> rows))) w'
            = (Returned
                 (Models.Build
                    (Model.from_namedtuple
                       <$> filter (λ r, ModelRow.project_id r = project_id
                                        ∧ in_scope d (ModelRow.directory_id r))
                             (models w))),
               log (QueryRecords tbl_model false
                      [("project_id", of_opt project_id);
                       ("directory_id", of_opt d)]) w')) as Hquery.
  { intros d w' Hm. rewrite bind_run, models_query_run, Hm.
    rewrite (list_filter_iff _
      (λ r, ModelRow.project_id r = project_id
            ∧ in_scope d (ModelRow.directory_id r))); [done |].
    intros r. apply truthy_inv in Hp as (p & -> & _).
    by rewrite in_scope_Some. }
  unfold Models.pull, Models.scope_directory, Models.resolve_directory_alias.
  rewrite Hp. cbn [negb when]. rewrite bind_ret_run.
  split; [| split; [| split]].
  - intros Hd. rewrite Hd. cbn [truthy]. rewrite bind_ret_run. by apply Hquery.
  - intros Hd Ha. rewrite Hd, Hd, Ha. cbn [negb]. rewrite bind_ret_run.
    by apply Hquery.
  - intros Hd Ha target Ht. rewrite Hd, Hd, Ha. cbn [negb].
    rewrite bind_run, to_project_component_id_run, Ht. cbn zeta.
    by apply Hquery.
  - intros Hd Ha Hn. rewrite Hd, Hd, Ha. cbn [negb].
    rewrite bind_run, to_project_component_id_run, Hn. cbn zeta. eauto.
Qed.

End Pulls.

Section Pulls_instance.
#[local] Existing Instance ex_collaborators.

Lemma models_pull_scope_witness :
  Models.pull (Some "p1") (Some "d1") ex_world
  = (Returned
       (Models.Build
          (Model.from_namedtuple
             <$> filter (λ r, ModelRow.project_id r = Some "p1"
                              ∧ in_scope (Some "d1") (ModelRow.directory_id r))
                   (models ex_world))),
     log (QueryRecords tbl_model false
            [("project_id", VStr "p1"); ("directory_id", VStr "d1")])
       ex_world).
Proof.
  apply (proj1 (proj2 (@models_pull_scope ex_collaborators (Some "p1")
                         (Some "d1") ex_world eq_refl))); reflexivity.
Defined.

End Pulls_instance.

Section Version_pulls.
Context `{Collaborators}.

Lemma versions_by_list_matches model_id model_ids r :
  row_matches ModelVersionRow.column
    [("model_id", of_opt model_id); ("model_ids", of_opt_list model_ids)] r
  = true
  ↔ in_scope model_id (ModelVersionRow.model_id r)
    ∧ among model_ids (ModelVersionRow.model_id r).
Proof.
  rewrite !row_matches_cons, andb_true_r, andb_true_iff.
  change (ModelVersionRow.column r "model_id")
    with (of_opt (ModelVersionRow.model_id r)).
  change (ModelVersionRow.column r "model_ids")
    with (of_opt (ModelVersionRow.model_id r)).
  rewrite cell_matches_of_opt.
  destruct model_ids as [l|], (ModelVersionRow.model_id r) as [s|]; cbn;
    rewrite ?bool_decide_eq_true; naive_solver.
Qed.

(** X4. [ModelVersions.pull] with a model id, a non-empty list of model
    ids, or both, returns in store order the versions whose [model_id]
    equals the id (when given) and is a member of the list (when given). *)
Theorem versions_pull_scope (model_id : option string)
    (model_ids : option (list string)) (w : World) :
  truthy model_id = true ∨ (∃ x l, model_ids = Some (x :: l)) →
  ModelVersions.pull model_id model_ids w
  = (Returned
       (ModelVersions.Build
          (ModelVersion.from_namedtuple
             <$> filter (λ r, in_scope model_id (ModelVersionRow.model_id r)
                              ∧ among model_ids (ModelVersionRow.model_id r))
                   (model_versions w))),
     log (QueryRecords tbl_model_version false
            [("model_id", of_opt model_id);
             ("model_ids", of_opt_list model_ids)]) w).
Proof.
  intros Hgiven. unfold ModelVersions.pull.
  assert (negb (truthy model_id) && ModelVersions.falsy_list model_ids = false)
    as ->.
  { destruct Hgiven as [-> | (x & l & ->)]; [done |]. apply andb_false_r. }
  cbn [when]. rewrite bind_ret_run, bind_run.
  unfold ModelVersions._query. rewrite query_many_lenient by done.
  cbn [table_rows table_column table_name model_version_table].
  by rewrite (list_filter_iff _ _ _ (versions_by_list_matches _ _)).
Qed.

End Version_pulls.

Section Version_pulls_instance.
#[local] Existing Instance ex_collaborators.

Lemma versions_pull_scope_witness :
  ModelVersions.pull None (Some ["m1"; "m9"]) ex_world
  = (Returned
       (ModelVersions.Build
          (ModelVersion.from_namedtuple
             <$> filter (λ r, in_scope None (ModelVersionRow.model_id r)
                              ∧ among (Some ["m1"; "m9"])
                                  (ModelVersionRow.model_id r))
                   (model_versions ex_world))),
     log (QueryRecords tbl_model_version false
            [("model_id", VNone); ("model_ids", VList ["m1"; "m9"])])
       ex_world).
Proof.
  apply (@versions_pull_scope ex_collaborators None (Some ["m1"; "m9"])
           ex_world).
  right. by eexists _, _.
Defined.

End Version_pulls_instance.

(** ** Pulling one entity *)

Section Entity_pulls.
Context `{Collaborators}.

Lemma filter_none {A} (P : A → Prop) `{∀ x, Decision (P x)} (l : list A) :
  (∀ x, x ∈ l → ¬ P x) → filter P l = [].
Proof.
  induction l as [| x l IH]; [done |]. intros Hno.
  rewrite filter_cons_False by (apply Hno; set_solver).
  apply IH. intros y Hy. apply Hno. set_solver.
Qed.

Lemma filter_key_singleton {R} (key : R → option string) l id r :
  NoDup (key <$> l) → r ∈ l → key r = id →
  filter (λ x, key x = id) l = [r].
Proof.
  induction l as [| x l IH]; [set_solver |].
  rewrite fmap_cons, NoDup_cons, elem_of_cons. intros [Hx Hnd] Hin Hk.
  destruct (decide (key x = id)) as [Hkx | Hkx].
  - rewrite filter_cons_True by done.
    assert (r = x) as ->.
    { destruct Hin as [-> | Hin]; [done |]. exfalso. apply Hx.
      rewrite Hkx, <- Hk. apply list_elem_of_fmap. eauto. }
    f_equal. apply filter_none. intros y Hy Hky. apply Hx.
    rewrite Hkx, <- Hky. apply list_elem_of_fmap. eauto.
  - rewrite filter_cons_False by done.
    destruct Hin as [-> | Hin]; [done |]. by apply IH.
Qed.

Lemma model_pull_resolved model_id project_id w :
  truthy model_id = true → is_alias model_id = false →
  Model.pull model_id project_id w = Model.pull model_id None w.
Proof.
  intros Hid Ha. unfold Model.pull, Model.resolve_alias. by rewrite Hid, Ha.
Qed.

(** X5. Pulling a model by an alias is the resolver call followed by the
    pull of the canonical id the alias maps to: same outcome, and the calls
    are the resolver call and then those of the canonical pull.  An alias
    that the project does not know fails with NoProjectAliasException after
    the resolver call alone, and an alias given without a project fails with
    InvalidInputException before any call. *)
Theorem model_pull_through_alias (alias project_id : option string)
    (w : World) :
  truthy alias = true → is_alias alias = true →
  (truthy project_id = false →
     Model.pull alias project_id w
     = (Raised (Raise InvalidInputException
                  "Project must be provided with an alias"), w))
  ∧ (truthy project_id = true →
     alias_mapping w alias project_id = None →
     (∃ message,
        (Model.pull alias project_id w).1
        = Raised (Raise NoProjectAliasException message))
     ∧ issued (Model.pull alias project_id) w
       = [ResolveComponentId alias project_id])
  ∧ (truthy project_id = true →
     ∀ target,
       alias_mapping w alias project_id = Some target →
       truthy target = true → is_alias target = false →
       (Model.pull alias project_id w).1 = (Model.pull target None w).1
       ∧ issued (Model.pull alias project_id) w
         = ResolveComponentId alias project_id
           :: issued (Model.pull target None) w).
Proof.
  intros Hid Ha. split; [| split].
  - intros Hp. unfold Model.pull, Model.resolve_alias.
    by rewrite Hid, Ha, Hp.
  - intros Hp Hn.
    assert (Model.pull alias project_id w
            = (Raised (Raise NoProjectAliasException
                         (not_found_message tbl_project_alias
                            [("alias", of_opt alias);
                             ("project_id", of_opt project_id)])),
               log (ResolveComponentId alias project_id) w)) as Hrun.
    { unfold Model.pull, Model.resolve_alias.
      rewrite Hid, Ha, Hp. cbn [negb when].
      by rewrite bind_ret_run, bind_run, to_project_component_id_run, Hn. }
    split; [rewrite Hrun; eauto |]. apply issued_spec. by rewrite Hrun.
  - intros Hp target Ht Htruthy Hcanonical.
    assert (Model.pull alias project_id w
            = (Model._query_one [("model_id", of_opt target)] ≫= λ row,
                 mret (Model.from_namedtuple row))
                (log (ResolveComponentId alias project_id) w)) as Hrun.
    { unfold Model.pull, Model.resolve_alias.
      rewrite Hid, Ha, Hp. cbn [negb when].
      by rewrite bind_ret_run, bind_run, to_project_component_id_run, Ht. }
    rewrite bind_run, model_query_one_run in Hrun by done. cbn zeta in Hrun.
    change (model_record (log _ w) target) with (model_record w target)
      in Hrun.
    pose proof (model_pull_run target w Htruthy Hcanonical) as Hdirect.
    cbn zeta in Hdirect.
    rewrite (issued_spec (Model.pull alias project_id) w
               [ResolveComponentId alias project_id;
                QueryRecords tbl_model true [("model_id", of_opt target)]]),
      (issued_spec (Model.pull target None) w
         [QueryRecords tbl_model true [("model_id", of_opt target)]]).
    + rewrite Hrun, Hdirect. by destruct (model_record w target).
    + rewrite Hdirect. by destruct (model_record w target).
    + rewrite Hrun.
      destruct (model_record w target); simpl; by rewrite <- app_assoc.
Qed.

End Entity_pulls.

Section Entity_pulls_hint.
Context `{Collaborators}.

(** X6. [ModelVersion.pull] with a model id as scope hint returns the
    version's record only when that record belongs to the hinted model: a
    version that exists under another model is reported as not found
    (NoModelException), exactly as a version that does not exist. *)
Theorem version_pull_scope_hint (version_id hint : option string)
    (w : World) (record : ModelVersionRow.t) :
  NoDup (ModelVersionRow.version_id <$> model_versions w) →
  truthy version_id = true → is_alias version_id = false →
  version_record w version_id = Some record →
  let fetch :=
    QueryRecords tbl_model_version true
      [("version_id", of_opt version_id); ("model_id", of_opt hint)] in
  (in_scope hint (ModelVersionRow.model_id record) →
     ModelVersion.pull version_id hint None w
     = (Returned (ModelVersion.from_namedtuple record), log fetch w))
  ∧ (¬ in_scope hint (ModelVersionRow.model_id record) →
     ∃ message,
       ModelVersion.pull version_id hint None w
       = (Raised (Raise NoModelException message), log fetch w)).
Proof.
  intros Hnd Hid Ha Hrec. cbn zeta.
  rewrite version_pull_run by done. cbn zeta.
  apply record_elem_of in Hrec as [Hin Hkey].
  assert (filter (λ r, ModelVersionRow.version_id r = version_id
                       ∧ in_scope hint (ModelVersionRow.model_id r))
            (model_versions w)
          = filter (λ r, in_scope hint (ModelVersionRow.model_id r))
              (filter (λ r, ModelVersionRow.version_id r = version_id)
                 (model_versions w))) as ->.
  { rewrite list_filter_filter. apply list_filter_iff. intros r. tauto. }
  rewrite (filter_key_singleton _ _ _ record) by done.
  split; intros Hscope.
  - by rewrite filter_cons_True.
  - rewrite filter_cons_False by done. eauto.
Qed.

End Entity_pulls_hint.

Section Entity_pulls_instance.
#[local] Existing Instance ex_collaborators.

Lemma model_pull_through_alias_witness :
  (Model.pull (Some "@best") (Some "p1") ex_world).1
  = (Model.pull (Some "m1") None ex_world).1
  ∧ issued (Model.pull (Some "@best") (Some "p1")) ex_world
    = ResolveComponentId (Some "@best") (Some "p1")
      :: issued (Model.pull (Some "m1") None) ex_world.
Proof.
  apply (proj2 (proj2 (@model_pull_through_alias ex_collaborators
                         (Some "@best") (Some "p1") ex_world eq_refl eq_refl))
           eq_refl (Some "m1")); reflexivity.
Defined.

Lemma version_pull_scope_hint_witness :
  ∃ message,
    ModelVersion.pull (Some "v1") (Some "m2") None ex_world
    = (Raised (Raise NoModelException message),
       log (QueryRecords tbl_model_version true
              [("version_id", VStr "v1"); ("model_id", VStr "m2")]) ex_world).
Proof.
  apply (proj2 (@version_pull_scope_hint ex_collaborators (Some "v1")
                  (Some "m2") ex_world (ex_version "v1" "m1" "1")
                  ltac:(by_evaluation) eq_refl eq_refl eq_refl)).
  by_evaluation.
Defined.

End Entity_pulls_instance.

(** ** Deletes: guards and effect on the store *)

Section Delete_guards.
Context `{Collaborators}.

(** [Model.delete] of an identity that has no record stops at the fetch. *)
Lemma model_delete_missing (self : Model.t) (w : World) :
  is_alias (Model.model_id self) = false →
  truthy (Model.model_id self) = true →
  model_record w (Model.model_id self) = None →
  Model.delete self w
  = (Raised (Raise NoModelException
               (not_found_message tbl_model
                  [("model_id", of_opt (Model.model_id self))])),
     log (QueryRecords tbl_model true
            [("model_id", of_opt (Model.model_id self))]) w).
Proof.
  intros Ha Hid Hrec. unfold Model.delete. rewrite Ha. cbn [when].
  rewrite bind_ret_run, bind_run, model_pull_run by done.
  cbn zeta. by rewrite Hrec.
Qed.

(** A [Model.delete] that got through had a resolved, non-empty identity. *)
Lemma model_delete_returned_id (self : Model.t) (w w' : World) :
  Model.delete self w = (Returned tt, w') →
  is_alias (Model.model_id self) = false
  ∧ truthy (Model.model_id self) = true.
Proof.
  intros Hrun.
  destruct (is_alias (Model.model_id self)) eqn:Ha.
  { revert Hrun. unfold Model.delete. by rewrite Ha. }
  destruct (truthy (Model.model_id self)) eqn:Hid; [done |].
  revert Hrun. unfold Model.delete, Model.pull. rewrite Ha, Hid.
  by rewrite !bind_run.
Qed.

(** X7. A delete that does not get past its guards deletes nothing.  An
    identity that is still an alias fails with InvalidInputException and an
    empty identity with NoModelException, both before any call; an identity
    without a record (for a version: without a record under the model the
    entity names) fails with NoModelException after the one fetch, and the
    store is as before. *)
Theorem delete_guards (w : World) :
  (∀ self : Model.t,
     let id := Model.model_id self in
     (is_alias id = true →
        Model.delete self w
        = (Raised (Raise InvalidInputException
                     "Resolve the alias before usage"), w))
     ∧ (is_alias id = false → truthy id = false →
        Model.delete self w
        = (Raised (Raise NoModelException "Model ID must be provided"), w))
     ∧ (is_alias id = false → truthy id = true →
        model_record w id = None →
        ∃ message,
          Model.delete self w
          = (Raised (Raise NoModelException message),
             log (QueryRecords tbl_model true [("model_id", of_opt id)]) w)))
  ∧ (∀ self : ModelVersion.t,
     let id := ModelVersion.version_id self in
     let hint := ModelVersion.model_id self in
     (is_alias id = true →
        ModelVersion.delete self w
        = (Raised (Raise InvalidInputException
                     "Resolve the alias before usage"), w))
     ∧ (is_alias id = false → truthy id = false →
        ModelVersion.delete self w
        = (Raised (Raise NoModelException "Version ID must be provided"), w))
     ∧ (is_alias id = false → truthy id = true →
        (∀ r, r ∈ model_versions w → ModelVersionRow.version_id r = id →
              ¬ in_scope hint (ModelVersionRow.model_id r)) →
        ∃ message,
          ModelVersion.delete self w
          = (Raised (Raise NoModelException message),
             log (QueryRecords tbl_model_version true
                    [("version_id", of_opt id); ("model_id", of_opt hint)])
               w))).
Proof.
  split; intros self; cbn zeta.
  - split; [| split].
    + intros Ha. unfold Model.delete. by rewrite Ha.
    + intros Ha Hid. unfold Model.delete, Model.pull. by rewrite Ha, Hid.
    + intros Ha Hid Hrec. rewrite model_delete_missing by done. eauto.
  - rewrite version_delete_run. cbn zeta. split; [| split].
    + by intros ->.
    + by intros -> ->.
    + intros -> -> Hnone. cbn [negb].
      rewrite filter_none; [eauto |]. intros r Hr [Hv Hs]. by eapply Hnone.
Qed.

End Delete_guards.

Section Delete_guards_instance.
#[local] Existing Instance ex_collaborators.

Lemma delete_guards_witness :
  Model.delete (ex_entity "@legacy" None None None) ex_world
  = (Raised (Raise InvalidInputException "Resolve the alias before usage"),
     ex_world)
  ∧ ∃ message,
      ModelVersion.delete
        (ModelVersion.Build (Some "m2") None (Some "v1") None None None None
           None) ex_world
      = (Raised (Raise NoModelException message),
         log (QueryRecords tbl_model_version true
                [("version_id", VStr "v1"); ("model_id", VStr "m2")])
           ex_world).
Proof.
  split.
  - apply (proj1 (@delete_guards ex_collaborators ex_world)
             (ex_entity "@legacy" None None None)). reflexivity.
  - apply (proj2 (@delete_guards ex_collaborators ex_world)
             (ModelVersion.Build (Some "m2") None (Some "v1") None None None
                None None)); [reflexivity | reflexivity |].
    apply (proj1 (Forall_forall
             (λ r, ModelVersionRow.version_id r = Some "v1" →
                   ¬ in_scope (Some "m2") (ModelVersionRow.model_id r))
             (model_versions ex_world))).
    by_evaluation.
Defined.

End Delete_guards_instance.

Section Delete_store.
Context `{Collaborators}.

Lemma filter_ext_in {A} (P Q : A → Prop) `{∀ x, Decision (P x)}
    `{∀ x, Decision (Q x)} (l : list A) :
  (∀ x, x ∈ l → P x ↔ Q x) → filter P l = filter Q l.
Proof.
  induction l as [| x l IH]; [done |]. intros Hiff.
  assert (filter P l = filter Q l) as Htail
    by (apply IH; intros y Hy; apply Hiff; set_solver).
  destruct (decide (P x)) as [Hp | Hp].
  - rewrite !filter_cons_True, Htail; [done | | done].
    apply Hiff; [set_solver | done].
  - rewrite !filter_cons_False, Htail; [done | | done].
    intros Hq. apply Hp, Hiff; [set_solver | done].
Qed.

Lemma filter_empty_rest {A} (P : A → Prop) `{∀ x, Decision (P x)}
    (l : list A) :
  filter P l = [] → filter (λ x, ¬ P x) l = l.
Proof.
  intros Hnone. apply filter_all, Forall_forall. intros x Hx Hp.
  assert (x ∈ filter P l) as Hin by (apply list_elem_of_filter; done).
  rewrite Hnone in Hin. set_solver.
Qed.

(** The store after the version loop of one model: its versions and their
    aliases are gone, everything else is as it was. *)
Lemma versions_cascade_store id vs :
  ∀ w,
    versions_of w (Some id) = vs →
    NoDup (ModelVersionRow.version_id <$> vs) →
    Forall (λ v, truthy (ModelVersionRow.version_id v) = true
                 ∧ is_alias (ModelVersionRow.version_id v) = false) vs →
    ∃ w',
      for_each ModelVersion.delete (ModelVersion.from_namedtuple <$> vs) w
      = (Returned tt, w')
      ∧ models w' = models w
      ∧ model_versions w'
        = filter (λ v, ModelVersionRow.model_id v ≠ Some id) (model_versions w)
      ∧ directories w' = directories w
      ∧ annotations w' = annotations w
      ∧ project_aliases w'
        = filter (λ a, ProjectAliasRow.component_id a
                       ∉ ModelVersionRow.version_id <$> vs)
            (project_aliases w)
      ∧ objects w' = objects w.
Proof.
  induction vs as [| v vs IH]; intros w Hvs Hnd Hok.
  - exists w. repeat split.
    + symmetry. by apply filter_empty_rest.
    + symmetry. apply filter_all, Forall_forall. set_solver.
  - rewrite fmap_cons, for_each_cons, version_delete_run. cbn zeta.
    apply Forall_cons in Hok as [[Hid Ha] Hok].
    apply NoDup_cons in Hnd as [Hfresh Hnd].
    change (ModelVersion.version_id (ModelVersion.from_namedtuple v))
      with (ModelVersionRow.version_id v).
    change (ModelVersion.model_id (ModelVersion.from_namedtuple v))
      with (ModelVersionRow.model_id v).
    rewrite Ha, Hid. cbn [negb].
    assert (ModelVersionRow.model_id v = Some id) as Hmid.
    { assert (v ∈ versions_of w (Some id)) as Hin by (rewrite Hvs; set_solver).
      apply list_elem_of_filter in Hin. tauto. }
    assert (Forall (λ x, ModelVersionRow.version_id x
                         ≠ ModelVersionRow.version_id v) vs) as Hothers.
    { apply Forall_forall. intros x Hx Heq. apply Hfresh. rewrite <- Heq.
      apply list_elem_of_fmap. eauto. }
    rewrite Hmid.
    rewrite (list_filter_iff _
      (λ r, ModelVersionRow.version_id r = ModelVersionRow.version_id v
            ∧ ModelVersionRow.model_id r = Some id))
      by (intros r; by rewrite in_scope_Some).
    rewrite <- list_filter_filter. fold (versions_of w (Some id)).
    rewrite Hvs, filter_cons_True by done.
    set (w1 := log _ (log _ (log _ (version_deleted v w)))).
    apply truthy_inv in Hid as (s & Hs & _).
    destruct (IH w1) as (w' & Hrun & Hm & Hv & Hd & Han & Hal & Ho);
      try done.
    { unfold versions_of, w1. cbn [model_versions log version_deleted].
      rewrite list_filter_filter.
      rewrite (list_filter_iff _
        (λ r, ModelVersionRow.version_id r ≠ ModelVersionRow.version_id v
              ∧ ModelVersionRow.model_id r = Some id)).
      - rewrite <- list_filter_filter. fold (versions_of w (Some id)).
        rewrite Hvs, filter_cons_False by (by intros []).
        by apply filter_all.
      - intros r. rewrite Hmid, Hs, !in_scope_Some. naive_solver. }
    exists w'. split; [done |].
    rewrite Hm, Hv, Hd, Han, Hal, Ho. unfold w1.
    cbn [models model_versions directories annotations project_aliases
         objects log version_deleted].
    repeat split.
    + rewrite list_filter_filter. apply list_filter_iff. intros r.
      rewrite Hmid, in_scope_Some. naive_solver.
    + rewrite list_filter_filter. apply list_filter_iff. intros a.
      rewrite fmap_cons, not_elem_of_cons, Hs, in_scope_Some. naive_solver.
Qed.

(** X8. The store after a successful [Model.delete], under the conditions
    of the cascade: the model table loses the rows with the model's id, the
    version table the rows under the model, the annotation table the rows
    tagged with the model component type and the id, the alias table the
    rows pointing at the model or at one of its versions, the object store
    the objects under the directory joining project and model id.  Every
    other row and object is kept, in order, and the directory table is as
    before. *)
Theorem model_delete_store (self : Model.t) (w : World) (id project : string)
    (record : ModelRow.t) :
  Model.model_id self = Some id → id ≠ "" → is_alias (Some id) = false →
  model_record w (Some id) = Some record →
  ModelRow.project_id record = Some project →
  let versions := versions_of w (Some id) in
  NoDup (ModelVersionRow.version_id <$> versions) →
  Forall (λ v, truthy (ModelVersionRow.version_id v) = true
               ∧ is_alias (ModelVersionRow.version_id v) = false) versions →
  let w' := (Model.delete self w).2 in
  models w' = filter (λ r, ModelRow.model_id r ≠ Some id) (models w)
  ∧ model_versions w'
    = filter (λ v, ModelVersionRow.model_id v ≠ Some id) (model_versions w)
  ∧ directories w' = directories w
  ∧ annotations w'
    = filter (λ a, ¬ (AnnotationRow.component_type a = ct_model
                      ∧ AnnotationRow.component_id a = Some id))
        (annotations w)
  ∧ project_aliases w'
    = filter (λ a, ProjectAliasRow.component_id a ≠ Some id
                   ∧ ProjectAliasRow.component_id a
                     ∉ ModelVersionRow.version_id <$> versions)
        (project_aliases w)
  ∧ objects w'
    = filter (λ o, under_directory (os_path_join project id) o.2 ≠ true)
        (objects w).
Proof.
  intros Hid Hne Ha Hrec Hproject versions Hnd Hok.
  pose proof (model_delete_run self w id record Hid Hne Ha Hrec) as Hfull.
  set (w0 := log _ (log _ w)) in Hfull.
  destruct (versions_cascade_store id versions w0)
    as (w1 & Hrun & Hm & Hv & Hd & Han & Hal & Ho); try done.
  fold versions in Hfull.
  rewrite Hrun, Hproject, model_cleanup_run in Hfull.
  cbn zeta. rewrite Hfull. unfold model_deleted.
  cbn [snd models model_versions directories annotations project_aliases
       objects].
  rewrite Hm, Hv, Hd, Han, Hal, Ho. unfold w0.
  cbn [models model_versions directories annotations project_aliases
       objects log].
  repeat split. by rewrite list_filter_filter.
Qed.

(** X9. A model record without a project: [Model.delete] removes the
    model's versions, their aliases and the model's row, then fails with
    the TypeError of the path join.  The object store, the annotations and
    the aliases pointing at the model are left as they were. *)
Theorem model_delete_without_project (self : Model.t) (w : World)
    (id : string) (record : ModelRow.t) :
  Model.model_id self = Some id → id ≠ "" → is_alias (Some id) = false →
  model_record w (Some id) = Some record →
  ModelRow.project_id record = None →
  let versions := versions_of w (Some id) in
  NoDup (ModelVersionRow.version_id <$> versions) →
  Forall (λ v, truthy (ModelVersionRow.version_id v) = true
               ∧ is_alias (ModelVersionRow.version_id v) = false) versions →
  let w' := (Model.delete self w).2 in
  (Model.delete self w).1
  = Raised (Raise TypeError
              "expected str, bytes or os.PathLike object, not NoneType")
  ∧ models w' = filter (λ r, ModelRow.model_id r ≠ Some id) (models w)
  ∧ model_versions w'
    = filter (λ v, ModelVersionRow.model_id v ≠ Some id) (model_versions w)
  ∧ annotations w' = annotations w
  ∧ project_aliases w'
    = filter (λ a, ProjectAliasRow.component_id a
                   ∉ ModelVersionRow.version_id <$> versions)
        (project_aliases w)
  ∧ objects w' = objects w.
Proof.
  intros Hid Hne Ha Hrec Hproject versions Hnd Hok.
  pose proof (model_delete_run self w id record Hid Hne Ha Hrec) as Hfull.
  set (w0 := log _ (log _ w)) in Hfull.
  destruct (versions_cascade_store id versions w0)
    as (w1 & Hrun & Hm & Hv & Hd & Han & Hal & Ho); try done.
  fold versions in Hfull.
  rewrite Hrun, Hproject in Hfull.
  unfold Model._delete in Hfull. rewrite bind_run, delete_run in Hfull by done.
  cbn [table_set table_rows table_column table_name model_table] in Hfull.
  cbn zeta in Hfull. rewrite bind_run in Hfull. cbn [path_join] in Hfull.
  unfold raise at 1 in Hfull.
  cbn zeta. rewrite Hfull.
  cbn [fst snd models model_versions directories annotations project_aliases
       objects log].
  rewrite Hm, Hv, Han, Hal, Ho. unfold w0.
  cbn [models model_versions directories annotations project_aliases
       objects log].
  repeat split. apply list_filter_iff. intros r.
  by rewrite model_by_id_scope, in_scope_Some.
Qed.

End Delete_store.

Section Delete_store_instance.
#[local] Existing Instance ex_collaborators.

Lemma model_delete_store_witness :
  let self := ex_entity "m1" None None None in
  let w' := (Model.delete self ex_world).2 in
  models w' = filter (λ r, ModelRow.model_id r ≠ Some "m1") (models ex_world)
  ∧ model_versions w'
    = filter (λ v, ModelVersionRow.model_id v ≠ Some "m1")
        (model_versions ex_world)
  ∧ directories w' = directories ex_world
  ∧ annotations w'
    = filter (λ a, ¬ (AnnotationRow.component_type a = ct_model
                      ∧ AnnotationRow.component_id a = Some "m1"))
        (annotations ex_world)
  ∧ project_aliases w'
    = filter (λ a, ProjectAliasRow.component_id a ≠ Some "m1"
                   ∧ ProjectAliasRow.component_id a
                     ∉ ModelVersionRow.version_id
                         <$> versions_of ex_world (Some "m1"))
        (project_aliases ex_world)
  ∧ objects w'
    = filter (λ o, under_directory (os_path_join "p1" "m1") o.2 ≠ true)
        (objects ex_world).
Proof.
  apply (@model_delete_store ex_collaborators
           (ex_entity "m1" None None None) ex_world "m1" "p1"
           (ex_model "m1" "p1" "a" (Some "d1"))).
  - reflexivity.
  - discriminate.
  - reflexivity.
  - reflexivity.
  - reflexivity.
  - by_evaluation.
  - by_evaluation.
Defined.

Lemma model_delete_without_project_witness :
  let self := ex_entity "m9" None None None in
  let w' := (Model.delete self ex_orphan_world).2 in
  (Model.delete self ex_orphan_world).1
  = Raised (Raise TypeError
              "expected str, bytes or os.PathLike object, not NoneType")
  ∧ models w'
    = filter (λ r, ModelRow.model_id r ≠ Some "m9") (models ex_orphan_world)
  ∧ model_versions w'
    = filter (λ v, ModelVersionRow.model_id v ≠ Some "m9")
        (model_versions ex_orphan_world)
  ∧ annotations w' = annotations ex_orphan_world
  ∧ project_aliases w'
    = filter (λ a, ProjectAliasRow.component_id a
                   ∉ ModelVersionRow.version_id
                       <$> versions_of ex_orphan_world (Some "m9"))
        (project_aliases ex_orphan_world)
  ∧ objects w' = objects ex_orphan_world.
Proof.
  apply (@model_delete_without_project ex_collaborators
           (ex_entity "m9" None None None) ex_orphan_world "m9"
           (ModelRow.Build (Some "m9") None (Some "a") None None None None
              None None None)).
  - reflexivity.
  - discriminate.
  - reflexivity.
  - reflexivity.
  - reflexivity.
  - by_evaluation.
  - by_evaluation.
Defined.

End Delete_store_instance.

Section Delete_effects.
Context `{Collaborators}.

Lemma key_unique {R K} (key : R → K) (l : list R) (x y : R) :
  NoDup (key <$> l) → x ∈ l → y ∈ l → key x = key y → x = y.
Proof.
  induction l as [| z l IH]; [set_solver |].
  rewrite fmap_cons, NoDup_cons, !elem_of_cons.
  intros [Hz Hnd] [-> | Hx] [-> | Hy] Hk; [done | | | by apply IH].
  - exfalso. apply Hz. rewrite Hk. apply list_elem_of_fmap. eauto.
  - exfalso. apply Hz. rewrite <- Hk. apply list_elem_of_fmap. eauto.
Qed.

(** X10. A delete cannot be repeated.  After a successful [Model.delete]
    the same call on the resulting store fails with NoModelException at the
    fetch, and changes nothing; so does a second [ModelVersion.delete] when
    version ids are unique. *)
Theorem delete_twice_fails (w w' : World) :
  (∀ self : Model.t,
     Model.delete self w = (Returned tt, w') →
     ∃ message,
       Model.delete self w'
       = (Raised (Raise NoModelException message),
          log (QueryRecords tbl_model true
                 [("model_id", of_opt (Model.model_id self))]) w'))
  ∧ (∀ self : ModelVersion.t,
     NoDup (ModelVersionRow.version_id <$> model_versions w) →
     ModelVersion.delete self w = (Returned tt, w') →
     ∃ message,
       ModelVersion.delete self w'
       = (Raised (Raise NoModelException message),
          log (QueryRecords tbl_model_version true
                 [("version_id", of_opt (ModelVersion.version_id self));
                  ("model_id", of_opt (ModelVersion.model_id self))]) w')).
Proof.
  split; intros self.
  - intros Hrun.
    destruct (model_delete_returned_id self w w' Hrun) as [Ha Hid].
    apply model_delete_returned in Hrun as (id & project & w3 & Hself & ->).
    rewrite model_delete_missing; [eauto | done | done |].
    rewrite Hself. unfold model_record, model_deleted. cbn [models].
    rewrite filter_none; [done |].
    intros r Hr Hkey. apply list_elem_of_filter in Hr. tauto.
  - intros Hnd. rewrite !version_delete_run. cbn zeta.
    destruct (is_alias (ModelVersion.version_id self)); [done |].
    destruct (truthy (ModelVersion.version_id self)) eqn:Hid; [| done].
    cbn [negb].
    destruct (filter _ (model_versions w)) as [| r l] eqn:Hf; [done |].
    intros [= <-]. cbn [model_versions log version_deleted].
    assert (r ∈ filter (λ r, ModelVersionRow.version_id r
                             = ModelVersion.version_id self
                             ∧ in_scope (ModelVersion.model_id self)
                                 (ModelVersionRow.model_id r))
                  (model_versions w)) as Hr by (rewrite Hf; set_solver).
    apply list_elem_of_filter in Hr as [[Hrid Hrs] Hr].
    rewrite filter_none; [eauto |].
    intros x Hx [Hxid Hxs]. apply list_elem_of_filter in Hx as [Hgone Hx].
    assert (x = r) as ->.
    { apply (key_unique ModelVersionRow.version_id (model_versions w));
        [done | done | done | congruence]. }
    apply Hgone. unfold in_scope. tauto.
Qed.

(** X11. The store after a successful [ModelVersion.delete], version ids
    being unique: the version table loses the row with the entity's version
    id, the alias table the rows pointing at it; the other rows are kept in
    order, and models, directories, annotations and objects are as
    before. *)
Theorem version_delete_store (self : ModelVersion.t) (w : World) :
  NoDup (ModelVersionRow.version_id <$> model_versions w) →
  (ModelVersion.delete self w).1 = Returned tt →
  let id := ModelVersion.version_id self in
  let w' := (ModelVersion.delete self w).2 in
  models w' = models w
  ∧ model_versions w'
    = filter (λ v, ModelVersionRow.version_id v ≠ id) (model_versions w)
  ∧ directories w' = directories w
  ∧ annotations w' = annotations w
  ∧ project_aliases w'
    = filter (λ a, ProjectAliasRow.component_id a ≠ id) (project_aliases w)
  ∧ objects w' = objects w.
Proof.
  intros Hnd. rewrite version_delete_run. cbn zeta.
  destruct (is_alias (ModelVersion.version_id self)); [done |].
  destruct (truthy (ModelVersion.version_id self)) eqn:Hid; [| done].
  cbn [negb].
  destruct (filter _ (model_versions w)) as [| r l] eqn:Hf; [done |].
  intros _.
  cbn [snd models model_versions directories annotations project_aliases
       objects log version_deleted].
  assert (r ∈ filter (λ r, ModelVersionRow.version_id r
                           = ModelVersion.version_id self
                           ∧ in_scope (ModelVersion.model_id self)
                               (ModelVersionRow.model_id r))
                (model_versions w)) as Hr by (rewrite Hf; set_solver).
  apply list_elem_of_filter in Hr as [[Hrid Hrs] Hr].
  apply truthy_inv in Hid as (s & Hs & _). rewrite Hrid, Hs.
  repeat split.
  - apply filter_ext_in. intros x Hx. rewrite in_scope_Some. split.
    + intros Hkeep Hxid. apply Hkeep. split; [done |].
      assert (x = r) as ->
        by (apply (key_unique ModelVersionRow.version_id (model_versions w));
            [done | done | done | congruence]).
      unfold in_scope. tauto.
    + tauto.
  - apply list_filter_iff. intros a. by rewrite in_scope_Some.
Qed.

(** X12. [ModelVersions.delete]: without a model id it fails with
    InvalidInputException before any call; for a model whose versions have
    unique, non-empty, resolved ids it succeeds, removes exactly the
    versions under the model and the aliases pointing at them, and leaves
    the versions of other models and every other table as they were. *)
Theorem versions_delete_store (w : World) :
  (∀ model_id, truthy model_id = false →
     ModelVersions.delete model_id w
     = (Raised (Raise InvalidInputException
                  "Atleast one Model ID must be provided"), w))
  ∧ (∀ id : string,
     id ≠ "" →
     let versions := versions_of w (Some id) in
     NoDup (ModelVersionRow.version_id <$> versions) →
     Forall (λ v, truthy (ModelVersionRow.version_id v) = true
                  ∧ is_alias (ModelVersionRow.version_id v) = false)
       versions →
     let w' := (ModelVersions.delete (Some id) w).2 in
     (ModelVersions.delete (Some id) w).1 = Returned tt
     ∧ models w' = models w
     ∧ model_versions w'
       = filter (λ v, ModelVersionRow.model_id v ≠ Some id) (model_versions w)
     ∧ directories w' = directories w
     ∧ annotations w' = annotations w
     ∧ project_aliases w'
       = filter (λ a, ProjectAliasRow.component_id a
                      ∉ ModelVersionRow.version_id <$> versions)
           (project_aliases w)
     ∧ objects w' = objects w).
Proof.
  split.
  - intros model_id Hid. unfold ModelVersions.delete, ModelVersions.pull.
    by rewrite Hid.
  - intros id Hne versions Hnd Hok. cbn zeta.
    rewrite versions_delete_run by done. fold versions.
    set (w0 := log _ w).
    destruct (versions_cascade_store id versions w0)
      as (w1 & Hrun & Hm & Hv & Hd & Han & Hal & Ho); try done.
    rewrite Hrun. cbn [fst snd]. by rewrite Hm, Hv, Hd, Han, Hal, Ho.
Qed.

End Delete_effects.

Section Delete_effects_instance.
#[local] Existing Instance ex_collaborators.

Lemma delete_twice_fails_witness :
  let self := ex_entity "m1" None None None in
  let w' := (Model.delete self ex_world).2 in
  ∃ message,
    Model.delete self w'
    = (Raised (Raise NoModelException message),
       log (QueryRecords tbl_model true
              [("model_id", of_opt (Model.model_id self))]) w').
Proof.
  intros self w'.
  apply (proj1 (@delete_twice_fails ex_collaborators ex_world w') self).
  vm_compute. reflexivity.
Defined.

Lemma version_delete_store_witness :
  let self :=
    ModelVersion.Build (Some "m1") None (Some "v1") None None None None None in
  let w' := (ModelVersion.delete self ex_world).2 in
  models w' = models ex_world
  ∧ model_versions w'
    = filter (λ v, ModelVersionRow.version_id v ≠ Some "v1")
        (model_versions ex_world)
  ∧ directories w' = directories ex_world
  ∧ annotations w' = annotations ex_world
  ∧ project_aliases w'
    = filter (λ a, ProjectAliasRow.component_id a ≠ Some "v1")
        (project_aliases ex_world)
  ∧ objects w' = objects ex_world.
Proof.
  apply (@version_delete_store ex_collaborators
           (ModelVersion.Build (Some "m1") None (Some "v1") None None None
              None None) ex_world).
  - by_evaluation.
  - vm_compute. reflexivity.
Defined.

Lemma versions_delete_store_witness :
  ModelVersions.delete None ex_world
  = (Raised (Raise InvalidInputException
               "Atleast one Model ID must be provided"), ex_world)
  ∧ let w' := (ModelVersions.delete (Some "m1") ex_world).2 in
    (ModelVersions.delete (Some "m1") ex_world).1 = Returned tt
    ∧ models w' = models ex_world
    ∧ model_versions w'
      = filter (λ v, ModelVersionRow.model_id v ≠ Some "m1")
          (model_versions ex_world)
    ∧ directories w' = directories ex_world
    ∧ annotations w' = annotations ex_world
    ∧ project_aliases w'
      = filter (λ a, ProjectAliasRow.component_id a
                     ∉ ModelVersionRow.version_id
                         <$> versions_of ex_world (Some "m1"))
          (project_aliases ex_world)
    ∧ objects w' = objects ex_world.
Proof.
  split.
  - apply (proj1 (@versions_delete_store ex_collaborators ex_world) None).
    reflexivity.
  - apply (proj2 (@versions_delete_store ex_collaborators ex_world) "m1").
    + discriminate.
    + by_evaluation.
    + by_evaluation.
Defined.

End Delete_effects_instance.

(** ** Validation: what the syntax check makes of a rejected name *)

Section Rejected_names.
Context `{Collaborators}.

Lemma syntax_check_rejected prefix name e w :
  validate_filename name = Some e →
  syntax_check prefix name w
  = (Raised (match error_code e with
             | Some code => Raise InvalidInputException (prefix +:+ code)
             | None =>
                 Raise AttributeError
                   "'NoneType' object has no attribute 'group'"
             end), log (ValidateFilename name) w).
Proof. intros He. unfold syntax_check. rewrite He. by destruct (error_code e). Qed.

(** X13. A candidate name that reaches the validator and is rejected by it:
    [validate] fails with InvalidInputException "Invalid name: " (for a
    version "Invalid Version: ") followed by the bracketed code found in
    the validator's message, and with the AttributeError of [None.group]
    when the message holds no such code.  For a model the directory is then
    not looked up.  The name reaches the validator when the identity block
    has passed, no sibling has the name, and the identity has no record or
    a record with another name. *)
Theorem rejected_name_error (w : World) :
  (∀ (self : Model.t) (w1 : World) (e : string),
     model_keys_ok w →
     truthy (Model.name self) = true →
     Model.validate_existing self w = (Returned tt, w1) →
     Model.name self
       ∉ ModelRow.name
           <$> sibling_models w (Model.project_id self) (Model.model_id self) →
     Model.project_id self ≠ Some "" →
     match model_record w (Model.model_id self) with
     | Some record => Model.name self ≠ ModelRow.name record
     | None => True
     end →
     validate_filename (text (Model.name self)) = Some e →
     (Model.validate self w).1
     = Raised (match error_code e with
               | Some code =>
                   Raise InvalidInputException ("Invalid name: " +:+ code)
               | None =>
                   Raise AttributeError
                     "'NoneType' object has no attribute 'group'"
               end)
     ∧ ∀ fetchone filters,
         QueryRecords tbl_directory fetchone filters
           ∉ issued (Model.validate self) w)
  ∧ (∀ (self : ModelVersion.t) (w1 : World) (e : string),
     version_keys_ok w →
     truthy (ModelVersion.version self) = true →
     ModelVersion.validate_existing self w = (Returned tt, w1) →
     ModelVersion.version self
       ∉ ModelVersionRow.version
           <$> sibling_versions w (ModelVersion.model_id self)
                 (ModelVersion.version_id self) →
     ModelVersion.model_id self ≠ Some "" →
     match version_record w (ModelVersion.version_id self) with
     | Some record =>
         ModelVersion.version self ≠ ModelVersionRow.version record
     | None => True
     end →
     validate_filename (text (ModelVersion.version self)) = Some e →
     (ModelVersion.validate self w).1
     = Raised (match error_code e with
               | Some code =>
                   Raise InvalidInputException ("Invalid Version: " +:+ code)
               | None =>
                   Raise AttributeError
                     "'NoneType' object has no attribute 'group'"
               end)).
Proof.
  split; intros self w1 e Hok Hn Hex Hfree Hp Hnew He.
  - destruct (model_validate_name_cases self w w1 Hok Hn Hex) as [_ Hno].
    destruct (Hno Hfree) as (on_record & Hrun & Hrec).
    rewrite <- (Hrec Hp) in Hnew. clear Hrec Hno.
    assert (Model.validate_name self w1
            = syntax_check "Invalid name: " (text (Model.name self))
                (log (QueryRecords tbl_model false
                        [("project_id", of_opt (Model.project_id self))]) w1))
      as Hname.
    { rewrite Hrun. destruct on_record as [r|]; [| done].
      by rewrite bool_decide_eq_true_2. }
    rewrite (syntax_check_rejected _ _ e) in Hname by done.
    split.
    + unfold Model.validate. rewrite (bind_returned _ _ _ _ _ Hex).
      rewrite bind_run, Hname. done.
    + intros fetchone filters.
      rewrite (model_validate_issued self w w1 _ _
                 [QueryRecords tbl_model false
                    [("project_id", of_opt (Model.project_id self))];
                  ValidateFilename (text (Model.name self))] Hex Hname)
        by (by rewrite !calls_log, <- app_assoc).
      destruct (truthy (Model.model_id self)); set_solver.
  - destruct (version_validate_version_cases self w w1 Hok Hn Hex) as [_ Hno].
    destruct (Hno Hfree) as (on_record & Hrun & Hrec).
    rewrite <- (Hrec Hp) in Hnew. clear Hrec Hno.
    unfold ModelVersion.validate. rewrite (bind_returned _ _ _ _ _ Hex).
    rewrite Hrun. destruct on_record as [r|].
    + rewrite bool_decide_eq_true_2 by done.
      by rewrite (syntax_check_rejected _ _ e).
    + by rewrite (syntax_check_rejected _ _ e).
Qed.

End Rejected_names.

Section Rejected_names_instance.
#[local] Existing Instance ex_collaborators.

Lemma rejected_name_error_witness :
  (Model.validate (ex_entity "m1" (Some "p1") (Some "x/y") None) ex_world).1
  = Raised (Raise InvalidInputException "Invalid name: [PV1100]")
  ∧ (ModelVersion.validate
       (ModelVersion.Build (Some "m1") (Some "1/2") None None None None None
          None) ex_world).1
    = Raised (Raise InvalidInputException "Invalid Version: [PV1100]").
Proof.
  split.
  - apply (proj1 (@rejected_name_error ex_collaborators ex_world)
             (ex_entity "m1" (Some "p1") (Some "x/y") None)
             (log (QueryRecords tbl_model true [("model_id", VStr "m1")])
                ex_world)
             "[PV1100] invalid characters found" ex_world_model_keys
             eq_refl eq_refl).
    + by_evaluation.
    + discriminate.
    + vm_compute. discriminate.
    + reflexivity.
  - apply (proj2 (@rejected_name_error ex_collaborators ex_world)
             (ModelVersion.Build (Some "m1") (Some "1/2") None None None None
                None None)
             ex_world "[PV1100] invalid characters found").
    + split; by_evaluation.
    + reflexivity.
    + reflexivity.
    + by_evaluation.
    + discriminate.
    + exact I.
    + reflexivity.
Defined.

End Rejected_names_instance.

(** ** Validation of a model as it is stored *)

Section Stored_models.
Context `{Collaborators}.

(** X14. A model read from a store with unique, non-empty model ids
    passes [validate] against that store when its id is not an alias, no
    sibling of its project has its name, and its directory (when it has
    one and the gateway reports empty results as not found) exists in its
    project with the model type.  Its name is not sent to the file-name
    validator, whatever the validator would say of it. *)
Theorem stored_model_validates (w : World) (r : ModelRow.t) :
  model_keys_ok w → r ∈ models w →
  is_alias (ModelRow.model_id r) = false →
  ModelRow.project_id r ≠ Some "" →
  (truthy (ModelRow.name r) = true →
   ModelRow.name r
     ∉ ModelRow.name
         <$> sibling_models w (ModelRow.project_id r) (ModelRow.model_id r)) →
  (truthy (ModelRow.directory_id r) = true →
   directory_query_raises = true →
   ∃ d, d ∈ directories w
        ∧ DirectoryRow.directory_id d = ModelRow.directory_id r
        ∧ in_scope (ModelRow.project_id r) (DirectoryRow.project_id d)
        ∧ DirectoryRow.type d = ct_model) →
  let self := Model.from_namedtuple r in
  (Model.validate self w).1 = Returned tt
  ∧ ∀ name, ValidateFilename name ∉ issued (Model.validate self) w.
Proof.
  intros Hok Hr Ha Hp Hfree Hdir self.
  pose proof Hok as [Hnd Hall].
  assert (truthy (ModelRow.model_id r) = true) as Hid
    by (by apply (proj1 (Forall_forall _ _) Hall)).
  assert (model_record w (ModelRow.model_id r) = Some r) as Hrec
    by (by apply record_unique).
  set (w1 := log (QueryRecords tbl_model true
                    [("model_id", of_opt (ModelRow.model_id r))]) w).
  assert (Model.validate_existing self w = (Returned tt, w1)) as Hex.
  { rewrite model_validate_existing_run. unfold self.
    change (Model.model_id (Model.from_namedtuple r))
      with (ModelRow.model_id r).
    change (Model.project_id (Model.from_namedtuple r))
      with (ModelRow.project_id r).
    rewrite Hid. cbn zeta. rewrite Hrec, Ha.
    rewrite bool_decide_eq_false_2 by (by intros []).
    by rewrite andb_false_r. }
  set (sibling_query :=
         QueryRecords tbl_model false
           [("project_id", of_opt (ModelRow.project_id r))]).
  assert (∃ w2 l2,
            Model.validate_name self w1 = (Returned tt, w2)
            ∧ calls w2 = calls w1 ++ l2
            ∧ l2 ⊆ [sibling_query]
            ∧ directories w2 = directories w) as (w2 & l2 & Hname & Hc & Hl & Hd).
  { destruct (truthy (ModelRow.name r)) eqn:Hn.
    - destruct (model_validate_name_cases self w w1 Hok Hn Hex) as [_ Hno].
      destruct (Hno (Hfree eq_refl)) as (on_record & Hrun & Hon).
      rewrite (Hon Hp) in Hrun. unfold self in Hrun.
      change (Model.model_id (Model.from_namedtuple r))
        with (ModelRow.model_id r) in Hrun.
      rewrite Hrec, bool_decide_eq_false_2 in Hrun by (by intros []).
      eexists _, [sibling_query]. split; [exact Hrun |].
      split; [by rewrite calls_log |]. split; [set_solver | done].
    - exists w1, []. unfold Model.validate_name, self.
      change (Model.name (Model.from_namedtuple r)) with (ModelRow.name r).
      rewrite Hn, app_nil_r. split; [done |]. split; [done |].
      split; [set_solver | done]. }
  assert ((Model.validate_directory self w2).1 = Returned tt) as Hdone.
  { rewrite model_validate_directory_run. unfold self.
    change (Model.directory_id (Model.from_namedtuple r))
      with (ModelRow.directory_id r).
    change (Model.project_id (Model.from_namedtuple r))
      with (ModelRow.project_id r).
    destruct (truthy (ModelRow.directory_id r)) eqn:Hdid; [| done].
    cbn zeta. rewrite Hd.
    destruct (filter _ (directories w)) as [| d l] eqn:Hf; [| done].
    destruct directory_query_raises eqn:Hraises; [| done].
    destruct (Hdir eq_refl eq_refl) as (d & Hin & Hdd & Hdp & Hdt).
    assert (d ∈ filter (λ x, in_scope (ModelRow.directory_id r)
                                (DirectoryRow.directory_id x)
                              ∧ in_scope (ModelRow.project_id r)
                                  (DirectoryRow.project_id x)
                              ∧ DirectoryRow.type x = ct_model)
                  (directories w)) as Hd'.
    { apply list_elem_of_filter. repeat split; [by right | done | done | done]. }
    rewrite Hf in Hd'. set_solver. }
  split.
  - unfold Model.validate. rewrite (bind_returned _ _ _ _ _ Hex).
    by rewrite (bind_returned _ _ _ _ _ Hname).
  - intros name.
    rewrite (model_validate_issued self w w1 _ _ l2 Hex Hname Hc).
    destruct (truthy (Model.model_id self)),
      (truthy (Model.directory_id self)); set_solver.
Qed.

End Stored_models.

Section Stored_models_instance.
#[local] Existing Instance ex_collaborators.

Lemma stored_model_validates_witness :
  let self := Model.from_namedtuple (ex_model "m1" "p1" "a" (Some "d1")) in
  (Model.validate self ex_world).1 = Returned tt
  ∧ ∀ name, ValidateFilename name ∉ issued (Model.validate self) ex_world.
Proof.
  apply (@stored_model_validates ex_collaborators ex_world
           (ex_model "m1" "p1" "a" (Some "d1")) ex_world_model_keys).
  - by_evaluation.
  - reflexivity.
  - discriminate.
  - intros _. by_evaluation.
  - intros _ _. exists (DirectoryRow.Build (Some "d1") (Some "p1") ct_model).
    repeat split; [by_evaluation | by right].
Defined.

End Stored_models_instance.

(** ** Reading a model from the wire *)

Section From_proto.
Context `{Collaborators}.

(** X15. The wire form of a model without a creation or modification
    time cannot be read back: [to_proto] writes the text of [None] into the
    field, and [from_proto] fails on it with ValueError, before any call to
    the store (ids that are aliases apart, which are resolved first). *)
Theorem wire_needs_timestamps (model : Model.t) (w : World) :
  (truthy (Model.model_id model) = true →
   is_alias (Model.model_id model) = false) →
  (truthy (Model.directory_id model) = true →
   is_alias (Model.directory_id model) = false) →
  Model.created_at model = None ∨ Model.modified_at model = None →
  ∃ message,
    Model.from_proto (Model.to_proto model) w
    = (Raised (Raise ValueError message), w).
Proof.
  intros Hid Hdir Hunset. rewrite from_proto_to_proto_run by done.
  destruct (Model.created_at model), (Model.modified_at model);
    [by destruct Hunset | eauto ..].
Qed.



End From_proto.

Section Directory_alias.
Context `{Collaborators}.

(** X17. [resolve_directory_alias] of [Model] and of [Models]: a directory
    id that is not an alias comes back unchanged without any call; an alias
    without a project fails with InvalidInputException "Project must be
    provided with an alias", again without any call; an alias with a
    project yields the id the project's alias table maps it to, after the
    one resolver call, and fails with the resolver's
    NoProjectAliasException when the project has no such alias. *)
Theorem resolve_directory_alias_cases (id project : option string)
    (w : World) :
  let both (P : (option string → option string → M (option string)) → Prop) :=
    P Model.resolve_directory_alias ∧ P Models.resolve_directory_alias in
  (is_alias id = false →
     both (λ resolve, resolve id project w = (Returned id, w)))
  ∧ (is_alias id = true → truthy project = false →
     both (λ resolve,
       resolve id project w =
       (Raised (Raise InvalidInputException
                  "Project must be provided with an alias"), w)))
  ∧ (is_alias id = true → truthy project = true →
     ∀ target, alias_mapping w id project = Some target →
     both (λ resolve,
       resolve id project w =
       (Returned target, log (ResolveComponentId id project) w)))
  ∧ (is_alias id = true → truthy project = true →
     alias_mapping w id project = None →
     both (λ resolve,
       ∃ message,
         resolve id project w =
         (Raised (Raise NoProjectAliasException message),
          log (ResolveComponentId id project) w))).
Proof.
  cbv zeta beta.
  unfold Model.resolve_directory_alias, Models.resolve_directory_alias.
  split; [| split; [| split]].
  - by intros ->.
  - by intros -> ->.
  - intros -> -> target Ht. cbn [negb].
    by rewrite to_project_component_id_run, Ht.
  - intros -> -> Hn. cbn [negb].
    rewrite to_project_component_id_run, Hn. split; eauto.
Qed.

End Directory_alias.

Section From_proto_instance.
#[local] Existing Instance ex_collaborators.

Lemma wire_needs_timestamps_witness :
  ∃ message,
    Model.from_proto
      (Model.to_proto (ex_entity "m1" (Some "p1") (Some "a") None)) ex_world
    = (Raised (Raise ValueError message), ex_world).
Proof.
  apply (@wire_needs_timestamps ex_collaborators
           (ex_entity "m1" (Some "p1") (Some "a") None) ex_world).
  - reflexivity.
  - discriminate.
  - left. reflexivity.
Defined.


Lemma resolve_directory_alias_cases_witness :
  Models.resolve_directory_alias (Some "d1") None ex_world
  = (Returned (Some "d1"), ex_world)
  ∧ Model.resolve_directory_alias (Some "@best") None ex_world
    = (Raised (Raise InvalidInputException
                 "Project must be provided with an alias"), ex_world)
  ∧ Models.resolve_directory_alias (Some "@best") (Some "p1") ex_world
    = (Returned (Some "m1"),
       log (ResolveComponentId (Some "@best") (Some "p1")) ex_world)
  ∧ ∃ message,
      Model.resolve_directory_alias (Some "@none") (Some "p1") ex_world
      = (Raised (Raise NoProjectAliasException message),
         log (ResolveComponentId (Some "@none") (Some "p1")) ex_world).
Proof.
  split; [| split; [| split]].
  - apply (resolve_directory_alias_cases (Some "d1") None ex_world).
    reflexivity.
  - apply (resolve_directory_alias_cases (Some "@best") None ex_world);
      reflexivity.
  - apply (resolve_directory_alias_cases (Some "@best") (Some "p1") ex_world);
      reflexivity.
  - apply (resolve_directory_alias_cases (Some "@none") (Some "p1") ex_world);
      reflexivity.
Defined.

End From_proto_instance.

(** ** What a delete spares *)

Section Delete_frame.
Context `{Collaborators}.

(** A [ModelVersion.delete] for a version of the model [id] touches
    neither the model table nor the versions of other models, however it
    ends. *)
Lemma version_delete_spares (self : ModelVersion.t) (id : string) w :
  ModelVersion.model_id self = Some id →
  models (ModelVersion.delete self w).2 = models w
  ∧ directories (ModelVersion.delete self w).2 = directories w
  ∧ filter (λ v, ModelVersionRow.model_id v ≠ Some id)
      (model_versions (ModelVersion.delete self w).2)
    = filter (λ v, ModelVersionRow.model_id v ≠ Some id) (model_versions w).
Proof.
  intros Hmid. rewrite version_delete_run. cbn zeta. rewrite Hmid.
  destruct (is_alias (ModelVersion.version_id self)); [done |].
  destruct (truthy (ModelVersion.version_id self)); [| done]. cbn [negb].
  destruct (filter _ (model_versions w)) as [| r l] eqn:Hf; [done |].
  cbn [snd models directories model_versions log version_deleted].
  split; [done |]. split; [done |].
  assert (r ∈ filter (λ r, ModelVersionRow.version_id r
                           = ModelVersion.version_id self
                           ∧ in_scope (Some id) (ModelVersionRow.model_id r))
                (model_versions w)) as Hr by (rewrite Hf; set_solver).
  apply list_elem_of_filter in Hr as [[_ Hrs%in_scope_Some] _].
  rewrite list_filter_filter. apply list_filter_iff. intros x.
  rewrite Hrs, in_scope_Some. tauto.
Qed.

Lemma version_deletes_spare (id : string) (l : list ModelVersion.t) :
  ∀ w,
    Forall (λ self, ModelVersion.model_id self = Some id) l →
    models (for_each ModelVersion.delete l w).2 = models w
    ∧ directories (for_each ModelVersion.delete l w).2 = directories w
    ∧ filter (λ v, ModelVersionRow.model_id v ≠ Some id)
        (model_versions (for_each ModelVersion.delete l w).2)
      = filter (λ v, ModelVersionRow.model_id v ≠ Some id) (model_versions w).
Proof.
  induction l as [| self l IH]; intros w Hall; [done |].
  apply Forall_cons in Hall as [Hself Hall]. rewrite for_each_cons.
  destruct (version_delete_spares self id w Hself) as (Hm & Hd & Hv).
  destruct (ModelVersion.delete self w) as [[[] | e] w1]; [| done].
  cbn [snd] in Hm, Hd, Hv. destruct (IH w1 Hall) as (Hm' & Hd' & Hv').
  repeat split; congruence.
Qed.

(** A successful [Model.delete], step by step. *)
Lemma model_delete_returned_steps self w w' :
  Model.delete self w = (Returned tt, w') →
  ∃ id project w3,
    Model.model_id self = Some id
    ∧ for_each ModelVersion.delete
        (ModelVersion.from_namedtuple <$> versions_of w (Some id))
        (log (QueryRecords tbl_model_version false
                [("model_id", VStr id); ("model_ids", VNone)])
           (log (QueryRecords tbl_model true [("model_id", VStr id)]) w))
      = (Returned tt, w3)
    ∧ w' = model_deleted id project w3.
Proof.
  intros Hrun.
  destruct (model_delete_returned_id self w w' Hrun) as [Ha Hid].
  apply truthy_inv in Hid as (id & Hid & Hne). rewrite Hid in Ha.
  destruct (model_record w (Some id)) as [record|] eqn:Hrec.
  2: { rewrite model_delete_missing in Hrun; [done | | |]; rewrite Hid;
         [done | by apply truthy_Some | done]. }
  rewrite (model_delete_run self w id record) in Hrun by done.
  destruct (for_each _ _ _) as [[[] | e] w3] eqn:Hloop; [| done].
  destruct (ModelRow.project_id record) as [project|].
  - rewrite model_cleanup_run in Hrun. exists id, project, w3.
    split; [done |]. split; [exact Hloop | congruence].
  - revert Hrun. unfold Model._delete. rewrite bind_run, delete_run by done.
    by cbn zeta.
Qed.

(** X18. A successful [Model.delete] spares everything that belongs to
    other models: the model table keeps exactly the rows with another id,
    the versions of other models are all still there (and no version was
    added), the directory table is untouched, and the pull of any other
    model by its id gives what it gave before. *)
Theorem model_delete_spares_others (self : Model.t) (w w' : World) :
  Model.delete self w = (Returned tt, w') →
  let id := Model.model_id self in
  models w' = filter (λ r, ModelRow.model_id r ≠ id) (models w)
  ∧ filter (λ v, ModelVersionRow.model_id v ≠ id) (model_versions w')
    = filter (λ v, ModelVersionRow.model_id v ≠ id) (model_versions w)
  ∧ directories w' = directories w
  ∧ ∀ other,
      other ≠ id → truthy other = true → is_alias other = false →
      (Model.pull other None w').1 = (Model.pull other None w).1.
Proof.
  intros Hrun. cbn zeta. pose proof Hrun as Hro.
  apply model_delete_returned_steps in Hrun
    as (id & project & w3 & Hid & Hloop & ->).
  rewrite Hid. set (w0 := log _ (log _ w)) in Hloop.
  destruct (version_deletes_spare id
              (ModelVersion.from_namedtuple <$> versions_of w (Some id)) w0)
    as (Hm & Hd & Hv).
  { apply Forall_fmap, Forall_forall. intros v Hin.
    apply list_elem_of_filter in Hin. cbn. tauto. }
  rewrite Hloop in Hm, Hd, Hv. cbn [snd] in Hm, Hd, Hv.
  assert (models (model_deleted id project w3)
          = filter (λ r, ModelRow.model_id r ≠ Some id) (models w)) as Hmodels
    by (by unfold model_deleted; cbn [models]; rewrite Hm).
  split; [done |]. split; [done |]. split.
  - done.
  - intros other Hother Ht Ha. rewrite !model_pull_run by done. cbn zeta.
    assert (model_record (model_deleted id project w3) other
            = model_record w other) as ->.
    { unfold model_record. rewrite Hmodels, list_filter_filter.
      f_equal. apply list_filter_iff. intros r. naive_solver. }
    by destruct (model_record w other).
Qed.

End Delete_frame.

Section Delete_frame_instance.
#[local] Existing Instance ex_collaborators.

Lemma model_delete_spares_others_witness :
  let self := ex_entity "m1" None None None in
  let w' := (Model.delete self ex_world).2 in
  let id := Model.model_id self in
  models w' = filter (λ r, ModelRow.model_id r ≠ id) (models ex_world)
  ∧ filter (λ v, ModelVersionRow.model_id v ≠ id) (model_versions w')
    = filter (λ v, ModelVersionRow.model_id v ≠ id) (model_versions ex_world)
  ∧ directories w' = directories ex_world
  ∧ ∀ other,
      other ≠ id → truthy other = true → is_alias other = false →
      (Model.pull other None w').1 = (Model.pull other None ex_world).1.
Proof.
  intros self w'.
  apply (@model_delete_spares_others ex_collaborators self ex_world w').
  vm_compute. reflexivity.
Defined.

End Delete_frame_instance.

(** ** Reading a collection from the wire *)

Section Models_from_proto.
Context `{Collaborators}.



End Models_from_proto.

(** ** Deleting the models of a project *)

Section Project_delete.
Context `{Collaborators}.





End Project_delete.

Section Project_delete_instance.
#[local] Existing Instance ex_collaborators.


End Project_delete_instance.
